(** * GraphCrawler: a shallow embedding of the crawl core and its properties

    The development follows the Python sources of the repository:

    - [graph_crawler/domain/value_objects/models.py]       (FetchResponse)
    - [graph_crawler/domain/entities/node.py]              (Node)
    - [graph_crawler/application/use_cases/crawling/node_scanner.py]
    - [graph_crawler/application/use_cases/crawling/adaptive_throttler.py]
    - [graph_crawler/infrastructure/transport/async_http/driver.py]
    - [graph_crawler/shared/utils/url_utils.py]
    - [graph_crawler/application/dto/mappers/node_mapper.py]

    Python objects that are mutated in place are modelled by explicit state
    passing; a call that may raise returns an [outcome].  Dictionaries are
    finite maps, optional values are [option]s.  The throttler's [float]s
    are binary64 numbers; a [float] that is only stored and handed on (a
    timeout, a retry delay) is a rational. *)

From Stdlib Require Import ZArith QArith Qabs Ascii String List Bool Lia.
From Stdlib Require Import Floats.
From Stdlib Require Uint63.
From stdpp Require Import gmap strings list fin_maps.

Local Open Scope string_scope.
Local Open Scope list_scope.
Local Open Scope Z_scope.

(** A decimal literal of a float stands for the nearest binary64 number, as
    it does in Python. *)
Set Warnings "-inexact-float".

(** ** Python preliminaries *)

(** An exception instance: its class name and [str(e)]. *)
Record exn := Exn { exn_class : string; exn_str : string }.

(** The result of a call that may raise. *)
Inductive outcome (A : Type) : Type :=
| Return (a : A)
| Raise (e : exn).
Arguments Return {A} a.
Arguments Raise {A} e.

(** The builtin classes that derive from [BaseException] and not from
    [Exception] (CPython 3.11; [asyncio.CancelledError] is one of them
    since 3.8).  Every other class of exceptions derives from
    [Exception]. *)
Definition BaseException_only : list string :=
  ["BaseException"; "BaseExceptionGroup"; "GeneratorExit";
   "KeyboardInterrupt"; "SystemExit"; "CancelledError"].

(** [isinstance(e, Exception)], which is also the test of a handler
    [except Exception]. *)
Definition isinstance_Exception (e : exn) : bool :=
  negb (existsb (String.eqb (exn_class e)) BaseException_only).

(** Values of type [Any] stored in the [metadata] / [user_data] dictionaries
    and returned by user supplied callbacks. *)
Inductive pyval :=
| PNone
| PBool (b : bool)
| PInt (n : Z)
| PFloat (x : Q)
| PStr (s : string).

(** Truth value of a Python value. *)
Definition py_truthy (v : pyval) : bool :=
  match v with
  | PNone => false
  | PBool b => b
  | PInt n => negb (n =? 0)
  | PFloat x => negb (Qeq_bool x 0)
  | PStr s =>
      match s with
      | EmptyString => false
      | String _ _ => true
      end
  end.

(** Truth value of a [str]: the empty string is falsy. *)
Definition str_truthy (s : string) : bool :=
  match s with
  | EmptyString => false
  | String _ _ => true
  end.

(** Truth value of an [Optional[str]]: [None] and [""] are falsy. *)
Definition opt_str_truthy (o : option string) : bool :=
  match o with
  | None => false
  | Some s => str_truthy s
  end.

(** [d.update(other)]: the keys of [other] win. *)
Definition dict_update {V} (d other : gmap string V) : gmap string V :=
  other ∪ d.

(** [datetime] values are only stored and copied; a timestamp stands for them. *)
Definition datetime := Z.

(** ** FetchResponse (models.py) *)

Module FetchResponse.
Record t := mk {
  url : string;
  html : option string;
  status_code : option Z;
  headers : gmap string string;
  error : option string;
  final_url : option string;
  redirect_chain : list string
}.
End FetchResponse.

(** [FetchResponse.is_success] *)
Definition is_success (self : FetchResponse.t) : bool :=
  match FetchResponse.error self, FetchResponse.html self with
  | None, Some _ => true
  | _, _ => false
  end.

(** [FetchResponse.is_ok] *)
Definition is_ok (self : FetchResponse.t) : bool :=
  match FetchResponse.status_code self with
  | Some c => (200 <=? c) && (c <? 300)
  | None => false
  end.

(** [FetchResponse.is_redirect]:
    [self.final_url is not None and self.final_url != self.url] *)
Definition is_redirect (self : FetchResponse.t) : bool :=
  match FetchResponse.final_url self with
  | Some f => negb (String.eqb f (FetchResponse.url self))
  | None => false
  end.

(** ** Node (node.py) *)

(** Modelled from the spec: the enum [NodeLifecycle] of
    [graph_crawler.domain.value_objects.lifecycle], whose module is not part
    of the sources at hand; its two members and their string values
    ["url_stage"] and ["html_stage"] are the ones of the DTO format. *)
Inductive NodeLifecycle := URL_STAGE | HTML_STAGE.

Definition NodeLifecycle_value (l : NodeLifecycle) : string :=
  match l with
  | URL_STAGE => "url_stage"
  | HTML_STAGE => "html_stage"
  end.

(** [NodeLifecycle(value)]: lookup by value, [ValueError] otherwise. *)
Definition NodeLifecycle_of_value (s : string) : outcome NodeLifecycle :=
  if String.eqb s "url_stage" then Return URL_STAGE
  else if String.eqb s "html_stage" then Return HTML_STAGE
  else Raise (Exn "ValueError" "not a valid NodeLifecycle").

Definition NodeLifecycle_eqb (a b : NodeLifecycle) : bool :=
  match a, b with
  | URL_STAGE, URL_STAGE | HTML_STAGE, HTML_STAGE => true
  | _, _ => false
  end.

(** The pydantic fields of a [Node] that hold plain data, together with the
    private attribute [_hash_determinism_validated] ([true] when
    [hasattr(self, "_hash_determinism_validated")]).  This is the part of
    the node that plugins and hash strategies can read and write. *)
Module NodeState.
Record t := mk {
  url : string;
  node_id : string;
  depth : Z;
  should_scan : bool;
  can_create_edges : bool;
  created_at : datetime;
  metadata : gmap string pyval;
  user_data : gmap string pyval;
  scanned : bool;
  response_status : option Z;
  content_hash : option string;
  priority : option Z;
  lifecycle_stage : NodeLifecycle;
  _hash_determinism_validated : bool
}.

Definition set_should_scan (v : bool) (s : t) : t :=
  mk (url s) (node_id s) (depth s) v (can_create_edges s) (created_at s)
     (metadata s) (user_data s) (scanned s) (response_status s)
     (content_hash s) (priority s) (lifecycle_stage s)
     (_hash_determinism_validated s).

Definition set_can_create_edges (v : bool) (s : t) : t :=
  mk (url s) (node_id s) (depth s) (should_scan s) v (created_at s)
     (metadata s) (user_data s) (scanned s) (response_status s)
     (content_hash s) (priority s) (lifecycle_stage s)
     (_hash_determinism_validated s).

Definition set_metadata (v : gmap string pyval) (s : t) : t :=
  mk (url s) (node_id s) (depth s) (should_scan s) (can_create_edges s)
     (created_at s) v (user_data s) (scanned s) (response_status s)
     (content_hash s) (priority s) (lifecycle_stage s)
     (_hash_determinism_validated s).

Definition set_user_data (v : gmap string pyval) (s : t) : t :=
  mk (url s) (node_id s) (depth s) (should_scan s) (can_create_edges s)
     (created_at s) (metadata s) v (scanned s) (response_status s)
     (content_hash s) (priority s) (lifecycle_stage s)
     (_hash_determinism_validated s).

Definition set_scanned (v : bool) (s : t) : t :=
  mk (url s) (node_id s) (depth s) (should_scan s) (can_create_edges s)
     (created_at s) (metadata s) (user_data s) v (response_status s)
     (content_hash s) (priority s) (lifecycle_stage s)
     (_hash_determinism_validated s).

Definition set_response_status (v : option Z) (s : t) : t :=
  mk (url s) (node_id s) (depth s) (should_scan s) (can_create_edges s)
     (created_at s) (metadata s) (user_data s) (scanned s) v
     (content_hash s) (priority s) (lifecycle_stage s)
     (_hash_determinism_validated s).

Definition set_content_hash (v : option string) (s : t) : t :=
  mk (url s) (node_id s) (depth s) (should_scan s) (can_create_edges s)
     (created_at s) (metadata s) (user_data s) (scanned s)
     (response_status s) v (priority s) (lifecycle_stage s)
     (_hash_determinism_validated s).

Definition set_lifecycle_stage (v : NodeLifecycle) (s : t) : t :=
  mk (url s) (node_id s) (depth s) (should_scan s) (can_create_edges s)
     (created_at s) (metadata s) (user_data s) (scanned s)
     (response_status s) (content_hash s) (priority s) v
     (_hash_determinism_validated s).

Definition set_hash_determinism_validated (v : bool) (s : t) : t :=
  mk (url s) (node_id s) (depth s) (should_scan s) (can_create_edges s)
     (created_at s) (metadata s) (user_data s) (scanned s)
     (response_status s) (content_hash s) (priority s) (lifecycle_stage s)
     v.
End NodeState.

(** [ITreeAdapter]: [parse(html)] returns a tree (an opaque value) or raises. *)
Record ITreeAdapter := { parse : string -> outcome pyval }.

(** [IContentHashStrategy]: a user object.  It may keep state between calls,
    so the value of [compute_hash(node)] depends on how many times it was
    called before ([hs_calls]); a deterministic strategy ignores that. *)
Record IContentHashStrategy := {
  hs_calls : nat;
  compute_hash : nat -> NodeState.t -> outcome pyval
}.

(** One call of [strategy.compute_hash(node)]: the result and the strategy
    afterwards. *)
Definition call_compute_hash (hs : IContentHashStrategy) (node : NodeState.t)
  : outcome pyval * IContentHashStrategy :=
  (compute_hash hs (hs_calls hs) node,
   {| hs_calls := S (hs_calls hs); compute_hash := compute_hash hs |}).

(** Node plugin stages ([NodePluginType]). *)
Inductive NodePluginType :=
| ON_NODE_CREATED
| ON_BEFORE_SCAN
| ON_HTML_PARSED
| ON_AFTER_SCAN.

Definition NodePluginType_eqb (a b : NodePluginType) : bool :=
  match a, b with
  | ON_NODE_CREATED, ON_NODE_CREATED
  | ON_BEFORE_SCAN, ON_BEFORE_SCAN
  | ON_HTML_PARSED, ON_HTML_PARSED
  | ON_AFTER_SCAN, ON_AFTER_SCAN => true
  | _, _ => false
  end.

(** [NodePluginContext]: the context handed to node plugins.  [node] is the
    node under processing itself (the same object, not a copy): what a
    plugin writes through [context.node] is written to the node. *)
Module NodePluginContext.
Record t := mk {
  node : NodeState.t;
  url : string;
  depth : Z;
  should_scan : bool;
  can_create_edges : bool;
  html : option string;
  html_tree : option pyval;
  parser : option ITreeAdapter;
  metadata : gmap string pyval;
  user_data : gmap string pyval;
  extracted_links : list string
}.

Definition set_node (v : NodeState.t) (c : t) : t :=
  mk v (url c) (depth c) (should_scan c) (can_create_edges c) (html c)
     (html_tree c) (parser c) (metadata c) (user_data c) (extracted_links c).

Definition set_metadata (v : gmap string pyval) (c : t) : t :=
  mk (node c) (url c) (depth c) (should_scan c) (can_create_edges c)
     (html c) (html_tree c) (parser c) v (user_data c) (extracted_links c).

Definition set_user_data (v : gmap string pyval) (c : t) : t :=
  mk (node c) (url c) (depth c) (should_scan c) (can_create_edges c)
     (html c) (html_tree c) (parser c) (metadata c) v (extracted_links c).

Definition set_extracted_links (v : list string) (c : t) : t :=
  mk (node c) (url c) (depth c) (should_scan c) (can_create_edges c)
     (html c) (html_tree c) (parser c) (metadata c) (user_data c) v.

Definition clear_html (c : t) : t :=
  mk (node c) (url c) (depth c) (should_scan c) (can_create_edges c)
     None None (parser c) (metadata c) (user_data c) (extracted_links c).
End NodePluginContext.

(** A node plugin: its name, the stage it is registered for, and its
    [execute(context)], which returns a context or raises. *)
Record BaseNodePlugin := {
  name : string;
  plugin_type : NodePluginType;
  execute : NodePluginContext.t -> outcome NodePluginContext.t
}.

(** What one can observe of a plugin pipeline run, in order. *)
Inductive event :=
| EvPlugin (stage : NodePluginType) (plugin : string)
| EvUpdateFromContext.

(** Modelled from the spec: the node plugin manager
    ([graph_crawler.extensions.plugins.node.base.NodePluginManager]) is not
    part of the sources at hand.  The spec: it "maintains an ordered list of
    plugins per stage key", "a plugin returns a (possibly mutated) context;
    the manager threads the context through all plugins of the stage", and a
    plugin that raises "is skipped, the context is passed unchanged to the
    next plugin at the same stage". *)
Record NodePluginManager := {
  plugins : NodePluginType -> list BaseNodePlugin
}.

Definition empty_manager : NodePluginManager :=
  {| plugins := fun _ => [] |}.

(** [manager.register(plugin)]: appended to the list of the plugin's stage. *)
Definition register (p : BaseNodePlugin) (m : NodePluginManager)
  : NodePluginManager :=
  {| plugins := fun st =>
       if NodePluginType_eqb st (plugin_type p)
       then plugins m st ++ [p]
       else plugins m st |}.

Fixpoint run_stage (stage : NodePluginType) (ps : list BaseNodePlugin)
  (context : NodePluginContext.t) : NodePluginContext.t * list event :=
  match ps with
  | [] => (context, [])
  | p :: rest =>
      let context' :=
        match execute p context with
        | Return c => c
        | Raise _ => context
        end in
      let '(final, log) := run_stage stage rest context' in
      (final, EvPlugin stage (name p) :: log)
  end.

(** [manager.execute(stage, context)] *)
Definition manager_execute (m : NodePluginManager) (stage : NodePluginType)
  (context : NodePluginContext.t) : NodePluginContext.t * list event :=
  run_stage stage (plugins m stage) context.


(** A plugin that writes one key of [context.user_data]. *)
Definition user_data_writer (nm : string) (stage : NodePluginType)
  (key : string) (v : pyval) : BaseNodePlugin :=
  {| name := nm;
     plugin_type := stage;
     execute := fun context =>
       Return (NodePluginContext.set_user_data
                 (<[key := v]> (NodePluginContext.user_data context))
                 context) |}.

(** A [Node]: its data and the three references that are not serialized. *)
Module Node.
Record t := mk {
  state : NodeState.t;
  plugin_manager : option NodePluginManager;
  tree_parser : option ITreeAdapter;
  hash_strategy : option IContentHashStrategy
}.

Definition set_state (v : NodeState.t) (n : t) : t :=
  mk v (plugin_manager n) (tree_parser n) (hash_strategy n).

Definition set_hash_strategy (v : option IContentHashStrategy) (n : t) : t :=
  mk (state n) (plugin_manager n) (tree_parser n) v.

Definition url (n : t) := NodeState.url (state n).
Definition node_id (n : t) := NodeState.node_id (state n).
Definition depth (n : t) := NodeState.depth (state n).
Definition should_scan (n : t) := NodeState.should_scan (state n).
Definition can_create_edges (n : t) := NodeState.can_create_edges (state n).
Definition created_at (n : t) := NodeState.created_at (state n).
Definition metadata (n : t) := NodeState.metadata (state n).
Definition user_data (n : t) := NodeState.user_data (state n).
Definition scanned (n : t) := NodeState.scanned (state n).
Definition response_status (n : t) := NodeState.response_status (state n).
Definition content_hash (n : t) := NodeState.content_hash (state n).
Definition priority (n : t) := NodeState.priority (state n).
Definition lifecycle_stage (n : t) := NodeState.lifecycle_stage (state n).
End Node.

Fixpoint string_forallb (f : ascii -> bool) (s : string) : bool :=
  match s with
  | EmptyString => true
  | String c rest => f c && string_forallb f rest
  end.

Definition is_lower_hex_digit (c : ascii) : bool :=
  let n := nat_of_ascii c in
  ((48 <=? n)%nat && (n <=? 57)%nat) || ((97 <=? n)%nat && (n <=? 102)%nat).

(** Modelled from the spec: the constants [SHA256_HASH_PATTERN] and
    [SHA256_HASH_LENGTH] of [graph_crawler.shared.constants] are not part of
    the sources at hand.  The spec: "Only a 64-char lowercase hex string is
    accepted"; the error message of [get_content_hash] says the same.
    [re_match_sha256 s] stands for
    [re.match(SHA256_HASH_PATTERN, s) is not None]. *)
Definition SHA256_HASH_LENGTH : nat := 64.

Definition re_match_sha256 (s : string) : bool :=
  (String.length s =? SHA256_HASH_LENGTH)%nat
  && string_forallb is_lower_hex_digit s.

(** A 64-character lowercase hexadecimal string, in the words of the spec. *)
Definition lowercase_hex_digits : string := "0123456789abcdef".

Definition is_sha256_digest (s : string) : Prop :=
  String.length s = 64%nat /\
  forall c, In c (list_ascii_of_string s) ->
            In c (list_ascii_of_string lowercase_hex_digits).

(** A strategy whose result does not depend on the call. *)
Definition deterministic (hs : IContentHashStrategy) : Prop :=
  forall i j node, compute_hash hs i node = compute_hash hs j node.

Section NodeMethods.

(** [hashlib.sha256(text.encode(DEFAULT_HASH_ENCODING)).hexdigest()] *)
Variable sha256_hexdigest : string -> string.

(** [get_default_parser()]: the process-wide default tree adapter. *)
Variable get_default_parser : ITreeAdapter.

(** [Node.mark_as_scanned] *)
Definition mark_as_scanned (self : Node.t) : Node.t :=
  Node.set_state (NodeState.set_scanned true (Node.state self)) self.

(** [Node._parse_html_sync]; [_parse_html_async] runs it in the thread
    pool and awaits its result. *)
Definition _parse_html_sync (self : Node.t) (html : string)
  : outcome (ITreeAdapter * pyval) :=
  let parser :=
    match Node.tree_parser self with
    | None => get_default_parser
    | Some p => p
    end in
  match parse parser html with
  | Return html_tree => Return (parser, html_tree)
  | Raise e => Raise e
  end.

(** [Node._update_from_context], on the node that [context.node] is.  The
    node's [metadata] is from here on the dictionary that [context.metadata]
    is: a plugin that changes it in place afterwards changes both. *)
Definition _update_from_context (context : NodePluginContext.t)
  : NodePluginContext.t :=
  let self := NodePluginContext.node context in
  let self := NodeState.set_metadata (NodePluginContext.metadata context) self in
  let self :=
    NodeState.set_user_data
      (dict_update (NodeState.user_data self)
                   (NodePluginContext.user_data context)) self in
  NodePluginContext.set_node self context.

(** [Node._execute_plugins]: the context after the plugins (its [node] is
    the node after them) and the events in the order they happened. *)
Definition _execute_plugins (self : Node.t) (html : string)
  (html_tree : pyval) (parser : ITreeAdapter)
  : NodePluginContext.t * list event :=
  let s := Node.state self in
  let context :=
    NodePluginContext.mk s (NodeState.url s) (NodeState.depth s)
      (NodeState.should_scan s) (NodeState.can_create_edges s)
      (Some html) (Some html_tree) (Some parser)
      (NodeState.metadata s) (NodeState.user_data s) [] in
  match Node.plugin_manager self with
  | Some pm =>
      let '(context, log1) := manager_execute pm ON_BEFORE_SCAN context in
      let '(context, log2) := manager_execute pm ON_HTML_PARSED context in
      let context := _update_from_context context in
      let '(context, log3) := manager_execute pm ON_AFTER_SCAN context in
      (context, log1 ++ log2 ++ [EvUpdateFromContext] ++ log3)
  | None => (context, [])
  end.

(** [Node._validate_hash_strategy_deterministic]: calls the strategy a
    second time and compares.  Building the error message slices
    [second_hash], which raises [TypeError] when it is not a string. *)
Definition _validate_hash_strategy_deterministic (self : Node.t)
  (first_hash : string) : outcome unit * Node.t :=
  match Node.hash_strategy self with
  | None => (Return tt, self)
  | Some hs =>
      let '(r, hs') := call_compute_hash hs (Node.state self) in
      let self := Node.set_hash_strategy (Some hs') self in
      match r with
      | Raise e => (Raise e, self)
      | Return (PStr second_hash) =>
          if String.eqb first_hash second_hash
          then (Return tt, self)
          else (Raise (Exn "ValueError" "Hash strategy is NOT DETERMINISTIC!"),
                self)
      | Return _ =>
          (Raise (Exn "TypeError" "object is not subscriptable"), self)
      end
  end.

(** [Node.get_content_hash] *)
Definition get_content_hash (self : Node.t) : outcome string * Node.t :=
  if negb (NodeLifecycle_eqb (Node.lifecycle_stage self) HTML_STAGE) then
    (Raise (Exn "NodeLifecycleError" "Cannot compute content_hash"), self)
  else
    match Node.hash_strategy self with
    | Some hs =>
        let '(r, hs') := call_compute_hash hs (Node.state self) in
        let self := Node.set_hash_strategy (Some hs') self in
        match r with
        | Raise e => (Raise e, self)
        | Return (PStr hash_value) =>
            if negb (re_match_sha256 hash_value) then
              (Raise (Exn "ValueError"
                        "Hash strategy must return valid SHA256 hex digest"),
               self)
            else if NodeState._hash_determinism_validated (Node.state self)
            then (Return hash_value, self)
            else
              match _validate_hash_strategy_deterministic self hash_value with
              | (Raise e, self) => (Raise e, self)
              | (Return _, self) =>
                  (Return hash_value,
                   Node.set_state
                     (NodeState.set_hash_determinism_validated true
                        (Node.state self)) self)
              end
        | Return _ =>
            (Raise (Exn "ValueError" "Hash strategy must return string"),
             self)
        end
    | None =>
        match default (PStr "") (Node.user_data self !! "text_content") with
        | PStr text => (Return (sha256_hexdigest text), self)
        | _ => (Raise (Exn "AttributeError" "object has no attribute encode"),
                self)
        end
    end.

(** [Node._compute_content_hash] *)
Definition _compute_content_hash (self : Node.t) : Node.t :=
  match get_content_hash self with
  | (Return h, self) =>
      Node.set_state (NodeState.set_content_hash (Some h) (Node.state self))
                     self
  | (Raise _, self) =>
      Node.set_state (NodeState.set_content_hash None (Node.state self)) self
  end.

(** [Node.process_html]: the returned links (or the exception), the node
    afterwards and the plugin events of the call. *)
Definition process_html (self : Node.t) (html : string)
  : outcome (list string) * Node.t * list event :=
  if NodeLifecycle_eqb (Node.lifecycle_stage self) HTML_STAGE then
    (Return [], self, [])
  else
    let self :=
      Node.set_state
        (NodeState.set_lifecycle_stage HTML_STAGE (Node.state self)) self in
    match _parse_html_sync self html with
    | Raise e => (Raise e, self, [])
    | Return (parser, html_tree) =>
        let '(context, log) := _execute_plugins self html html_tree parser in
        let s := NodePluginContext.node context in
        let s :=
          NodeState.set_user_data
            (dict_update (NodeState.user_data s)
                         (NodePluginContext.user_data context)) s in
        let self := Node.set_state s self in
        let self := _compute_content_hash self in
        let context := NodePluginContext.clear_html context in
        (Return (NodePluginContext.extracted_links context), self, log)
    end.

End NodeMethods.

(** ** NodeScanner (node_scanner.py) *)

(** A transport as the scanner sees it: [await driver.fetch(url)] returns a
    response, returns [None], or raises. *)
Record BaseDriver := {
  driver_fetch : string -> outcome (option FetchResponse.t)
}.

Section NodeScannerMethods.

Variable sha256_hexdigest : string -> string.
Variable get_default_parser : ITreeAdapter.

(** [self.driver] *)
Variable driver : BaseDriver.

(** The handler [except Exception as e] of [scan_node], [node] being the
    node as the [try] block left it: an instance of [Exception] is caught,
    the node is marked as scanned and [([], None)] is returned; any other
    exception leaves [scan_node] and the node stays as it is. *)
Definition scan_node_except (e : exn) (node : Node.t)
  : outcome (list string * option FetchResponse.t) * Node.t :=
  if isinstance_Exception e then (Return ([], None), mark_as_scanned node)
  else (Raise e, node).

(** [NodeScanner.scan_node]: the returned pair, or the exception that
    leaves the call, and the node afterwards. *)
Definition scan_node (node : Node.t)
  : outcome (list string * option FetchResponse.t) * Node.t :=
  match driver_fetch driver (Node.url node) with
  | Raise e => scan_node_except e node
  | Return None => (Return ([], None), mark_as_scanned node)
  | Return (Some result) =>
      if opt_str_truthy (FetchResponse.error result) then
        (Return ([], Some result), mark_as_scanned node)
      else
        let node :=
          Node.set_state
            (NodeState.set_response_status
               (FetchResponse.status_code result) (Node.state node)) node in
        match FetchResponse.html result with
        | None => (Return ([], Some result), mark_as_scanned node)
        | Some html =>
            if negb (str_truthy html) then
              (Return ([], Some result), mark_as_scanned node)
            else
              match process_html sha256_hexdigest get_default_parser
                      node html with
              | (Raise e, node, _) => scan_node_except e node
              | (Return links, node, _) =>
                  (Return (links, Some result), mark_as_scanned node)
              end
        end
  end.

End NodeScannerMethods.

(** ** AsyncDriver (async_http/driver.py) *)

(** The request lifecycle stages ([AsyncHTTPStage]). *)
Inductive AsyncHTTPStage :=
| SESSION_REUSED
| SESSION_CREATING
| SESSION_CREATED
| PREPARING_REQUEST
| SENDING_REQUEST
| RESPONSE_RECEIVED
| PROCESSING_RESPONSE
| REQUEST_COMPLETED
| REQUEST_FAILED.

(** Modelled from the spec: the class [AsyncHTTPContext] of
    [async_http/context.py] is not part of the sources at hand.  The spec
    lists the "shared per-request context (url, headers, cookies, timeout,
    session handle, response handle, status, response headers, html, error,
    arbitrary data map)" and the flag [cancelled]; the session and response
    handles carry no data of their own here. *)
Module AsyncHTTPContext.
Record t := mk {
  url : string;
  method : string;
  headers : gmap string string;
  cookies : gmap string string;
  timeout : Q;
  params : gmap string string;
  status_code : option Z;
  response_headers : gmap string string;
  html : option string;
  error : option string;
  cancelled : bool;
  data : gmap string pyval
}.

Definition set_response (st : Z) (hs : gmap string string) (c : t) : t :=
  mk (url c) (method c) (headers c) (cookies c) (timeout c) (params c)
     (Some st) hs (html c) (error c) (cancelled c) (data c).

Definition set_html (v : option string) (c : t) : t :=
  mk (url c) (method c) (headers c) (cookies c) (timeout c) (params c)
     (status_code c) (response_headers c) v (error c) (cancelled c) (data c).

Definition set_error (v : option string) (c : t) : t :=
  mk (url c) (method c) (headers c) (cookies c) (timeout c) (params c)
     (status_code c) (response_headers c) (html c) v (cancelled c) (data c).

Definition set_cancelled (v : bool) (c : t) : t :=
  mk (url c) (method c) (headers c) (cookies c) (timeout c) (params c)
     (status_code c) (response_headers c) (html c) (error c) v (data c).

Definition set_data (v : gmap string pyval) (c : t) : t :=
  mk (url c) (method c) (headers c) (cookies c) (timeout c) (params c)
     (status_code c) (response_headers c) (html c) (error c) (cancelled c) v.
End AsyncHTTPContext.

(** What the driver reads of an [aiohttp.ClientResponse]. *)
Record ClientResponse := {
  resp_status : Z;
  resp_headers : gmap string string;
  resp_url : string;
  resp_history : list string;
  resp_text : outcome string
}.

(** The surroundings of one driver: its configuration, its plugin manager
    and the network.  A plugin or a server may answer differently each time,
    so every operation is indexed by the number of the attempt (the nesting
    depth of the [fetch] call) in which it happens. *)
Record Transport := {
  config_timeout : Q;
  _get_session : nat -> outcome unit;
  execute_hook_async :
    nat -> AsyncHTTPStage -> AsyncHTTPContext.t -> outcome AsyncHTTPContext.t;
  session_get :
    nat -> string -> gmap string string -> gmap string string ->
    outcome ClientResponse
}.

(** The ways out of the [try] block of [fetch]: a [return], an exception
    that the handler [except Exception] catches, with the context at that
    point, and an exception that it does not catch. *)
Inductive try_result :=
| TryReturn (r : FetchResponse.t)
| TryExcept (e : exn) (ctx : AsyncHTTPContext.t)
| TryRaise (e : exn).

(** An exception raised inside the [try] block. *)
Definition raised_in_try (e : exn) (ctx : AsyncHTTPContext.t) : try_result :=
  if isinstance_Exception e then TryExcept e ctx else TryRaise e.

(** The number of seconds [asyncio.sleep] is given, when it is a number. *)
Definition as_seconds (v : pyval) : option Q :=
  match v with
  | PInt n => Some (inject_Z n)
  | PFloat x => Some x
  | PBool b => Some (if b then 1%Q else 0%Q)
  | _ => None
  end.

Section AsyncDriverMethods.

(** [str(v)], as f-strings apply it. *)
Variable py_str : pyval -> string.

Variable transport : Transport.

(** Modelled from the spec: [BaseDriver._handle_fetch_error] is not part
    of the sources at hand.  The spec: "failures are signaled by non-nil
    error, never by exception"; the response built here is the one
    [fetch_many] builds for an exception. *)
Definition _handle_fetch_error (url : string) (e : exn) : FetchResponse.t :=
  FetchResponse.mk url None None ∅ (Some (exn_str e)) None [].

(** [AsyncDriver._create_cancelled_response] *)
Definition _create_cancelled_response (ctx : AsyncHTTPContext.t)
  : FetchResponse.t :=
  let reason :=
    default (PStr "Unknown")
            (AsyncHTTPContext.data ctx !! "cancellation_reason") in
  FetchResponse.mk (AsyncHTTPContext.url ctx) None None ∅
    (Some ("Cancelled: " +:+ py_str reason)) None [].

(** [ctx = await self.plugin_manager.execute_hook_async(stage, ctx)] inside
    the [try] block, followed by the rest of the block. *)
Definition hook (attempt : nat) (stage : AsyncHTTPStage)
  (ctx : AsyncHTTPContext.t) (k : AsyncHTTPContext.t -> try_result)
  : try_result :=
  match execute_hook_async transport attempt stage ctx with
  | Raise e => raised_in_try e ctx
  | Return ctx' => k ctx'
  end.

(** The [try] block of [AsyncDriver.fetch].  The session obtained just
    before is open, so stage 1 is [SESSION_REUSED]. *)
Definition fetch_try (attempt : nat) (url : string)
  (ctx : AsyncHTTPContext.t) : try_result :=
  hook attempt SESSION_REUSED ctx (fun ctx =>
  if AsyncHTTPContext.cancelled ctx
  then TryReturn (_create_cancelled_response ctx) else
  hook attempt PREPARING_REQUEST ctx (fun ctx =>
  if AsyncHTTPContext.cancelled ctx
  then TryReturn (_create_cancelled_response ctx) else
  hook attempt SENDING_REQUEST ctx (fun ctx =>
  if AsyncHTTPContext.cancelled ctx
  then TryReturn (_create_cancelled_response ctx) else
  let request_headers := AsyncHTTPContext.headers ctx in
  match session_get transport attempt url request_headers
          (AsyncHTTPContext.params ctx) with
  | Raise e => raised_in_try e ctx
  | Return response =>
      let ctx :=
        AsyncHTTPContext.set_response (resp_status response)
          (resp_headers response) ctx in
      let final_url :=
        if String.eqb (resp_url response) url then None
        else Some (resp_url response) in
      let redirect_chain := resp_history response in
      hook attempt RESPONSE_RECEIVED ctx (fun ctx =>
      let read :=
        match resp_text response with
        | Return text => Return (AsyncHTTPContext.set_html (Some text) ctx)
        | Raise e =>
            if String.eqb (exn_class e) "UnicodeDecodeError"
            then Return (AsyncHTTPContext.set_html None ctx)
            else Raise e
        end in
      match read with
      | Raise e => raised_in_try e ctx
      | Return ctx =>
          hook attempt PROCESSING_RESPONSE ctx (fun ctx =>
          hook attempt REQUEST_COMPLETED ctx (fun ctx =>
          TryReturn
            (FetchResponse.mk url (AsyncHTTPContext.html ctx)
               (AsyncHTTPContext.status_code ctx)
               (AsyncHTTPContext.response_headers ctx)
               (AsyncHTTPContext.error ctx) final_url redirect_chain)))
      end)
  end))).

(** [AsyncDriver.fetch].  The retry is a recursive call; [fuel] is the
    depth of nested calls that is followed (in a run of the interpreter,
    what its recursion limit leaves).  The first component is the result of
    the call when it has finished within [fuel] attempts, the second the
    delays of the [asyncio.sleep] calls made so far, in order.  Publishing
    the fetch events and subscribing the plugins to the context do not
    change what is returned and are left out. *)
Fixpoint fetch (fuel : nat) (attempt : nat) (url : string)
  : option (outcome FetchResponse.t) * list Q :=
  match fuel with
  | O => (None, [])
  | S fuel' =>
      match _get_session transport attempt with
      | Raise e => (Some (Raise e), [])
      | Return _ =>
          let ctx :=
            AsyncHTTPContext.mk url "GET" ∅ ∅ (config_timeout transport) ∅
              None ∅ None None false ∅ in
          match fetch_try attempt url ctx with
          | TryReturn r => (Some (Return r), [])
          | TryRaise e => (Some (Raise e), [])
          | TryExcept e ctx =>
              let ctx := AsyncHTTPContext.set_error (Some (exn_str e)) ctx in
              match execute_hook_async transport attempt REQUEST_FAILED ctx with
              | Raise e' => (Some (Raise e'), [])
              | Return ctx =>
                  if py_truthy
                       (default (PBool false)
                          (AsyncHTTPContext.data ctx !! "should_retry"))
                  then
                    match as_seconds
                            (default (PFloat 1)
                               (AsyncHTTPContext.data ctx !! "retry_delay"))
                    with
                    | None =>
                        (Some (Raise (Exn "TypeError" "unsupported operand")),
                         [])
                    | Some retry_delay =>
                        let '(r, sleeps) := fetch fuel' (S attempt) url in
                        (r, retry_delay :: sleeps)
                    end
                  else (Some (Return (_handle_fetch_error url e)), [])
              end
          end
      end
  end.

End AsyncDriverMethods.

(** [asyncio.gather] with [return_exceptions=True]: one result per
    awaitable, in the order of the awaitables, an exception standing in for
    the result of the awaitable that raised it, an [asyncio.CancelledError]
    included.  A [KeyboardInterrupt] or a [SystemExit] is not kept as a
    result: the task re-raises it into the event loop, which ends the run,
    so that [gather] does not return; the first of them in the order of the
    tasks is taken to be the one that ends it. *)
Definition stops_event_loop (e : exn) : bool :=
  existsb (String.eqb (exn_class e)) ["KeyboardInterrupt"; "SystemExit"].

Fixpoint gather {A} (tasks : list (outcome A)) : outcome (list (outcome A)) :=
  match tasks with
  | [] => Return []
  | task :: rest =>
      match task with
      | Raise e =>
          if stops_event_loop e then Raise e
          else match gather rest with
               | Return results => Return (task :: results)
               | Raise e' => Raise e'
               end
      | Return _ =>
          match gather rest with
          | Return results => Return (task :: results)
          | Raise e' => Raise e'
          end
      end
  end.

(** [IndexError], as [urls[i]] raises it. *)
Definition IndexError : exn := Exn "IndexError" "list index out of range".

(** [RecursionError], as the interpreter raises it when the nesting of
    calls exceeds its limit. *)
Definition RecursionError : exn :=
  Exn "RecursionError" "maximum recursion depth exceeded".

(** The loop [for i, result in enumerate(results)] of [fetch_many], from
    index [i] on, [processed_results] being what was appended so far.  An
    element of the lists is a response or an exception object, [Raise e]
    standing for the object [e]. *)
Fixpoint process_results (urls : list string) (i : nat)
  (results : list (outcome FetchResponse.t))
  (processed_results : list (outcome FetchResponse.t))
  : outcome (list (outcome FetchResponse.t)) :=
  match results with
  | [] => Return processed_results
  | Raise e :: rest =>
      if isinstance_Exception e then
        match urls !! i with
        | None => Raise IndexError
        | Some u =>
            process_results urls (S i) rest
              (processed_results ++
               [Return
                  (FetchResponse.mk u None None ∅ (Some (exn_str e)) None [])])
        end
      else process_results urls (S i) rest (processed_results ++ [Raise e])
  | Return r :: rest =>
      process_results urls (S i) rest (processed_results ++ [Return r])
  end.

Section FetchMany.

Variable py_str : pyval -> string.

(** The surroundings that the task of the [i]-th URL meets. *)
Variable surroundings : nat -> Transport.

(** The depth of nested calls that the interpreter's recursion limit
    leaves to a task. *)
Variable fuel : nat.

(** [fetch_with_semaphore(url)] in the task of the [i]-th URL:
    [await self.fetch(url)] once the semaphore lets it in.  A [fetch] that
    has not returned within [fuel] nested calls raises [RecursionError]. *)
Definition fetch_with_semaphore (i : nat) (url : string)
  : outcome FetchResponse.t :=
  match (fetch py_str (surroundings i) fuel 0 url).1 with
  | Some result => result
  | None => Raise RecursionError
  end.

(** [AsyncDriver.fetch_many] *)
Definition fetch_many (urls : list string)
  : outcome (list (outcome FetchResponse.t)) :=
  match urls with
  | [] => Return []
  | _ =>
      let tasks := imap fetch_with_semaphore urls in
      match gather tasks with
      | Raise e => Raise e
      | Return results => process_results urls 0 results []
      end
  end.

End FetchMany.

(** ** AdaptiveThrottler (adaptive_throttler.py)

    Delays, thresholds, factors and response times are Python floats, that
    is IEEE 754 binary64 numbers.  They are Rocq's primitive floats, whose
    sum, difference, product and quotient round to nearest as CPython's do,
    and whose comparisons are false on NaN as CPython's are. *)

(** [float(n)] of an integer, for [-2^63 < n < 2^63]: the nearest binary64
    number, which is [n] itself when [-2^53 <= n <= 2^53]. *)
Definition float_of_int (n : Z) : float :=
  if n <? 0 then (- PrimFloat.of_uint63 (Uint63.of_Z (- n)))%float
  else PrimFloat.of_uint63 (Uint63.of_Z n).

(** [a / b] of two integers with [b <> 0]: the quotient rounded once.
    CPython rounds the exact quotient; for integers up to [2^53], which is
    more than a window or a request counter holds, that is the quotient of
    the two floats. *)
Definition py_truediv (a b : Z) : float :=
  (float_of_int a / float_of_int b)%float.

(** [max(a, b)] of two numbers: [b] when [b > a], else [a]. *)
Definition py_max (a b : float) : float := if (a <? b)%float then b else a.

(** [min(a, b)] of two numbers: [b] when [b < a], else [a]. *)
Definition py_min (a b : float) : float := if (b <? a)%float then b else a.

(** [sum(xs)] of floats: CPython 3.11 adds them from left to right, starting
    from zero. *)
Definition py_sum (xs : list float) : float :=
  fold_left PrimFloat.add xs 0%float.

(** [len(xs)] as an integer. *)
Definition py_len {A} (xs : list A) : Z := Z.of_nat (length xs).

(** [d.append(x)] on a [deque(maxlen=n)]: the oldest entries fall out. *)
Definition deque_append {A} (maxlen : nat) (d : list A) (x : A) : list A :=
  let d' := d ++ [x] in
  drop (length d' - maxlen)%nat d'.

Inductive adjustment_reason := high_error_rate | fast_response.

(** An entry of [adjustment_history] (without its wall-clock timestamp). *)
Record adjustment := {
  adj_old_delay : float;
  adj_new_delay : float;
  adj_reason : adjustment_reason;
  adj_error_rate : float;
  adj_avg_response_time_ms : float
}.

Record ThrottleMetrics := {
  total_requests : Z;
  successful_requests : Z;
  failed_requests : Z;
  response_times : list float;
  metrics_current_delay : float;
  adjustments_count : Z
}.

Module AdaptiveThrottler.
Record t := mk {
  initial_delay : float;
  min_delay : float;
  max_delay : float;
  error_threshold : float;
  fast_response_threshold : float;
  slowdown_factor : float;
  speedup_factor : float;
  window_size : nat;
  adjustment_interval : Z;
  current_delay : float;
  recent_response_times : list float;
  recent_errors : list bool;
  metrics : ThrottleMetrics;
  requests_since_adjustment : Z;
  adjustment_history : list adjustment
}.

(** The fields a recording or an adjustment writes. *)
Definition update (cd : float) (rts : list float) (errs : list bool)
  (m : ThrottleMetrics) (rsa : Z) (h : list adjustment) (s : t) : t :=
  mk (initial_delay s) (min_delay s) (max_delay s) (error_threshold s)
     (fast_response_threshold s) (slowdown_factor s) (speedup_factor s)
     (window_size s) (adjustment_interval s) cd rts errs m rsa h.
End AdaptiveThrottler.

(** [AdaptiveThrottler.__init__] *)
Definition AdaptiveThrottler_init (initial_delay min_delay max_delay
  error_threshold fast_response_threshold slowdown_factor speedup_factor
  : float)
  (window_size : nat) (adjustment_interval : Z) : AdaptiveThrottler.t :=
  AdaptiveThrottler.mk initial_delay min_delay max_delay error_threshold
    fast_response_threshold slowdown_factor speedup_factor window_size
    adjustment_interval initial_delay [] []
    {| total_requests := 0; successful_requests := 0; failed_requests := 0;
       response_times := []; metrics_current_delay := initial_delay;
       adjustments_count := 0 |}
    0 [].

(** [AdaptiveThrottler()] with the default arguments. *)
Definition AdaptiveThrottler_default : AdaptiveThrottler.t :=
  AdaptiveThrottler_init 0.5%float 0.1%float 5%float 10%float 0.5%float
    1.5%float 0.8%float 100 10.

(** The error rate of the window, in percent. *)
Definition window_error_rate (self : AdaptiveThrottler.t) : float :=
  let recent_errors := AdaptiveThrottler.recent_errors self in
  let error_count :=
    Z.of_nat (length (filter (fun e => e = true) recent_errors)) in
  (py_truediv error_count (py_len recent_errors) * 100)%float.

(** The mean response time of the window, in milliseconds. *)
Definition window_avg_response_time (self : AdaptiveThrottler.t) : float :=
  match AdaptiveThrottler.recent_response_times self with
  | [] => 0%float
  | rts => (py_sum rts / float_of_int (py_len rts))%float
  end.

(** The bounding of the delay at the end of [_adjust_delay]:
    [max(self.min_delay, min(delay, self.max_delay))]. *)
Definition clamp_delay (self : AdaptiveThrottler.t) (delay : float)
  : float :=
  py_max (AdaptiveThrottler.min_delay self)
         (py_min delay (AdaptiveThrottler.max_delay self)).

(** [AdaptiveThrottler._adjust_delay] *)
Definition _adjust_delay (self : AdaptiveThrottler.t) : AdaptiveThrottler.t :=
  match AdaptiveThrottler.recent_errors self with
  | [] => self
  | _ =>
      let error_rate := window_error_rate self in
      let avg_response_time := window_avg_response_time self in
      let avg_response_time_sec := (avg_response_time / 1000)%float in
      let old_delay := AdaptiveThrottler.current_delay self in
      let '(current_delay, reason) :=
        if (AdaptiveThrottler.error_threshold self <? error_rate)%float then
          ((old_delay * AdaptiveThrottler.slowdown_factor self)%float,
           Some high_error_rate)
        else if
          match AdaptiveThrottler.recent_response_times self with
          | [] => false
          | _ =>
              (avg_response_time_sec
               <? AdaptiveThrottler.fast_response_threshold self)%float
          end
        then
          ((old_delay * AdaptiveThrottler.speedup_factor self)%float,
           Some fast_response)
        else (old_delay, None) in
      let current_delay := clamp_delay self current_delay in
      let m := AdaptiveThrottler.metrics self in
      match reason with
      | Some r =>
          if (0.001 <? PrimFloat.abs (current_delay - old_delay))%float then
            AdaptiveThrottler.update current_delay
              (AdaptiveThrottler.recent_response_times self)
              (AdaptiveThrottler.recent_errors self)
              {| total_requests := total_requests m;
                 successful_requests := successful_requests m;
                 failed_requests := failed_requests m;
                 response_times := response_times m;
                 metrics_current_delay := current_delay;
                 adjustments_count := adjustments_count m + 1 |}
              (AdaptiveThrottler.requests_since_adjustment self)
              (AdaptiveThrottler.adjustment_history self ++
               [{| adj_old_delay := old_delay;
                   adj_new_delay := current_delay;
                   adj_reason := r;
                   adj_error_rate := error_rate;
                   adj_avg_response_time_ms := avg_response_time |}])
              self
          else
            AdaptiveThrottler.update current_delay
              (AdaptiveThrottler.recent_response_times self)
              (AdaptiveThrottler.recent_errors self) m
              (AdaptiveThrottler.requests_since_adjustment self)
              (AdaptiveThrottler.adjustment_history self) self
      | None =>
          AdaptiveThrottler.update current_delay
            (AdaptiveThrottler.recent_response_times self)
            (AdaptiveThrottler.recent_errors self) m
            (AdaptiveThrottler.requests_since_adjustment self)
            (AdaptiveThrottler.adjustment_history self) self
      end
  end.

(** The end of [record_success] and [record_failure]: count the request and
    adjust on every [adjustment_interval]-th one. *)
Definition check_adjustment (self : AdaptiveThrottler.t) : AdaptiveThrottler.t :=
  let n := AdaptiveThrottler.requests_since_adjustment self + 1 in
  let self :=
    AdaptiveThrottler.update (AdaptiveThrottler.current_delay self)
      (AdaptiveThrottler.recent_response_times self)
      (AdaptiveThrottler.recent_errors self) (AdaptiveThrottler.metrics self)
      n (AdaptiveThrottler.adjustment_history self) self in
  if AdaptiveThrottler.adjustment_interval self <=? n then
    let self := _adjust_delay self in
    AdaptiveThrottler.update (AdaptiveThrottler.current_delay self)
      (AdaptiveThrottler.recent_response_times self)
      (AdaptiveThrottler.recent_errors self) (AdaptiveThrottler.metrics self)
      0 (AdaptiveThrottler.adjustment_history self) self
  else self.

(** [AdaptiveThrottler.record_success] *)
Definition record_success (self : AdaptiveThrottler.t) (response_time : float)
  : AdaptiveThrottler.t :=
  let m := AdaptiveThrottler.metrics self in
  let response_time_ms := (response_time * 1000)%float in
  let w := AdaptiveThrottler.window_size self in
  let self :=
    AdaptiveThrottler.update (AdaptiveThrottler.current_delay self)
      (deque_append w (AdaptiveThrottler.recent_response_times self)
                    response_time_ms)
      (deque_append w (AdaptiveThrottler.recent_errors self) false)
      {| total_requests := total_requests m + 1;
         successful_requests := successful_requests m + 1;
         failed_requests := failed_requests m;
         response_times := response_times m ++ [response_time_ms];
         metrics_current_delay := metrics_current_delay m;
         adjustments_count := adjustments_count m |}
      (AdaptiveThrottler.requests_since_adjustment self)
      (AdaptiveThrottler.adjustment_history self) self in
  check_adjustment self.

(** [AdaptiveThrottler.record_failure] *)
Definition record_failure (self : AdaptiveThrottler.t)
  (response_time : option float) : AdaptiveThrottler.t :=
  let m := AdaptiveThrottler.metrics self in
  let w := AdaptiveThrottler.window_size self in
  let '(rts, mrts) :=
    match response_time with
    | Some rt =>
        (deque_append w (AdaptiveThrottler.recent_response_times self)
                      (rt * 1000)%float,
         response_times m ++ [(rt * 1000)%float])
    | None => (AdaptiveThrottler.recent_response_times self, response_times m)
    end in
  let self :=
    AdaptiveThrottler.update (AdaptiveThrottler.current_delay self) rts
      (deque_append w (AdaptiveThrottler.recent_errors self) true)
      {| total_requests := total_requests m + 1;
         successful_requests := successful_requests m;
         failed_requests := failed_requests m + 1;
         response_times := mrts;
         metrics_current_delay := metrics_current_delay m;
         adjustments_count := adjustments_count m |}
      (AdaptiveThrottler.requests_since_adjustment self)
      (AdaptiveThrottler.adjustment_history self) self in
  check_adjustment self.

(** ** urllib.parse

    [URLUtils] and the URL validator of [Node] call [urlparse] and
    [urlunparse] of the Python standard library.  They are modelled after
    [Lib/urllib/parse.py] of CPython 3.11, on [str] values given as lists of
    characters.  Two functions of other library modules are taken as they
    are: the address parser [ipaddress.ip_address] and the Unicode
    normalisation [unicodedata.normalize]. *)

Inductive ip_version := IPv4Address | IPv6Address.

Record PyStdlib := {
  (** [ipaddress.ip_address(s)]: the kind of address, [None] for
      [ValueError] *)
  ip_address : list ascii -> option ip_version;
  (** [unicodedata.normalize('NFKC', s)] *)
  normalize_NFKC : list ascii -> list ascii
}.

(** [c in chars] *)
Definition in_chars (c : ascii) (chars : string) : bool :=
  existsb (Ascii.eqb c) (list_ascii_of_string chars).

(** [c in s] for a character [c] *)
Definition contains (c : ascii) (s : list ascii) : bool :=
  existsb (Ascii.eqb c) s.

Definition scheme_chars : string :=
  "abcdefghijklmnopqrstuvwxyzABCDEFGHIJKLMNOPQRSTUVWXYZ0123456789+-.".

Definition uses_netloc : list string :=
  [""; "ftp"; "http"; "gopher"; "nntp"; "telnet"; "imap"; "wais"; "file";
   "mms"; "https"; "shttp"; "snews"; "prospero"; "rtsp"; "rtspu"; "rsync";
   "svn"; "svn+ssh"; "sftp"; "nfs"; "git"; "git+ssh"; "ws"; "wss"].

Definition uses_params : list string :=
  [""; "ftp"; "hdl"; "prospero"; "http"; "imap"; "https"; "shttp"; "rtsp";
   "rtspu"; "sip"; "sips"; "mms"; "sftp"; "tel"].

(** [scheme in names] *)
Definition scheme_in (scheme : list ascii) (names : list string) : bool :=
  existsb (String.eqb (string_of_list_ascii scheme)) names.

(** [c in _WHATWG_C0_CONTROL_OR_SPACE]: the characters 0 to 0x20. *)
Definition is_c0_control_or_space (c : ascii) : bool :=
  (nat_of_ascii c <=? 32)%nat.

(** [c in _UNSAFE_URL_BYTES_TO_REMOVE]: tab, carriage return, line feed. *)
Definition is_unsafe_url_byte (c : ascii) : bool :=
  let n := nat_of_ascii c in
  (n =? 9)%nat || (n =? 13)%nat || (n =? 10)%nat.

(** [c.isascii()] *)
Definition isascii (c : ascii) : bool := (nat_of_ascii c <? 128)%nat.

(** [c.isascii() and c.isalpha()] *)
Definition isascii_alpha (c : ascii) : bool :=
  let n := nat_of_ascii c in
  ((65 <=? n)%nat && (n <=? 90)%nat) || ((97 <=? n)%nat && (n <=? 122)%nat).

(** [c.lower()] for an ASCII character. *)
Definition ascii_lower (c : ascii) : ascii :=
  let n := nat_of_ascii c in
  if (65 <=? n)%nat && (n <=? 90)%nat then ascii_of_nat (n + 32) else c.

(** [s.lower()] for a string of ASCII characters. *)
Definition lower (s : list ascii) : list ascii := map ascii_lower s.

(** [s.lstrip(chars)] *)
Fixpoint lstrip (chars : ascii -> bool) (s : list ascii) : list ascii :=
  match s with
  | [] => []
  | c :: rest => if chars c then lstrip chars rest else s
  end.

(** [s.find(c)]: the index of the first [c], [None] standing for -1. *)
Fixpoint find (c : ascii) (s : list ascii) : option nat :=
  match s with
  | [] => None
  | x :: rest => if Ascii.eqb x c then Some 0%nat else S <$> find c rest
  end.

(** [s.find(c, start)] *)
Definition find_from (c : ascii) (s : list ascii) (start : nat) : option nat :=
  (fun k => (start + k)%nat) <$> find c (drop start s).

(** [s.rfind(c)] *)
Fixpoint rfind (c : ascii) (s : list ascii) : option nat :=
  match s with
  | [] => None
  | x :: rest =>
      match rfind c rest with
      | Some k => Some (S k)
      | None => if Ascii.eqb x c then Some 0%nat else None
      end
  end.

(** [s.split(c, 1)] when [c in s]; [s.partition(c)] in general: the text
    before the first [c], whether [c] was found, the text after it. *)
Definition partition (c : ascii) (s : list ascii)
  : list ascii * bool * list ascii :=
  match find c s with
  | Some i => (take i s, true, drop (S i) s)
  | None => (s, false, [])
  end.

(** [s.rpartition(c)[2]]: the text after the last [c], all of [s] when
    there is none. *)
Definition rpartition_tail (c : ascii) (s : list ascii) : list ascii :=
  match rfind c s with
  | Some i => drop (S i) s
  | None => s
  end.

(** [_splitparams] *)
Definition _splitparams (url : list ascii) : list ascii * list ascii :=
  if contains "/" url then
    match find_from ";" url (default 0%nat (rfind "/" url)) with
    | None => (url, [])
    | Some i => (take i url, drop (S i) url)
    end
  else
    match find ";" url with
    | Some i => (take i url, drop (S i) url)
    | None => (removelast url, url)
    end.

(** One round of the loop of [_splitnetloc]:
    [if wdelim >= 0: delim = min(delim, wdelim)]. *)
Definition closer_delimiter (delim : nat) (wdelim : option nat) : nat :=
  match wdelim with
  | Some w => Nat.min delim w
  | None => delim
  end.

(** [_splitnetloc]: [delim] is the least index, from [start] on, of one of
    the characters [/], [?], [#], the length of [url] when there is none. *)
Definition _splitnetloc (url : list ascii) (start : nat)
  : list ascii * list ascii :=
  let delim :=
    fold_left
      (fun delim c => closer_delimiter delim (find_from c url start))
      (list_ascii_of_string "/?#") (length url) in
  (take (delim - start) (drop start url), drop delim url).

(** The characters that end a netloc. *)
Definition is_netloc_delimiter (c : ascii) : bool := in_chars c "/?#".

Definition is_hex_digit (c : ascii) : bool :=
  in_chars c "0123456789abcdefABCDEF".

Fixpoint span (p : ascii -> bool) (s : list ascii)
  : list ascii * list ascii :=
  match s with
  | [] => ([], [])
  | c :: rest =>
      if p c then let '(a, b) := span p rest in (c :: a, b) else ([], s)
  end.

(** Whether the regular expression [\Av[a-fA-F0-9]+\..+\Z] matches
    [hostname]: the letter v, hexadecimal digits, a dot, and characters
    other than a line feed, at least one of each kind. *)
Definition re_match_ipvfuture (hostname : list ascii) : bool :=
  match hostname with
  | "v"%char :: rest =>
      match span is_hex_digit rest with
      | (_ :: _, "."%char :: (_ :: _) as tail) =>
          forallb (fun c => negb (nat_of_ascii c =? 10)%nat) tail
      | _ => false
      end
  | _ => false
  end.

Definition ValueError (msg : string) : exn := Exn "ValueError" msg.

(** [_check_bracketed_host] *)
Definition _check_bracketed_host (lib : PyStdlib) (hostname : list ascii)
  : outcome unit :=
  match hostname with
  | "v"%char :: _ =>
      if negb (re_match_ipvfuture hostname)
      then Raise (ValueError "IPvFuture address is invalid")
      else Return tt
  | _ =>
      match ip_address lib hostname with
      | None => Raise (ValueError "does not appear to be an IPv4 or IPv6 address")
      | Some IPv4Address =>
          Raise (ValueError "An IPv4 address cannot be in brackets")
      | Some IPv6Address => Return tt
      end
  end.

(** [_check_bracketed_netloc] *)
Definition _check_bracketed_netloc (lib : PyStdlib) (netloc : list ascii)
  : outcome unit :=
  let hostname_and_port := rpartition_tail "@" netloc in
  let '(before_bracket, have_open_br, bracketed) :=
    partition "[" hostname_and_port in
  if have_open_br then
    match before_bracket with
    | _ :: _ => Raise (ValueError "Invalid IPv6 URL")
    | [] =>
        let '(hostname, _, port) := partition "]" bracketed in
        match port with
        | c :: _ =>
            if negb (Ascii.eqb c ":")
            then Raise (ValueError "Invalid IPv6 URL")
            else _check_bracketed_host lib hostname
        | [] => _check_bracketed_host lib hostname
        end
    end
  else
    let '(hostname, _, port) := partition ":" hostname_and_port in
    _check_bracketed_host lib hostname.

(** [_checknetloc] *)
Definition _checknetloc (lib : PyStdlib) (netloc : list ascii)
  : outcome unit :=
  match netloc with
  | [] => Return tt
  | _ =>
      if forallb isascii netloc then Return tt
      else
        let n := List.filter (fun c => negb (in_chars c "@:#?")) netloc in
        let netloc2 := normalize_NFKC lib n in
        if bool_decide (n = netloc2) then Return tt
        else if existsb (fun c => contains c netloc2)
                        (list_ascii_of_string "/?#@:")
        then Raise (ValueError
                      "netloc contains invalid characters under NFKC normalization")
        else Return tt
  end.

(** [s[:2] == '//'] *)
Definition double_slash (s : list ascii) : bool :=
  match s with
  | a :: b :: _ => Ascii.eqb a "/" && Ascii.eqb b "/"
  | _ => false
  end.

(** The first lines of [urlsplit]: leading control characters and spaces
    are stripped, then tabs and line breaks are removed everywhere. *)
Definition strip_url (url : list ascii) : list ascii :=
  let url := lstrip is_c0_control_or_space url in
  List.filter (fun c => negb (is_unsafe_url_byte c)) url.

(** The scheme of [urlsplit]: the text before the first colon, lowercased,
    when it starts with an ASCII letter and is made of [scheme_chars]. *)
Definition split_scheme (url : list ascii) : list ascii * list ascii :=
  match find ":" url with
  | Some i =>
      if (0 <? i)%nat
         && match url with c :: _ => isascii_alpha c | [] => false end
         && forallb (fun c => in_chars c scheme_chars) (take i url)
      then (lower (take i url), drop (S i) url)
      else ([], url)
  | None => ([], url)
  end.

(** The checks of [urlsplit] on the brackets of a netloc. *)
Definition check_brackets (lib : PyStdlib) (netloc : list ascii)
  : outcome unit :=
  if (contains "[" netloc && negb (contains "]" netloc))
     || (contains "]" netloc && negb (contains "[" netloc))
  then Raise (ValueError "Invalid IPv6 URL")
  else if contains "[" netloc && contains "]" netloc
  then _check_bracketed_netloc lib netloc
  else Return tt.

(** The netloc of [urlsplit]: present when [url[:2] == '//']. *)
Definition split_netloc (lib : PyStdlib) (url : list ascii)
  : outcome (list ascii * list ascii) :=
  if double_slash url then
    let '(netloc, url) := _splitnetloc url 2 in
    match check_brackets lib netloc with
    | Raise e => Raise e
    | Return _ => Return (netloc, url)
    end
  else Return ([], url).

(** [if c in url: url, rest = url.split(c, 1)], for the fragment and for
    the query of [urlsplit]. *)
Definition split_once (c : ascii) (url : list ascii)
  : list ascii * list ascii :=
  if contains c url
  then let '(a, _, b) := partition c url in (a, b)
  else (url, []).

(** [urlsplit(url)], with the default [scheme=''] and
    [allow_fragments=True]: scheme, netloc, path, query, fragment. *)
Definition urlsplit (lib : PyStdlib) (url : list ascii)
  : outcome (list ascii * list ascii * list ascii * list ascii * list ascii) :=
  let url := strip_url url in
  let '(scheme, url) := split_scheme url in
  match split_netloc lib url with
  | Raise e => Raise e
  | Return (netloc, url) =>
      let '(url, fragment) := split_once "#" url in
      let '(url, query) := split_once "?" url in
      match _checknetloc lib netloc with
      | Raise e => Raise e
      | Return _ => Return (scheme, netloc, url, query, fragment)
      end
  end.

(** The parameters of [urlparse]: split off the last path segment for the
    schemes that use them. *)
Definition split_params (scheme url : list ascii) : list ascii * list ascii :=
  if scheme_in scheme uses_params && contains ";" url
  then _splitparams url
  else (url, []).

(** [urlparse(url)]: scheme, netloc, path, params, query, fragment. *)
Definition urlparse (lib : PyStdlib) (url : list ascii)
  : outcome (list ascii * list ascii * list ascii * list ascii * list ascii
             * list ascii) :=
  match urlsplit lib url with
  | Raise e => Raise e
  | Return (scheme, netloc, url, query, fragment) =>
      let '(url, params) := split_params scheme url in
      Return (scheme, netloc, url, params, query, fragment)
  end.

(** [bool(s)] for a string *)
Definition nonempty (s : list ascii) : bool :=
  match s with
  | [] => false
  | _ :: _ => true
  end.


(** [urlunsplit((scheme, netloc, url, query, fragment))] *)
Definition urlunsplit (scheme netloc url query fragment : list ascii)
  : list ascii :=
  let url :=
    if nonempty netloc
       || (nonempty scheme && scheme_in scheme uses_netloc
           && negb (double_slash url))
    then
      let url :=
        match url with
        | c :: _ => if negb (Ascii.eqb c "/") then "/"%char :: url else url
        | [] => url
        end in
      "/"%char :: "/"%char :: netloc ++ url
    else url in
  let url := if nonempty scheme then scheme ++ ":"%char :: url else url in
  let url := if nonempty query then url ++ "?"%char :: query else url in
  let url := if nonempty fragment then url ++ "#"%char :: fragment else url in
  url.

(** [urlunparse((scheme, netloc, url, params, query, fragment))] *)
Definition urlunparse (scheme netloc url params query fragment : list ascii)
  : list ascii :=
  let url := if nonempty params then url ++ ";"%char :: params else url in
  urlunsplit scheme netloc url query fragment.

(** ** URLUtils (url_utils.py) *)

(** [_parse_url_cached]; the cache does not change what is returned. *)
Definition _parse_url_cached (lib : PyStdlib) (url : string) :=
  urlparse lib (list_ascii_of_string url).

(** [URLUtils.normalize_url] *)
Definition normalize_url (lib : PyStdlib) (url : string) : outcome string :=
  match _parse_url_cached lib url with
  | Raise e => Raise e
  | Return (scheme, netloc, path, params, query, _) =>
      Return (string_of_list_ascii
                (urlunparse scheme netloc path params query []))
  end.

(** [url.startswith(prefix)] *)
Definition startswith (url prefix : string) : bool :=
  String.prefix prefix url.

(** [URLUtils.get_domain] *)
Definition get_domain (lib : PyStdlib) (url : string)
  : outcome (option string) :=
  match _parse_url_cached lib url with
  | Raise e => Raise e
  | Return (_, netloc, _, _, _, _) =>
      Return (if nonempty netloc then Some (string_of_list_ascii netloc)
              else None)
  end.

(** [URLUtils.is_valid_url] *)
Definition is_valid_url (lib : PyStdlib) (url : string) : bool :=
  if negb (str_truthy url)
     || negb (startswith url "http://" || startswith url "https://")
  then false
  else
    match _parse_url_cached lib url with
    | Raise _ => false
    | Return (_, netloc, _, _, _, _) => nonempty netloc
    end.

(** ** Construction of a Node (node.py) *)

(** [Node.validate_url], the validator of the field [url]. *)
Definition validate_url (lib : PyStdlib) (v : string) : outcome string :=
  if negb (str_truthy v) then
    Raise (Exn "InvalidURLError" "URL cannot be empty")
  else if negb (startswith v "http://" || startswith v "https://") then
    Raise (Exn "InvalidURLError" "URL must start with http:// or https://")
  else
    match urlparse lib (list_ascii_of_string v) with
    | Raise e => Raise e
    | Return (_, netloc, _, _, _, _) =>
        if negb (nonempty netloc)
        then Raise (Exn "InvalidURLError" "URL must have a valid domain")
        else Return v
    end.

(** The constraints that pydantic checks on the fields of a [Node], at
    construction and at every assignment: the validator of [url],
    [depth >= 0], and [1 <= priority <= 10] when a priority is given. *)
Definition fields_valid (lib : PyStdlib) (s : NodeState.t) : bool :=
  match validate_url lib (NodeState.url s) with
  | Return _ => true
  | Raise _ => false
  end
  && (0 <=? NodeState.depth s)
  && match NodeState.priority s with
     | None => true
     | Some p => (1 <=? p) && (p <=? 10)
     end.

(** [Node._trigger_node_created_hook], called by [model_post_init]. *)
Definition _trigger_node_created_hook (self : Node.t) : Node.t :=
  match Node.plugin_manager self with
  | None => self
  | Some pm =>
      let s := Node.state self in
      let context :=
        NodePluginContext.mk s (NodeState.url s) (NodeState.depth s)
          (NodeState.should_scan s) (NodeState.can_create_edges s)
          None None None ∅ ∅ [] in
      let '(context, _) := manager_execute pm ON_NODE_CREATED context in
      let s := NodePluginContext.node context in
      let s :=
        NodeState.set_should_scan (NodePluginContext.should_scan context) s in
      let s :=
        NodeState.set_can_create_edges
          (NodePluginContext.can_create_edges context) s in
      let s :=
        NodeState.set_user_data
          (dict_update (NodeState.user_data s)
                       (NodePluginContext.user_data context)) s in
      Node.set_state s self
  end.

(** [Node(...)] with every field given: the fields are validated, the new
    object has no attribute [_hash_determinism_validated], and
    [model_post_init] runs the creation hook. *)
Definition Node_init (lib : PyStdlib) (fields : NodeState.t)
  (plugin_manager : option NodePluginManager)
  (tree_parser : option ITreeAdapter)
  (hash_strategy : option IContentHashStrategy) : outcome Node.t :=
  if fields_valid lib fields then
    Return (_trigger_node_created_hook
              (Node.mk (NodeState.set_hash_determinism_validated false fields)
                       plugin_manager tree_parser hash_strategy))
  else Raise (Exn "ValidationError" "validation error for Node").

(** ** NodeMapper (node_mapper.py) *)

(** Modelled from the spec: the class [NodeDTO] of
    [graph_crawler.application.dto] is not part of the sources at hand.
    The spec gives its fields, [lifecycle_stage] being one of the strings
    ["url_stage"] and ["html_stage"]; it "never carries live references".
    Its constructor is taken to store the values it is given. *)
Module NodeDTO.
Record t := mk {
  node_id : string;
  url : string;
  depth : Z;
  should_scan : bool;
  can_create_edges : bool;
  scanned : bool;
  response_status : option Z;
  metadata : gmap string pyval;
  user_data : gmap string pyval;
  content_hash : option string;
  priority : option Z;
  created_at : datetime;
  lifecycle_stage : string
}.
End NodeDTO.

(** The [context] argument of [to_domain]: a dictionary that may hold the
    three references under their names. *)
Record mapper_context := {
  context_plugin_manager : option NodePluginManager;
  context_tree_parser : option ITreeAdapter;
  context_hash_strategy : option IContentHashStrategy
}.

(** [NodeMapper.to_dto]; [d.copy()] of a dictionary is the same mapping. *)
Definition to_dto (node : Node.t) : NodeDTO.t :=
  let lifecycle_stage_str := NodeLifecycle_value (Node.lifecycle_stage node) in
  NodeDTO.mk (Node.node_id node) (Node.url node) (Node.depth node)
    (Node.should_scan node) (Node.can_create_edges node) (Node.scanned node)
    (Node.response_status node) (Node.metadata node) (Node.user_data node)
    (Node.content_hash node) (Node.priority node) (Node.created_at node)
    lifecycle_stage_str.

(** [NodeMapper.to_domain], with [node_class=Node]. *)
Definition to_domain (lib : PyStdlib) (node_dto : NodeDTO.t)
  (context : option mapper_context) : outcome Node.t :=
  let context :=
    default {| context_plugin_manager := None;
               context_tree_parser := None;
               context_hash_strategy := None |} context in
  match NodeLifecycle_of_value (NodeDTO.lifecycle_stage node_dto) with
  | Raise e => Raise e
  | Return lifecycle_stage =>
      Node_init lib
        (NodeState.mk (NodeDTO.url node_dto) (NodeDTO.node_id node_dto)
           (NodeDTO.depth node_dto) (NodeDTO.should_scan node_dto)
           (NodeDTO.can_create_edges node_dto) (NodeDTO.created_at node_dto)
           (NodeDTO.metadata node_dto) (NodeDTO.user_data node_dto)
           (NodeDTO.scanned node_dto) (NodeDTO.response_status node_dto)
           (NodeDTO.content_hash node_dto) (NodeDTO.priority node_dto)
           lifecycle_stage false)
        (context_plugin_manager context) (context_tree_parser context)
        (context_hash_strategy context)
  end.

(** ** Concrete values used as inputs below *)

(** A response whose [final_url] is [None]: the second example of the
    docstring of [is_redirect]. *)
Definition response_without_final_url : FetchResponse.t :=
  FetchResponse.mk "http://example.com" None None ∅ None None [].

(** A tree adapter that keeps the text it is given. *)
Definition text_parser : ITreeAdapter :=
  {| parse := fun html => Return (PStr html) |}.

(** A stand-in for the SHA-256 digest: it maps every text to the digest of
    the empty text. *)
Definition constant_digest : string -> string :=
  fun _ => "e3b0c44298fc1c149afbf4c8996fb92427ae41e4649b934ca495991b7852b855".

(** The data of a node just created for [https://example.com/]. *)
Definition fresh_state : NodeState.t :=
  NodeState.mk "https://example.com/" "node-1" 0 true true 0 ∅ ∅ false None
    None None URL_STAGE false.

Definition fresh_node : Node.t := Node.mk fresh_state None None None.

(** The same node after a scan that found the title [Example]. *)
Definition processed_state : NodeState.t :=
  NodeState.mk "https://example.com/" "node-1" 0 true true 0
    {[ "title" := PStr "Example" ]} ∅ true (Some 200)
    (Some "e3b0c44298fc1c149afbf4c8996fb92427ae41e4649b934ca495991b7852b855")
    None HTML_STAGE false.

Definition processed_node : Node.t := Node.mk processed_state None None None.

(** A hash strategy that always answers with the same valid digest. *)
Definition constant_strategy : IContentHashStrategy :=
  {| hs_calls := 0;
     compute_hash := fun _ _ =>
       Return (PStr "ba7816bf8f01cfea414140de5dae2223b00361a396177a9cb410ff61f20015ad") |}.

Definition node_with_strategy : Node.t :=
  Node.mk processed_state None None (Some constant_strategy).

(** Scenario 5 of the spec: two [ON_AFTER_SCAN] plugins write the key
    [tag], the first the value [a], the second the value [b]. *)
Definition tag_a : BaseNodePlugin :=
  user_data_writer "first" ON_AFTER_SCAN "tag" (PStr "a").

Definition tag_b : BaseNodePlugin :=
  user_data_writer "second" ON_AFTER_SCAN "tag" (PStr "b").

Definition two_writers : NodePluginManager :=
  register tag_b (register tag_a empty_manager).

Definition node_with_two_writers : Node.t :=
  Node.mk fresh_state (Some two_writers) None None.




(** A plugin that reports one link. *)
Definition link_finder : BaseNodePlugin :=
  {| name := "links";
     plugin_type := ON_HTML_PARSED;
     execute := fun context =>
       Return (NodePluginContext.set_extracted_links
                 ["https://example.com/next"] context) |}.

Definition node_with_link_finder : Node.t :=
  Node.mk fresh_state (Some (register link_finder empty_manager)) None None.

(** A response that carries a page, the status 200 and the empty string as
    its [error]. *)
Definition response_with_empty_error : FetchResponse.t :=
  FetchResponse.mk "https://example.com/"
    (Some "<a href='/next'>next</a>") (Some 200) ∅ (Some "") None [].

Definition driver_with_empty_error : BaseDriver :=
  {| driver_fetch := fun _ => Return (Some response_with_empty_error) |}.

(** A driver whose [fetch] is cancelled while it is awaited. *)
Definition cancelled_driver : BaseDriver :=
  {| driver_fetch := fun _ => Raise (Exn "CancelledError" "") |}.

(** A driver whose [fetch] raises an ordinary exception. *)
Definition failing_driver : BaseDriver :=
  {| driver_fetch := fun _ =>
       Raise (Exn "RuntimeError" "Event loop is closed") |}.


(** What [session.get] answers for a page that is there. *)
Definition page_at (url : string) : ClientResponse :=
  {| resp_status := 200;
     resp_headers := ∅;
     resp_url := url;
     resp_history := [];
     resp_text := Return "<html></html>" |}.

(** A driver without plugins and a server that resets the connection for
    one URL and answers for the others. *)
Definition flaky_transport : Transport :=
  {| config_timeout := 30;
     _get_session := fun _ => Return tt;
     execute_hook_async := fun _ _ ctx => Return ctx;
     session_get := fun _ url _ _ =>
       if String.eqb url "https://example.com/broken"
       then Raise (Exn "ClientError" "connection reset")
       else Return (page_at url) |}.



(** A task that is interrupted from the keyboard while it waits for the
    session. *)
Definition interrupted_transport : Transport :=
  {| config_timeout := 30;
     _get_session := fun _ => Raise (Exn "KeyboardInterrupt" "");
     execute_hook_async := fun _ _ ctx => Return ctx;
     session_get := fun _ url _ _ => Return (page_at url) |}.

(** [str(v)] for the values used in the examples. *)
Definition example_py_str (v : pyval) : string :=
  match v with
  | PStr s => s
  | PNone => "None"
  | PBool true => "True"
  | PBool false => "False"
  | _ => "0"
  end.

(** A server that cannot be reached, and a driver plugin that asks for a
    retry after every failed request. *)
Definition retry_always : Transport :=
  {| config_timeout := 30;
     _get_session := fun _ => Return tt;
     execute_hook_async := fun _ stage ctx =>
       match stage with
       | REQUEST_FAILED =>
           Return (AsyncHTTPContext.set_data
                     (<["should_retry" := PBool true]>
                        (AsyncHTTPContext.data ctx)) ctx)
       | _ => Return ctx
       end;
     session_get := fun _ _ _ _ =>
       Raise (Exn "ClientConnectorError" "Cannot connect to host") |}.

(** The default throttler after one failed request without a response
    time. *)
Definition throttler_after_failure : AdaptiveThrottler.t :=
  record_failure AdaptiveThrottler_default None.

(** A throttler whose bounds are the wrong way round, [min_delay=2.0] above
    [max_delay=1.0], that adjusts after every request. *)
Definition throttler_with_crossed_bounds : AdaptiveThrottler.t :=
  AdaptiveThrottler_init 0.5%float 2%float 1%float 10%float 0.5%float
    1.5%float 0.8%float 100 1.

(** That throttler after one failed request without a response time, which
    was followed by an adjustment step. *)
Definition crossed_bounds_after_failure : AdaptiveThrottler.t :=
  record_failure throttler_with_crossed_bounds None.

(** A throttler with [window_size=0], whose windows stay empty, that starts
    at 10 s, above its [max_delay] of 5 s, and adjusts after every
    request. *)
Definition throttler_without_window : AdaptiveThrottler.t :=
  AdaptiveThrottler_init 10%float 0.1%float 5%float 10%float 0.5%float
    1.5%float 0.8%float 0 1.

(** That throttler after one failed request without a response time, which
    was followed by an adjustment step. *)
Definition without_window_after_failure : AdaptiveThrottler.t :=
  record_failure throttler_without_window None.

(** A throttler with [error_threshold=55.0] whose window holds 11 failures
    among 20 requests, each answered in 0.1 s. *)
Definition throttler_at_threshold : AdaptiveThrottler.t :=
  AdaptiveThrottler.update 0.5%float
    (repeat 100%float 20) (repeat true 11 ++ repeat false 9)
    {| total_requests := 20; successful_requests := 9; failed_requests := 11;
       response_times := repeat 100%float 20;
       metrics_current_delay := 0.5%float; adjustments_count := 0 |}
    0 []
    (AdaptiveThrottler_init 0.5%float 0.1%float 5%float 55%float 0.5%float
       1.5%float 0.8%float 100 100).

(** ** Notions used to state the properties of the URL functions *)

(** No tab, carriage return or line feed. *)
Definition url_safe (s : list ascii) : bool :=
  forallb (fun c => negb (is_unsafe_url_byte c)) s.

(** No character that ends a netloc. *)
Definition delimiter_free (s : list ascii) : bool :=
  forallb (fun c => negb (is_netloc_delimiter c)) s.

(** What [urlsplit] returns as a scheme: nothing, or lowercase scheme
    characters after a first letter. *)
Definition scheme_ok (s : list ascii) : Prop :=
  s = [] \/
  exists c s', s = c :: s' /\ isascii_alpha c = true
               /\ forallb (fun c => in_chars c scheme_chars) s = true
               /\ lower s = s.

(** Empty, or beginning with a slash. *)
Definition rooted (s : list ascii) : Prop :=
  s = [] \/ exists s', s = "/"%char :: s'.

(** The path and the parameters as [urlunparse] joins them. *)
Definition join_params (url params : list ascii) : list ascii :=
  if nonempty params then url ++ ";"%char :: params else url.

(** The URL that [urlunsplit] builds from a scheme, a non-empty netloc, a
    rooted path and a query. *)
Definition url_with_netloc (scheme netloc url query : list ascii)
  : list ascii :=
  (if nonempty scheme then scheme ++ [":"%char] else [])
  ++ "/"%char :: "/"%char :: netloc ++ url
  ++ (if nonempty query then "?"%char :: query else []).

(** The URL that [urlunsplit] builds when it adds no [//]: from a scheme, a
    path and a query. *)
Definition url_without_netloc (scheme url query : list ascii) : list ascii :=
  (if nonempty scheme then scheme ++ [":"%char] else [])
  ++ url ++ (if nonempty query then "?"%char :: query else []).

(** Whether [urlunsplit] adds [//] to a URL without netloc. *)
Definition adds_double_slash (scheme url : list ascii) : bool :=
  nonempty scheme && scheme_in scheme uses_netloc && negb (double_slash url).

(** The path as [urlunsplit] writes it after a netloc. *)
Definition with_leading_slash (url : list ascii) : list ascii :=
  match url with
  | c :: _ => if negb (Ascii.eqb c "/") then "/"%char :: url else url
  | [] => url
  end.

(** A string in which [split_scheme] finds a scheme: scheme characters
    after a first letter, then a colon. *)
Definition has_scheme (y : list ascii) : Prop :=
  exists c a b,
    y = (c :: a) ++ ":"%char :: b
    /\ isascii_alpha c = true
    /\ forallb (fun c => in_chars c scheme_chars) (c :: a) = true.

(** Empty, or beginning with a character that [lstrip] keeps. *)
Definition starts_visible (s : list ascii) : Prop :=
  s = [] \/ exists c s', s = c :: s' /\ is_c0_control_or_space c = false.

(** Stand-ins for the two library functions, for evaluating examples: no
    bracketed host is taken for an IP address, and normalisation changes
    nothing. *)
Definition plain_lib : PyStdlib :=
  {| ip_address := fun _ => None; normalize_NFKC := fun s => s |}.


(** ** URLUtils, the remaining functions (url_utils.py) *)

(** [s[n:]] *)
Fixpoint string_drop (n : nat) (s : string) : string :=
  match n, s with
  | O, _ => s
  | S n', String _ rest => string_drop n' rest
  | S _, EmptyString => EmptyString
  end.

(** [URLUtils.get_root_domain] *)
Definition get_root_domain (lib : PyStdlib) (url : string)
  : outcome (option string) :=
  match get_domain lib url with
  | Raise e => Raise e
  | Return domain =>
      match domain with
      | Some d =>
          if str_truthy d && startswith d "www."
          then Return (Some (string_drop 4 d))
          else Return domain
      | None => Return domain
      end
  end.

(** [URLUtils._SPECIAL_PREFIXES] *)
Definition _SPECIAL_PREFIXES : list string :=
  ["mailto:"; "javascript:"; "tel:"; "#"; "data:"].

(** [URLUtils.is_special_link]: [href.startswith(_SPECIAL_PREFIXES)]. *)
Definition is_special_link (href : string) : bool :=
  existsb (startswith href) _SPECIAL_PREFIXES.

(** [isinstance(e, InvalidURLError)] *)
Definition is_InvalidURLError (e : exn) : bool :=
  String.eqb (exn_class e) "InvalidURLError".

(** [URLUtils.validate_url].  The check of the domain is inside a [try]
    block whose handler lets an [InvalidURLError] through and turns every
    other exception into one. *)
Definition URLUtils_validate_url (lib : PyStdlib) (url : string)
  : outcome string :=
  if negb (str_truthy url) then
    Raise (Exn "InvalidURLError" "URL cannot be empty")
  else if negb (startswith url "http://" || startswith url "https://") then
    Raise (Exn "InvalidURLError"
             ("URL must start with http:// or https://, got: " +:+ url))
  else
    let attempt :=
      match urlparse lib (list_ascii_of_string url) with
      | Raise e => Raise e
      | Return (_, netloc, _, _, _, _) =>
          if negb (nonempty netloc)
          then Raise (Exn "InvalidURLError"
                        ("URL must have a valid domain: " +:+ url))
          else Return url
      end in
    match attempt with
    | Return v => Return v
    | Raise e =>
        if is_InvalidURLError e then Raise e
        else Raise (Exn "InvalidURLError" ("Invalid URL format: " +:+ url))
    end.

(** [list(dict.fromkeys(keys))]: the keys in the order of their first
    occurrence, each once. *)
Definition dict_fromkeys (keys : list string) : list string :=
  fold_left (fun seen k => if bool_decide (k ∈ seen) then seen else seen ++ [k])
            keys [].

(** The generator of [clean_urls]:
    [normalize_url(url) for url in urls if is_valid_url(url)]. *)
Fixpoint normalized_valid_urls (lib : PyStdlib) (urls : list string)
  : outcome (list string) :=
  match urls with
  | [] => Return []
  | url :: rest =>
      if is_valid_url lib url then
        match normalize_url lib url with
        | Raise e => Raise e
        | Return v =>
            match normalized_valid_urls lib rest with
            | Raise e => Raise e
            | Return vs => Return (v :: vs)
            end
        end
      else normalized_valid_urls lib rest
  end.

(** [URLUtils.clean_urls] *)
Definition clean_urls (lib : PyStdlib) (urls : list string)
  : outcome (list string) :=
  match normalized_valid_urls lib urls with
  | Raise e => Raise e
  | Return vs => Return (dict_fromkeys vs)
  end.

(** ** AdaptiveThrottler, the remaining methods (adaptive_throttler.py) *)

(** [ThrottleMetrics.get_error_rate] *)
Definition get_error_rate (self : ThrottleMetrics) : float :=
  if total_requests self =? 0 then 0%float
  else (py_truediv (failed_requests self) (total_requests self) * 100)%float.

(** [AdaptiveThrottler.wait] and [wait_async]: the delays handed to
    [time.sleep] or [asyncio.sleep]. *)
Definition wait (self : AdaptiveThrottler.t) : list float :=
  if (0 <? AdaptiveThrottler.current_delay self)%float
  then [AdaptiveThrottler.current_delay self]
  else [].

(** [AdaptiveThrottler.reset] *)
Definition reset (self : AdaptiveThrottler.t) : AdaptiveThrottler.t :=
  AdaptiveThrottler.update (AdaptiveThrottler.initial_delay self) [] []
    {| total_requests := 0; successful_requests := 0; failed_requests := 0;
       response_times := [];
       metrics_current_delay := AdaptiveThrottler.initial_delay self;
       adjustments_count := 0 |}
    0 [] self.

(** One request as the crawler reports it to the throttler: a success with
    its response time, or a failure with its response time when there is
    one. *)
Inductive request_report :=
| Succeeded (response_time : float)
| Failed (response_time : option float).

Definition is_failure (r : request_report) : bool :=
  match r with
  | Succeeded _ => false
  | Failed _ => true
  end.

(** The response time in milliseconds that a report adds to the window. *)
Definition reported_time_ms (r : request_report) : list float :=
  match r with
  | Succeeded rt => [(rt * 1000)%float]
  | Failed (Some rt) => [(rt * 1000)%float]
  | Failed None => []
  end.

(** The call that a report leads to. *)
Definition record (self : AdaptiveThrottler.t) (r : request_report)
  : AdaptiveThrottler.t :=
  match r with
  | Succeeded rt => record_success self rt
  | Failed rt => record_failure self rt
  end.

(** A run of reports, in order. *)
Definition record_all (self : AdaptiveThrottler.t)
  (reports : list request_report) : AdaptiveThrottler.t :=
  fold_left record reports self.

(** [list(d)[-n:]] for [n > 0], and the empty list for [n = 0]: what a
    [deque(maxlen=n)] holds after the items of [d] have been appended. *)
Definition last_n {A} (n : nat) (l : list A) : list A :=
  drop (length l - n) l.

(** The parameters given to [__init__] are never written again. *)
Definition same_parameters (a b : AdaptiveThrottler.t) : Prop :=
  AdaptiveThrottler.initial_delay a = AdaptiveThrottler.initial_delay b
  /\ AdaptiveThrottler.min_delay a = AdaptiveThrottler.min_delay b
  /\ AdaptiveThrottler.max_delay a = AdaptiveThrottler.max_delay b
  /\ AdaptiveThrottler.error_threshold a = AdaptiveThrottler.error_threshold b
  /\ AdaptiveThrottler.fast_response_threshold a
     = AdaptiveThrottler.fast_response_threshold b
  /\ AdaptiveThrottler.slowdown_factor a = AdaptiveThrottler.slowdown_factor b
  /\ AdaptiveThrottler.speedup_factor a = AdaptiveThrottler.speedup_factor b
  /\ AdaptiveThrottler.window_size a = AdaptiveThrottler.window_size b
  /\ AdaptiveThrottler.adjustment_interval a
     = AdaptiveThrottler.adjustment_interval b.

(** The number of failed requests among the reports. *)
Definition failures (reports : list request_report) : Z :=
  Z.of_nat (length (List.filter is_failure reports)).

(** The response times in milliseconds that the reports carry, in order. *)
Definition reported_times_ms (reports : list request_report) : list float :=
  concat (map reported_time_ms reports).

(** ** Node, the remaining methods (node.py) *)

(** [Node.restore_dependencies]: an argument that is [None] leaves the
    reference as it is. *)
Definition restore_dependencies (self : Node.t)
  (plugin_manager : option NodePluginManager)
  (tree_parser : option ITreeAdapter)
  (hash_strategy : option IContentHashStrategy) : Node.t :=
  let self :=
    match plugin_manager with
    | Some pm =>
        Node.mk (Node.state self) (Some pm) (Node.tree_parser self)
          (Node.hash_strategy self)
    | None => self
    end in
  let self :=
    match tree_parser with
    | Some tp =>
        Node.mk (Node.state self) (Node.plugin_manager self) (Some tp)
          (Node.hash_strategy self)
    | None => self
    end in
  match hash_strategy with
  | Some hs => Node.set_hash_strategy (Some hs) self
  | None => self
  end.

(** [bool(d)] for a dictionary: the empty one is falsy. *)
Definition dict_truthy {V} (d : gmap string V) : bool :=
  negb (bool_decide (d = ∅)).

(** [Node._get_metadata_field]:
    [self.metadata.get(field, default) if self.metadata else default]. *)
Definition _get_metadata_field (self : Node.t) (field : string)
  (default_value : pyval) : pyval :=
  if dict_truthy (Node.metadata self)
  then default default_value (Node.metadata self !! field)
  else default_value.

(** [Node.get_title], [get_description], [get_h1], [get_keywords],
    [get_canonical_url], [get_language]: the default is [None]. *)
Definition get_title (self : Node.t) : pyval :=
  _get_metadata_field self "title" PNone.
Definition get_description (self : Node.t) : pyval :=
  _get_metadata_field self "description" PNone.
Definition get_h1 (self : Node.t) : pyval :=
  _get_metadata_field self "h1" PNone.
Definition get_keywords (self : Node.t) : pyval :=
  _get_metadata_field self "keywords" PNone.
Definition get_canonical_url (self : Node.t) : pyval :=
  _get_metadata_field self "canonical_url" PNone.
Definition get_language (self : Node.t) : pyval :=
  _get_metadata_field self "language" PNone.

(** [Node.get_meta_value] *)
Definition get_meta_value (self : Node.t) (key : string)
  (default_value : pyval) : pyval :=
  _get_metadata_field self key default_value.

(** ** NodeMapper, the list conversions (node_mapper.py) *)

(** [NodeMapper.to_dto_list] *)
Definition to_dto_list (nodes : list Node.t) : list NodeDTO.t :=
  map to_dto nodes.

(** [NodeMapper.to_domain_list], with [node_class=Node]: the comprehension
    stops at the first DTO for which [to_domain] raises. *)
Fixpoint to_domain_list (lib : PyStdlib) (node_dtos : list NodeDTO.t)
  (context : option mapper_context) : outcome (list Node.t) :=
  match node_dtos with
  | [] => Return []
  | dto :: rest =>
      match to_domain lib dto context with
      | Raise e => Raise e
      | Return node =>
          match to_domain_list lib rest context with
          | Raise e => Raise e
          | Return nodes => Return (node :: nodes)
          end
      end
  end.

(** ** NodeScanner.scan_batch (node_scanner.py) *)

Section NodeScannerBatch.

Variable sha256_hexdigest : string -> string.
Variable get_default_parser : ITreeAdapter.

(** [await self.driver.fetch_many(urls)] *)
Variable driver_fetch_many :
  list string -> outcome (list (option FetchResponse.t)).

(** One round of the loop of [scan_batch]: what is appended to
    [scan_results] (the links and the response; the node is the object
    itself) or the exception that leaves the loop, and the node afterwards.
    Unlike [scan_node] the loop has no [try]: what [process_html] raises
    is raised by [scan_batch]. *)
Definition scan_batch_step (node : Node.t) (result : option FetchResponse.t)
  : outcome (list string * option FetchResponse.t) * Node.t :=
  match result with
  | None => (Return ([], None), mark_as_scanned node)
  | Some r =>
      if opt_str_truthy (FetchResponse.error r) then
        (Return ([], result), mark_as_scanned node)
      else
        let node :=
          Node.set_state
            (NodeState.set_response_status
               (FetchResponse.status_code r) (Node.state node)) node in
        match FetchResponse.html r with
        | Some html =>
            if str_truthy html then
              match process_html sha256_hexdigest get_default_parser
                      node html with
              | (Raise e, node, _) => (Raise e, node)
              | (Return links, node, _) =>
                  (Return (links, result), mark_as_scanned node)
              end
            else (Return ([], result), mark_as_scanned node)
        | None => (Return ([], result), mark_as_scanned node)
        end
  end.

(** The loop [for node, result in zip(nodes, results)], [scan_results]
    being what was appended so far: the list returned or the exception,
    and the nodes as the loop leaves them (the nodes of a batch are
    distinct objects). *)
Fixpoint scan_batch_loop (nodes : list Node.t)
  (results : list (option FetchResponse.t))
  (scan_results : list (Node.t * list string * option FetchResponse.t))
  : outcome (list (Node.t * list string * option FetchResponse.t))
    * list Node.t :=
  match nodes, results with
  | node :: nodes', result :: results' =>
      match scan_batch_step node result with
      | (Raise e, node) => (Raise e, node :: nodes')
      | (Return (links, response), node) =>
          let '(o, rest) :=
            scan_batch_loop nodes' results'
              (scan_results ++ [(node, links, response)]) in
          (o, node :: rest)
      end
  | _, _ => (Return scan_results, nodes)
  end.

(** [NodeScanner.scan_batch] *)
Definition scan_batch (nodes : list Node.t)
  : outcome (list (Node.t * list string * option FetchResponse.t))
    * list Node.t :=
  match nodes with
  | [] => (Return [], nodes)
  | _ =>
      let urls := map Node.url nodes in
      match driver_fetch_many urls with
      | Raise e => (Raise e, nodes)
      | Return results => scan_batch_loop nodes results []
      end
  end.

End NodeScannerBatch.

(** A driver whose [fetch] answers with the given result. *)
Definition answering_driver (result : option FetchResponse.t) : BaseDriver :=
  {| driver_fetch := fun _ => Return result |}.


(** A node whose tree adapter rejects every page. *)
Definition broken_parser : ITreeAdapter :=
  {| parse := fun _ => Raise (Exn "ParserError" "bad markup") |}.

Definition node_with_broken_parser : Node.t :=
  Node.mk fresh_state None (Some broken_parser) None.

(** The same node after a failed [process_html]. *)
Definition node_after_parse_failure : Node.t :=
  Node.set_state
    (NodeState.set_lifecycle_stage HTML_STAGE fresh_state)
    node_with_broken_parser.

(** A node whose tree adapter is interrupted from the keyboard. *)
Definition interrupted_parser : ITreeAdapter :=
  {| parse := fun _ => Raise (Exn "KeyboardInterrupt" "") |}.

Definition node_with_interrupted_parser : Node.t :=
  Node.mk fresh_state None (Some interrupted_parser) None.

(** A page fetched without error. *)
Definition response_with_page : FetchResponse.t :=
  FetchResponse.mk "https://example.com/" (Some "<p>hi</p>") (Some 200) ∅
    None None [].

(** A driver that answers every URL of a batch with that page. *)
Definition batch_driver_with_page (urls : list string)
  : outcome (list (option FetchResponse.t)) :=
  Return (map (fun _ => Some response_with_page) urls).

(** ** AsyncDriver: situations of one [fetch] (async_http/driver.py) *)

(** The context that [fetch] creates for a URL. *)
Definition initial_context (transport : Transport) (url : string)
  : AsyncHTTPContext.t :=
  AsyncHTTPContext.mk url "GET" ∅ ∅ (config_timeout transport) ∅ None ∅
    None None false ∅.

(** A plugin cancels the request before it is sent: [ctx] is the context
    that comes out of the first of the stages [SESSION_REUSED],
    [PREPARING_REQUEST], [SENDING_REQUEST] after which [ctx.cancelled] is
    set, no hook having raised before. *)
Definition cancelled_before_request (transport : Transport) (attempt : nat)
  (url : string) (ctx : AsyncHTTPContext.t) : Prop :=
  exists ctx1,
    execute_hook_async transport attempt SESSION_REUSED
      (initial_context transport url) = Return ctx1
    /\ ((AsyncHTTPContext.cancelled ctx1 = true /\ ctx = ctx1)
        \/ (AsyncHTTPContext.cancelled ctx1 = false
            /\ exists ctx2,
                 execute_hook_async transport attempt PREPARING_REQUEST ctx1
                 = Return ctx2
                 /\ ((AsyncHTTPContext.cancelled ctx2 = true /\ ctx = ctx2)
                     \/ (AsyncHTTPContext.cancelled ctx2 = false
                         /\ execute_hook_async transport attempt
                              SENDING_REQUEST ctx2 = Return ctx
                         /\ AsyncHTTPContext.cancelled ctx = true)))).

(** The attempt fails and a plugin asks for a retry after [retry_delay]
    seconds: the [try] block ends in an exception, and the context that the
    [REQUEST_FAILED] hook returns has a truthy [should_retry]. *)
Definition retry_requested (py_str : pyval -> string) (transport : Transport)
  (attempt : nat) (url : string) (retry_delay : Q) : Prop :=
  exists e ctx ctx',
    _get_session transport attempt = Return tt
    /\ fetch_try py_str transport attempt url (initial_context transport url)
       = TryExcept e ctx
    /\ execute_hook_async transport attempt REQUEST_FAILED
         (AsyncHTTPContext.set_error (Some (exn_str e)) ctx) = Return ctx'
    /\ py_truthy (default (PBool false)
                    (AsyncHTTPContext.data ctx' !! "should_retry")) = true
    /\ as_seconds (default (PFloat 1)
                     (AsyncHTTPContext.data ctx' !! "retry_delay"))
       = Some retry_delay.

(** A driver without plugins at one attempt: every hook returns the
    context it is given. *)
Definition no_plugins (transport : Transport) (attempt : nat) : Prop :=
  forall stage ctx, execute_hook_async transport attempt stage ctx = Return ctx.

(** [ctx.html] after the body was read: the text, or [None] for a body
    that is not text. *)
Definition html_of_body (body : outcome string) : option string :=
  match body with
  | Return text => Some text
  | Raise _ => None
  end.

(** A plugin that cancels every request while it is prepared, giving a
    reason. *)
Definition cancelling_transport : Transport :=
  {| config_timeout := 30;
     _get_session := fun _ => Return tt;
     execute_hook_async := fun _ stage ctx =>
       match stage with
       | PREPARING_REQUEST =>
           Return (AsyncHTTPContext.set_cancelled true
                     (AsyncHTTPContext.set_data
                        (<["cancellation_reason" := PStr "robots.txt"]>
                           (AsyncHTTPContext.data ctx)) ctx))
       | _ => Return ctx
       end;
     session_get := fun _ _ _ _ =>
       Raise (Exn "ClientConnectorError" "Cannot connect to host") |}.

(** A server that answers from the third attempt on, and a plugin that
    asks for a retry after half a second while the request fails. *)
Definition page_response : ClientResponse :=
  {| resp_status := 200;
     resp_headers := ∅;
     resp_url := "https://example.com/";
     resp_history := [];
     resp_text := Return "<p>hi</p>" |}.

Definition recovering_transport : Transport :=
  {| config_timeout := 30;
     _get_session := fun _ => Return tt;
     execute_hook_async := fun _ stage ctx =>
       match stage with
       | REQUEST_FAILED =>
           Return (AsyncHTTPContext.set_data
                     (<["retry_delay" := PFloat (1 # 2)]>
                        (<["should_retry" := PBool true]>
                           (AsyncHTTPContext.data ctx))) ctx)
       | _ => Return ctx
       end;
     session_get := fun attempt _ _ _ =>
       if (attempt <? 2)%nat
       then Raise (Exn "ClientConnectorError" "Cannot connect to host")
       else Return page_response |}.

(** A server that redirects to another page, and no plugins. *)
Definition redirecting_transport : Transport :=
  {| config_timeout := 30;
     _get_session := fun _ => Return tt;
     execute_hook_async := fun _ _ ctx => Return ctx;
     session_get := fun _ _ _ _ =>
       Return {| resp_status := 200;
                 resp_headers := ∅;
                 resp_url := "https://example.com/new";
                 resp_history := ["https://example.com/old"];
                 resp_text := Return "<p>moved</p>" |} |}.

(** ** URLRule and EdgeRule (models.py) *)

Module URLRule.
Record t := mk {
  pattern : string;
  priority : Z;
  should_scan : option bool;
  should_follow_links : option bool;
  create_edge : option bool
}.
End URLRule.

(** [URLRule.apply_to_node]: the node afterwards. *)
Definition apply_to_node (self : URLRule.t) (node : Node.t) : Node.t :=
  let node :=
    match URLRule.should_scan self with
    | Some v =>
        Node.set_state (NodeState.set_should_scan v (Node.state node)) node
    | None => node
    end in
  match URLRule.should_follow_links self with
  | Some v =>
      Node.set_state (NodeState.set_can_create_edges v (Node.state node)) node
  | None => node
  end.

Module EdgeRule.
Record t := mk {
  source_pattern : option string;
  target_pattern : option string;
  max_depth_diff : option Z;
  action : string
}.
End EdgeRule.


Section EdgeRuleMethods.

(** [re.match(pattern, string) is not None]; compiling the pattern may
    raise [re.error]. *)
Variable re_match : string -> string -> outcome bool.

(** [EdgeRule.matches] *)
Definition matches (self : EdgeRule.t) (source_url target_url : string)
  (source_depth target_depth : Z) : outcome bool :=
  let check (pattern : option string) (url : string) : outcome bool :=
    match pattern with
    | Some p => if str_truthy p then re_match p url else Return true
    | None => Return true
    end in
  match check (EdgeRule.source_pattern self) source_url with
  | Raise e => Raise e
  | Return false => Return false
  | Return true =>
      match check (EdgeRule.target_pattern self) target_url with
      | Raise e => Raise e
      | Return false => Return false
      | Return true =>
          match EdgeRule.max_depth_diff self with
          | Some d =>
              let depth_diff := Z.abs (target_depth - source_depth) in
              if d <? depth_diff then Return false else Return true
          | None => Return true
          end
      end
  end.

(** [EdgeRule.should_create_edge] *)
Definition should_create_edge (self : EdgeRule.t)
  (source_url target_url : string) (source_depth target_depth : Z)
  : outcome (option bool) :=
  match matches self source_url target_url source_depth target_depth with
  | Raise e => Raise e
  | Return false => Return None
  | Return true => Return (Some (String.eqb (EdgeRule.action self) "create"))
  end.

End EdgeRuleMethods.

(** A rule about the links from the blog to the shop, with a pattern
    matcher that looks for the pattern at the beginning of the URL. *)
Definition prefix_match (pattern url : string) : outcome bool :=
  Return (String.prefix pattern url).

Definition blog_to_shop_rule : EdgeRule.t :=
  EdgeRule.mk (Some "https://example.com/blog")
    (Some "https://example.com/shop") (Some 2) "skip".

(** * Properties *)

(** ** FetchResponse *)

(** C7, as stated, does not hold: a response whose [final_url] is [None]
    while [url] is set has a [final_url] that differs from [url], and yet
    [is_redirect] is false for it. *)
Lemma is_redirect_iff_differs_counterexample :
  ~ (is_redirect response_without_final_url = true <->
     FetchResponse.final_url response_without_final_url
     <> Some (FetchResponse.url response_without_final_url)).
Proof.
  intros [_ H].
  assert (Hne : FetchResponse.final_url response_without_final_url
                <> Some (FetchResponse.url response_without_final_url))
    by discriminate.
  specialize (H Hne). discriminate H.
Qed.

(** C7, amended: [is_redirect] holds if and only if [final_url] is present
    and differs from [url]; a response without [final_url] is never a
    redirect. *)
Theorem is_redirect_iff_final_url_present_and_differs (r : FetchResponse.t) :
  (is_redirect r = true <->
   exists f, FetchResponse.final_url r = Some f /\ f <> FetchResponse.url r)
  /\ (FetchResponse.final_url r = None -> is_redirect r = false).
Proof.
  unfold is_redirect. split.
  - destruct (FetchResponse.final_url r) as [f|]; split.
    + intros H. exists f. split; [reflexivity|].
      apply negb_true_iff in H. intros ->. rewrite String.eqb_refl in H.
      discriminate.
    + intros (f' & [= <-] & Hne). apply negb_true_iff.
      apply String.eqb_neq. exact Hne.
    + discriminate.
    + intros (f & Hf & _). discriminate.
  - intros ->. reflexivity.
Qed.

(** ** Node *)

(** C1: when a node is already at [HTML_STAGE], [process_html] returns the
    empty list of links without raising, runs no plugin, and leaves the
    node as it was: its [lifecycle_stage], [metadata], [user_data],
    [content_hash] and [scanned] flag in particular. *)
Theorem process_html_second_call_is_noop
  (sha256_hexdigest : string -> string) (get_default_parser : ITreeAdapter)
  (self : Node.t) (html : string) :
  Node.lifecycle_stage self = HTML_STAGE ->
  exists self',
    process_html sha256_hexdigest get_default_parser self html
    = (Return [], self', [])
    /\ Node.lifecycle_stage self' = HTML_STAGE
    /\ Node.metadata self' = Node.metadata self
    /\ Node.user_data self' = Node.user_data self
    /\ Node.content_hash self' = Node.content_hash self
    /\ Node.scanned self' = Node.scanned self
    /\ self' = self.
Proof.
  intros Hstage. exists self. unfold process_html.
  rewrite Hstage. simpl. repeat split; reflexivity.
Qed.

Lemma process_html_second_call_is_noop_witness :
  Node.lifecycle_stage processed_node = HTML_STAGE /\
  exists self',
    process_html constant_digest text_parser processed_node "<html></html>"
    = (Return [], self', [])
    /\ Node.lifecycle_stage self' = HTML_STAGE
    /\ Node.metadata self' = Node.metadata processed_node
    /\ Node.user_data self' = Node.user_data processed_node
    /\ Node.content_hash self' = Node.content_hash processed_node
    /\ Node.scanned self' = Node.scanned processed_node
    /\ self' = processed_node.
Proof.
  split; [reflexivity|].
  apply (process_html_second_call_is_noop constant_digest text_parser
           processed_node "<html></html>").
  reflexivity.
Defined.

Lemma is_lower_hex_digit_spec (c : ascii) :
  is_lower_hex_digit c = true <->
  In c (list_ascii_of_string lowercase_hex_digits).
Proof.
  destruct c as [[] [] [] [] [] [] [] []]; vm_compute;
    (split; [ intros H; first [ discriminate H | tauto ]
            | intros H; first [ reflexivity
                              | repeat (destruct H as [H|H]; [discriminate H|]);
                                destruct H ] ]).
Qed.

Lemma string_forallb_spec (f : ascii -> bool) (s : string) :
  string_forallb f s = true <->
  forall c, In c (list_ascii_of_string s) -> f c = true.
Proof.
  induction s as [|a s IH]; simpl.
  - split; [intros _ c []|reflexivity].
  - rewrite andb_true_iff, IH. split.
    + intros [Ha Hs] c [<-|Hc]; auto.
    + intros H. split; [apply H; left; reflexivity|].
      intros c Hc. apply H. right. exact Hc.
Qed.

(** The pattern check accepts exactly the 64-character lowercase
    hexadecimal strings. *)
Lemma re_match_sha256_spec (s : string) :
  re_match_sha256 s = true <-> is_sha256_digest s.
Proof.
  unfold re_match_sha256, is_sha256_digest, SHA256_HASH_LENGTH.
  rewrite andb_true_iff, Nat.eqb_eq, string_forallb_spec.
  split; intros [Hl Hc]; (split; [exact Hl|]); intros c Hin;
    apply is_lower_hex_digit_spec, Hc, Hin.
Qed.

Lemma re_match_sha256_false (s : string) :
  ~ is_sha256_digest s -> re_match_sha256 s = false.
Proof.
  intros H. destruct (re_match_sha256 s) eqn:E; [|reflexivity].
  exfalso. apply H, re_match_sha256_spec, E.
Qed.

(** C5: for a node at [HTML_STAGE] with a custom hash strategy,
    (1) [get_content_hash] raises whenever the strategy returns anything
    other than a 64-character lowercase hexadecimal string;
    (2) on the first use, when the first result is such a digest, the
    strategy is invoked twice on the same node, and [get_content_hash]
    raises if the second result differs from the first;
    (3) when the strategy is deterministic and returns a valid digest,
    [get_content_hash] returns that digest. *)
Theorem get_content_hash_custom_strategy
  (sha256_hexdigest : string -> string)
  (self : Node.t) (hs : IContentHashStrategy) :
  Node.lifecycle_stage self = HTML_STAGE ->
  Node.hash_strategy self = Some hs ->
  let first := compute_hash hs (hs_calls hs) (Node.state self) in
  let second := compute_hash hs (S (hs_calls hs)) (Node.state self) in
  let result := get_content_hash sha256_hexdigest self in
  (forall v, first = Return v ->
     (forall h, v = PStr h -> ~ is_sha256_digest h) ->
     exists e, result.1 = Raise e)
  /\ (forall h, first = Return (PStr h) -> is_sha256_digest h ->
        NodeState._hash_determinism_validated (Node.state self) = false ->
        (exists hs', Node.hash_strategy result.2 = Some hs'
                     /\ hs_calls hs' = S (S (hs_calls hs))
                     /\ compute_hash hs' = compute_hash hs)
        /\ (second <> Return (PStr h) -> exists e, result.1 = Raise e))
  /\ (forall h, deterministic hs -> first = Return (PStr h) ->
        is_sha256_digest h -> result.1 = Return h).
Proof.
  intros Hstage Hhs first second result.
  subst result. unfold get_content_hash.
  rewrite Hstage, Hhs. cbn [NodeLifecycle_eqb negb call_compute_hash].
  fold first. split; [|split].
  - intros v Hv Hbad. rewrite Hv.
    destruct v as [| b | n | x | h]; try (eexists; reflexivity).
    rewrite (re_match_sha256_false h (Hbad h eq_refl)). cbn.
    eexists; reflexivity.
  - intros h Hfirst Hdig Hflag. rewrite Hfirst.
    apply re_match_sha256_spec in Hdig. rewrite Hdig. cbn [negb].
    cbn [Node.state Node.set_hash_strategy]. rewrite Hflag.
    unfold _validate_hash_strategy_deterministic.
    cbn [Node.hash_strategy Node.set_hash_strategy call_compute_hash
         hs_calls compute_hash Node.state].
    fold second.
    destruct second as [[| b | n | x | h2] | e] eqn:E2; cbn;
      try (split; [eexists; repeat split; reflexivity
                  | intros _; eexists; reflexivity]).
    destruct (String.eqb h h2) eqn:Eh; cbn.
    + apply String.eqb_eq in Eh. subst h2.
      split; [eexists; repeat split; reflexivity|].
      intros Hne. exfalso. apply Hne. reflexivity.
    + split; [eexists; repeat split; reflexivity|].
      intros _. eexists; reflexivity.
  - intros h Hdet Hfirst Hdig. rewrite Hfirst.
    apply re_match_sha256_spec in Hdig. rewrite Hdig. cbn [negb].
    cbn [Node.state Node.set_hash_strategy].
    destruct (NodeState._hash_determinism_validated (Node.state self));
      [reflexivity|].
    unfold _validate_hash_strategy_deterministic.
    cbn [Node.hash_strategy Node.set_hash_strategy call_compute_hash
         hs_calls compute_hash Node.state].
    rewrite (Hdet (S (hs_calls hs)) (hs_calls hs) (Node.state self)).
    fold first. rewrite Hfirst. rewrite String.eqb_refl. reflexivity.
Qed.

Lemma get_content_hash_custom_strategy_witness :
  Node.lifecycle_stage node_with_strategy = HTML_STAGE /\
  Node.hash_strategy node_with_strategy = Some constant_strategy /\
  (get_content_hash constant_digest node_with_strategy).1
  = Return "ba7816bf8f01cfea414140de5dae2223b00361a396177a9cb410ff61f20015ad".
Proof.
  split; [reflexivity|]. split; [reflexivity|].
  apply (get_content_hash_custom_strategy constant_digest node_with_strategy
           constant_strategy eq_refl eq_refl).
  - intros i j node. reflexivity.
  - reflexivity.
  - apply re_match_sha256_spec. vm_compute. reflexivity.
Defined.









(** ** NodeScanner *)

(** C4, as stated, does not hold.  A response of the driver with a non-nil
    [error], the empty string, does not count as a failure: [scan_node]
    returns a link and sets [response_status] to 200.  And a driver that
    raises [asyncio.CancelledError], which is no [Exception], is not
    caught: [scan_node] raises it and the node is not marked as scanned. *)
Lemma scan_node_non_nil_error_counterexample :
  (exists r e,
     driver_fetch driver_with_empty_error (Node.url node_with_link_finder)
     = Return (Some r)
     /\ FetchResponse.error r = Some e)
  /\ (scan_node constant_digest text_parser driver_with_empty_error
        node_with_link_finder).1
     = Return (["https://example.com/next"], Some response_with_empty_error)
  /\ Node.response_status node_with_link_finder = None
  /\ Node.response_status
       (scan_node constant_digest text_parser driver_with_empty_error
          node_with_link_finder).2 = Some 200
  /\ scan_node constant_digest text_parser cancelled_driver fresh_node
     = (Raise (Exn "CancelledError" ""), fresh_node)
  /\ Node.scanned fresh_node = false.
Proof.
  split.
  - exists response_with_empty_error, "". split; reflexivity.
  - vm_compute. repeat split; reflexivity.
Qed.

(** C4, amended: when the fetch of the driver fails (it raises an instance
    of [Exception], it returns no response, or it returns a response whose
    [error] is a non-empty string), [scan_node] returns an empty link list,
    together with the response when there is one, the node ends with
    [scanned = true], and nothing else of the node changes; its
    [response_status] in particular is what it was. *)
Theorem scan_node_on_fetch_failure
  (sha256_hexdigest : string -> string) (get_default_parser : ITreeAdapter)
  (driver : BaseDriver) (node : Node.t) :
  (exists e, driver_fetch driver (Node.url node) = Raise e
             /\ isinstance_Exception e = true)
  \/ driver_fetch driver (Node.url node) = Return None
  \/ (exists r msg,
        driver_fetch driver (Node.url node) = Return (Some r)
        /\ FetchResponse.error r = Some msg /\ msg <> "") ->
  let out := scan_node sha256_hexdigest get_default_parser driver node in
  out.1 = Return ([], match driver_fetch driver (Node.url node) with
                      | Return response => response
                      | Raise _ => None
                      end)
  /\ Node.scanned out.2 = true
  /\ Node.response_status out.2 = Node.response_status node
  /\ out.2 = mark_as_scanned node.
Proof.
  intros H out. subst out. unfold scan_node.
  destruct H as [(e & He & Hexn) | [Hn | (r & msg & Hr & Herr & Hmsg)]].
  - rewrite He. unfold scan_node_except. rewrite Hexn.
    repeat split; reflexivity.
  - rewrite Hn. repeat split; reflexivity.
  - rewrite Hr. unfold opt_str_truthy. rewrite Herr.
    destruct msg as [|c msg]; [contradiction|].
    cbn [str_truthy]. repeat split; reflexivity.
Qed.

Lemma scan_node_on_fetch_failure_witness :
  (scan_node constant_digest text_parser failing_driver fresh_node).1
  = Return ([], None)
  /\ Node.scanned
       (scan_node constant_digest text_parser failing_driver fresh_node).2
     = true
  /\ Node.response_status
       (scan_node constant_digest text_parser failing_driver fresh_node).2
     = Node.response_status fresh_node
  /\ (scan_node constant_digest text_parser failing_driver fresh_node).2
     = mark_as_scanned fresh_node.
Proof.
  apply (scan_node_on_fetch_failure constant_digest text_parser
           failing_driver fresh_node).
  left. exists (Exn "RuntimeError" "Event loop is closed").
  split; reflexivity.
Defined.

(** ** AsyncDriver *)







(** A task that is interrupted from the keyboard ends the run: [fetch_many]
    raises, whatever the other tasks did. *)
Lemma fetch_many_interrupted :
  fetch_many example_py_str
    (fun i => if Nat.eqb i 1 then interrupted_transport else flaky_transport)
    3 ["https://example.com/a"; "https://example.com/b"]
  = Raise (Exn "KeyboardInterrupt" "").
Proof.
  vm_compute. reflexivity.
Qed.




(** After a failed request for which a plugin has set [should_retry], the
    driver sleeps for [retry_delay] (one second when the plugin gave none)
    and calls [fetch] again. *)
Lemma fetch_retries_after_failure
  (py_str : pyval -> string) (transport : Transport)
  (fuel attempt : nat) (url : string) (e : exn)
  (ctx ctx' : AsyncHTTPContext.t) (retry_delay : Q) :
  _get_session transport attempt = Return tt ->
  fetch_try py_str transport attempt url
    (AsyncHTTPContext.mk url "GET" ∅ ∅ (config_timeout transport) ∅
       None ∅ None None false ∅) = TryExcept e ctx ->
  execute_hook_async transport attempt REQUEST_FAILED
    (AsyncHTTPContext.set_error (Some (exn_str e)) ctx) = Return ctx' ->
  py_truthy (default (PBool false)
               (AsyncHTTPContext.data ctx' !! "should_retry")) = true ->
  as_seconds (default (PFloat 1)
                (AsyncHTTPContext.data ctx' !! "retry_delay"))
  = Some retry_delay ->
  fetch py_str transport (S fuel) attempt url
  = ((fetch py_str transport fuel (S attempt) url).1,
     retry_delay :: (fetch py_str transport fuel (S attempt) url).2).
Proof.
  intros Hs Htry Hhook Hretry Hdelay. cbn [fetch].
  rewrite Hs, Htry, Hhook, Hretry, Hdelay.
  destruct (fetch py_str transport fuel (S attempt) url). reflexivity.
Qed.

Lemma fetch_retry_always_step (py_str : pyval -> string)
  (fuel attempt : nat) (url : string) :
  fetch py_str retry_always fuel attempt url = (None, repeat 1%Q fuel).
Proof.
  revert attempt. induction fuel as [|fuel IH]; intros attempt.
  - reflexivity.
  - rewrite (fetch_retries_after_failure py_str retry_always fuel attempt url
               (Exn "ClientConnectorError" "Cannot connect to host")
               (AsyncHTTPContext.mk url "GET" ∅ ∅ 30 ∅ None ∅ None None
                  false ∅)
               (AsyncHTTPContext.mk url "GET" ∅ ∅ 30 ∅ None ∅ None
                  (Some "Cannot connect to host") false
                  (<["should_retry" := PBool true]> ∅))
               1%Q); try reflexivity.
    rewrite IH. reflexivity.
Qed.

(** C2, evaluated on the driver: with a server that cannot be reached and a
    plugin that sets [should_retry] after every failure, [fetch] sleeps for
    the retry delay and retries, but no maximum ends the retries: after any
    number [n] of attempts the call has slept [n] times and has not
    returned, so the retries of this one fetch exceed every bound. *)
Theorem fetch_retries_without_bound (py_str : pyval -> string)
  (url : string) :
  (forall n, fetch py_str retry_always n 0 url = (None, repeat 1%Q n))
  /\ (forall max, exists n,
        (max < length (fetch py_str retry_always n 0 url).2)%nat
        /\ (fetch py_str retry_always n 0 url).1 = None).
Proof.
  split.
  - intros n. apply fetch_retry_always_step.
  - intros max. exists (S max). rewrite fetch_retry_always_step.
    simpl. rewrite repeat_length. split; [lia|reflexivity].
Qed.


(** ** AdaptiveThrottler *)

(** *** The order of binary64 numbers *)

Lemma SFcompare_antisym (x y : spec_float) :
  SFcompare y x
  = match SFcompare x y with
    | Some c => Some (CompOpp c)
    | None => None
    end.
Proof.
  destruct x as [sx|sx| |sx mx ex], y as [sy|sy| |sy my ey]; cbn;
    try reflexivity;
    try (destruct sx; reflexivity); try (destruct sy; reflexivity);
    try (destruct sx, sy; reflexivity).
  destruct sx, sy; try reflexivity.
  - rewrite (Z.compare_antisym ex ey).
    destruct (ex ?= ey)%Z; cbn; try reflexivity.
    rewrite (Pos.compare_cont_antisym my mx Eq). cbn.
    destruct (Pos.compare_cont Eq mx my); reflexivity.
  - rewrite (Z.compare_antisym ex ey).
    destruct (ex ?= ey)%Z; cbn; try reflexivity.
    rewrite (Pos.compare_cont_antisym mx my Eq). reflexivity.
Qed.

Lemma SFcompare_refl (x : spec_float) :
  SFcompare x x = None \/ SFcompare x x = Some Eq.
Proof.
  destruct x as [s|s| |s m e]; cbn; auto.
  - destruct s; auto.
  - rewrite Z.compare_refl.
    change (PosDef.Pos.compare_cont Eq m m) with (Pos.compare m m).
    rewrite Pos.compare_refl. destruct s; auto.
Qed.

(** A number that compares with some number compares equal to itself: it
    is not NaN. *)
Lemma SFcompare_Some_l (x y : spec_float) (c : comparison) :
  SFcompare x y = Some c -> SFcompare x x = Some Eq.
Proof.
  intros H. destruct (SFcompare_refl x) as [E|E]; [|exact E].
  destruct x; try discriminate; destruct y; discriminate.
Qed.

Lemma SFcompare_Some_r (x y : spec_float) (c : comparison) :
  SFcompare x y = Some c -> SFcompare y y = Some Eq.
Proof.
  intros H. apply (SFcompare_Some_l y x (CompOpp c)).
  rewrite (SFcompare_antisym x y), H. reflexivity.
Qed.

Ltac float_order :=
  rewrite ?FloatAxioms.ltb_spec, ?FloatAxioms.leb_spec, ?FloatAxioms.eqb_spec
    in *;
  unfold SFltb, SFleb, SFeqb in *.

Lemma float_ltb_leb (a b : float) :
  (a <? b)%float = true -> (a <=? b)%float = true.
Proof.
  float_order. destruct (SFcompare _ _) as [[]|]; congruence.
Qed.

Lemma float_leb_refl_l (a b : float) :
  (a <=? b)%float = true -> (a <=? a)%float = true.
Proof.
  float_order.
  destruct (SFcompare (Prim2SF a) (Prim2SF b)) as [c|] eqn:E;
    [|discriminate].
  rewrite (SFcompare_Some_l _ _ _ E). reflexivity.
Qed.

Lemma float_leb_refl_r (a b : float) :
  (a <=? b)%float = true -> (b <=? b)%float = true.
Proof.
  float_order.
  destruct (SFcompare (Prim2SF a) (Prim2SF b)) as [c|] eqn:E;
    [|discriminate].
  rewrite (SFcompare_Some_r _ _ _ E). reflexivity.
Qed.

Lemma float_not_ltb_leb (a b : float) :
  (a <=? a)%float = true -> (b <=? b)%float = true ->
  (a <? b)%float = false -> (b <=? a)%float = true.
Proof.
  float_order. intros Ha Hb.
  rewrite (SFcompare_antisym (Prim2SF a) (Prim2SF b)).
  destruct (SFcompare (Prim2SF a) (Prim2SF b)) as [[]|] eqn:E;
    cbn; try congruence.
  destruct (Prim2SF a) as [| | |]; try discriminate;
    destruct (Prim2SF b); discriminate.
Qed.

Lemma float_leb_not_ltb (a b : float) :
  (a <=? b)%float = true -> (b <? a)%float = false.
Proof.
  float_order.
  rewrite (SFcompare_antisym (Prim2SF a) (Prim2SF b)).
  destruct (SFcompare (Prim2SF a) (Prim2SF b)) as [[]|]; cbn; congruence.
Qed.

Lemma float_leb_antisym (a b : float) :
  (a <=? b)%float = true -> (b <=? a)%float = true -> (a =? b)%float = true.
Proof.
  float_order.
  rewrite (SFcompare_antisym (Prim2SF a) (Prim2SF b)).
  destruct (SFcompare (Prim2SF a) (Prim2SF b)) as [[]|]; cbn; congruence.
Qed.

Lemma float_leb_eqb_refl (a : float) :
  (a <=? a)%float = true -> (a =? a)%float = true.
Proof.
  intros H. apply float_leb_antisym; exact H.
Qed.

(** *** The adjustment step *)

(** The bounding puts every delay, NaN included, within bounds that are
    the right way round. *)
Lemma clamp_delay_bounds (self : AdaptiveThrottler.t) (d : float) :
  (AdaptiveThrottler.min_delay self <=? AdaptiveThrottler.max_delay self)%float
  = true ->
  (AdaptiveThrottler.min_delay self <=? clamp_delay self d)%float = true
  /\ (clamp_delay self d <=? AdaptiveThrottler.max_delay self)%float = true.
Proof.
  intros Hmm. unfold clamp_delay, py_max, py_min.
  pose proof (float_leb_refl_l _ _ Hmm) as Hlo.
  pose proof (float_leb_refl_r _ _ Hmm) as Hhi.
  destruct (AdaptiveThrottler.max_delay self <? d)%float eqn:E1.
  - destruct (AdaptiveThrottler.min_delay self
              <? AdaptiveThrottler.max_delay self)%float;
      split; assumption.
  - destruct (AdaptiveThrottler.min_delay self <? d)%float eqn:E2.
    + split; [apply float_ltb_leb, E2|].
      apply float_not_ltb_leb; [exact Hhi| |exact E1].
      apply (float_leb_refl_r _ _ (float_ltb_leb _ _ E2)).
    + split; assumption.
Qed.

(** The bounding keeps a delay that is within the bounds (up to the sign
    of a zero). *)
Lemma clamp_delay_inside (self : AdaptiveThrottler.t) (d : float) :
  (AdaptiveThrottler.min_delay self <=? d)%float = true ->
  (d <=? AdaptiveThrottler.max_delay self)%float = true ->
  (clamp_delay self d =? d)%float = true.
Proof.
  intros Hlo Hhi. unfold clamp_delay, py_max, py_min.
  rewrite (float_leb_not_ltb _ _ Hhi).
  destruct (AdaptiveThrottler.min_delay self <? d)%float eqn:E2.
  - apply float_leb_eqb_refl, (float_leb_refl_l _ _ Hhi).
  - apply float_leb_antisym; [exact Hlo|].
    apply float_not_ltb_leb;
      [apply (float_leb_refl_l _ _ Hlo)|apply (float_leb_refl_l _ _ Hhi)
      |exact E2].
Qed.

Lemma _adjust_delay_current_delay (self : AdaptiveThrottler.t) :
  AdaptiveThrottler.recent_errors self <> [] ->
  AdaptiveThrottler.current_delay (_adjust_delay self)
  = clamp_delay self
      (if (AdaptiveThrottler.error_threshold self
           <? window_error_rate self)%float
       then (AdaptiveThrottler.current_delay self
             * AdaptiveThrottler.slowdown_factor self)%float
       else if match AdaptiveThrottler.recent_response_times self with
               | [] => false
               | _ => (window_avg_response_time self / 1000
                       <? AdaptiveThrottler.fast_response_threshold self)%float
               end
       then (AdaptiveThrottler.current_delay self
             * AdaptiveThrottler.speedup_factor self)%float
       else AdaptiveThrottler.current_delay self).
Proof.
  intros Hne. unfold _adjust_delay.
  destruct (AdaptiveThrottler.recent_errors self) as [|e0 errs] eqn:Eerr;
    [contradiction|].
  destruct (AdaptiveThrottler.error_threshold self
            <? window_error_rate self)%float.
  - cbn zeta. destruct (0.001 <? _)%float; reflexivity.
  - destruct (match AdaptiveThrottler.recent_response_times self with
              | [] => false
              | _ => _
              end).
    + cbn zeta. destruct (0.001 <? _)%float; reflexivity.
    + reflexivity.
Qed.

(** The number of failures that the window holds. *)
Lemma filter_true_count_occ (errors : list bool) :
  length (filter (fun e => e = true) errors) = count_occ bool_dec errors true.
Proof.
  induction errors as [|e errors IH]; [reflexivity|].
  destruct e.
  - rewrite filter_cons_True by reflexivity. cbn. now rewrite IH.
  - rewrite filter_cons_False by discriminate. cbn. exact IH.
Qed.

(** A count as a float. *)
Lemma float_of_int_of_nat (k : nat) :
  float_of_int (Z.of_nat k) = PrimFloat.of_uint63 (Uint63.of_Z (Z.of_nat k)).
Proof.
  unfold float_of_int.
  destruct (Z.ltb_spec (Z.of_nat k) 0) as [H|H]; [lia|reflexivity].
Qed.

Lemma window_error_rate_unfold (self : AdaptiveThrottler.t) :
  window_error_rate self
  = (PrimFloat.of_uint63
       (Uint63.of_Z
          (Z.of_nat (count_occ bool_dec (AdaptiveThrottler.recent_errors self)
                               true)))
     / PrimFloat.of_uint63
         (Uint63.of_Z
            (Z.of_nat (length (AdaptiveThrottler.recent_errors self))))
     * 100)%float.
Proof.
  unfold window_error_rate, py_truediv, py_len.
  rewrite filter_true_count_occ, !float_of_int_of_nat. reflexivity.
Qed.

Lemma window_avg_response_time_unfold (self : AdaptiveThrottler.t) :
  AdaptiveThrottler.recent_response_times self <> [] ->
  window_avg_response_time self
  = (fold_left PrimFloat.add (AdaptiveThrottler.recent_response_times self) 0
     / PrimFloat.of_uint63
         (Uint63.of_Z
            (Z.of_nat
               (length (AdaptiveThrottler.recent_response_times self)))))
    %float.
Proof.
  unfold window_avg_response_time, py_sum, py_len.
  destruct (AdaptiveThrottler.recent_response_times self) as [|t0 ts];
    [contradiction|].
  intros _. rewrite float_of_int_of_nat. reflexivity.
Qed.

(** The request counter plays no part in the delay that an adjustment step
    computes. *)
Lemma _adjust_delay_counted (self : AdaptiveThrottler.t) (n : Z) :
  AdaptiveThrottler.recent_errors self <> [] ->
  AdaptiveThrottler.current_delay
    (_adjust_delay
       (AdaptiveThrottler.update (AdaptiveThrottler.current_delay self)
          (AdaptiveThrottler.recent_response_times self)
          (AdaptiveThrottler.recent_errors self)
          (AdaptiveThrottler.metrics self) n
          (AdaptiveThrottler.adjustment_history self) self))
  = AdaptiveThrottler.current_delay (_adjust_delay self).
Proof.
  intros Hne. rewrite !_adjust_delay_current_delay by exact Hne.
  reflexivity.
Qed.

(** C8, amended: an adjustment step on a window that is not empty, with
    [min_delay] not above [max_delay].  The step is taken by the recording
    of a request that brings the number of requests since the last step to
    [adjustment_interval], and by no other.  The error rate is the number
    of failures in the window divided by its length, times 100, and the
    mean response time is the sum of the window's response times divided by
    their number, each computed in binary64.  When the error rate exceeds the error threshold
    (10 by default) the delay is multiplied by the slowdown factor (1.5 by
    default), whatever the response times are; otherwise, when the window
    has response times and their mean in seconds is below the fast-response
    threshold (0.5 s by default), the delay is multiplied by the speedup
    factor (0.8 by default); otherwise the delay is kept.  The result is
    then bounded, which leaves a delay within the bounds as it is, so that
    after the step the delay lies within [min_delay, max_delay]. *)
Theorem _adjust_delay_rules (self : AdaptiveThrottler.t) :
  let errors := AdaptiveThrottler.recent_errors self in
  let times := AdaptiveThrottler.recent_response_times self in
  let number (k : nat) := PrimFloat.of_uint63 (Uint63.of_Z (Z.of_nat k)) in
  let error_rate :=
    (number (count_occ bool_dec errors true) / number (length errors)
     * 100)%float in
  let mean_ms :=
    (fold_left PrimFloat.add times 0 / number (length times))%float in
  let delay := AdaptiveThrottler.current_delay self in
  let delay' := AdaptiveThrottler.current_delay (_adjust_delay self) in
  let bounded (d : float) :=
    py_max (AdaptiveThrottler.min_delay self)
           (py_min d (AdaptiveThrottler.max_delay self)) in
  errors <> [] ->
  (AdaptiveThrottler.min_delay self <=? AdaptiveThrottler.max_delay self)%float
  = true ->
  ((AdaptiveThrottler.error_threshold self <? error_rate)%float = true ->
   delay' = bounded (delay * AdaptiveThrottler.slowdown_factor self)%float)
  /\ ((AdaptiveThrottler.error_threshold self <? error_rate)%float = false ->
      times <> [] ->
      (mean_ms / 1000 <? AdaptiveThrottler.fast_response_threshold self)%float
      = true ->
      delay' = bounded (delay * AdaptiveThrottler.speedup_factor self)%float)
  /\ ((AdaptiveThrottler.error_threshold self <? error_rate)%float = false ->
      times = [] \/
      (mean_ms / 1000 <? AdaptiveThrottler.fast_response_threshold self)%float
      = false ->
      delay' = bounded delay)
  /\ (AdaptiveThrottler.min_delay self <=? delay')%float = true
  /\ (delay' <=? AdaptiveThrottler.max_delay self)%float = true
  /\ (forall d,
        (AdaptiveThrottler.min_delay self <=? d)%float = true ->
        (d <=? AdaptiveThrottler.max_delay self)%float = true ->
        (bounded d =? d)%float = true)
  /\ (let n := AdaptiveThrottler.requests_since_adjustment self + 1 in
      let recorded := check_adjustment self in
      ((AdaptiveThrottler.adjustment_interval self <=? n) = true ->
       AdaptiveThrottler.current_delay recorded = delay'
       /\ AdaptiveThrottler.requests_since_adjustment recorded = 0)
      /\ ((AdaptiveThrottler.adjustment_interval self <=? n) = false ->
          AdaptiveThrottler.current_delay recorded = delay
          /\ AdaptiveThrottler.requests_since_adjustment recorded = n))
  /\ (AdaptiveThrottler.error_threshold AdaptiveThrottler_default = 10
      /\ AdaptiveThrottler.slowdown_factor AdaptiveThrottler_default = 1.5
      /\ AdaptiveThrottler.fast_response_threshold AdaptiveThrottler_default
         = 0.5
      /\ AdaptiveThrottler.speedup_factor AdaptiveThrottler_default = 0.8
      /\ AdaptiveThrottler.min_delay AdaptiveThrottler_default = 0.1
      /\ AdaptiveThrottler.max_delay AdaptiveThrottler_default = 5)%float.
Proof.
  intros errors times number error_rate mean_ms delay delay' bounded Hne Hmm.
  assert (Hrate : window_error_rate self = error_rate)
    by apply window_error_rate_unfold.
  assert (Hmean : times <> [] -> window_avg_response_time self = mean_ms)
    by apply window_avg_response_time_unfold.
  assert (Hd : delay' = _) by exact (_adjust_delay_current_delay self Hne).
  rewrite Hrate in Hd. fold times delay in Hd.
  change (clamp_delay self) with bounded in Hd.
  split; [|split; [|split; [|split; [|split; [|split; [|split]]]]]].
  - intros Hslow. rewrite Hd, Hslow. reflexivity.
  - intros Hslow Hrts Hfast. rewrite Hd, Hslow, (Hmean Hrts), Hfast.
    destruct times; [contradiction|reflexivity].
  - intros Hslow Hkeep. rewrite Hd, Hslow.
    destruct times as [|t0 ts] eqn:Et; [reflexivity|].
    destruct Hkeep as [Hnil|Hkeep]; [discriminate Hnil|].
    rewrite Hmean by discriminate. rewrite Hkeep. reflexivity.
  - rewrite Hd. apply (clamp_delay_bounds self), Hmm.
  - rewrite Hd. apply (clamp_delay_bounds self), Hmm.
  - intros d. apply (clamp_delay_inside self).
  - cbn zeta. unfold check_adjustment.
    cbn [AdaptiveThrottler.adjustment_interval AdaptiveThrottler.update].
    split; intros Hk; rewrite Hk.
    + split; [|reflexivity].
      cbn [AdaptiveThrottler.current_delay AdaptiveThrottler.update].
      apply (_adjust_delay_counted self _ Hne).
    + split; reflexivity.
  - repeat split; reflexivity.
Qed.

Lemma _adjust_delay_rules_witness :
  AdaptiveThrottler.recent_errors throttler_after_failure = [true]
  /\ AdaptiveThrottler.current_delay throttler_after_failure = 0.5%float
  /\ AdaptiveThrottler.current_delay (_adjust_delay throttler_after_failure)
     = 0.75%float.
Proof.
  assert (H1 : AdaptiveThrottler.recent_errors throttler_after_failure <> [])
    by (vm_compute; discriminate).
  assert (H2 : (AdaptiveThrottler.min_delay throttler_after_failure
                <=? AdaptiveThrottler.max_delay throttler_after_failure)%float
               = true)
    by (vm_compute; reflexivity).
  split; [reflexivity|]. split; [reflexivity|].
  destruct (_adjust_delay_rules throttler_after_failure H1 H2) as (Hslow & _).
  rewrite Hslow; vm_compute; reflexivity.
Defined.

(** The error rate is the code's binary64 number: 11 failures among 20
    requests give 55.00000000000001, which is above a threshold of 55.0,
    so the step slows down although every response was fast. *)
Lemma _adjust_delay_at_threshold :
  window_error_rate throttler_at_threshold = 55.00000000000001%float
  /\ (AdaptiveThrottler.error_threshold throttler_at_threshold
      <? window_error_rate throttler_at_threshold)%float = true
  /\ AdaptiveThrottler.current_delay (_adjust_delay throttler_at_threshold)
     = 0.75%float.
Proof.
  vm_compute. repeat split; reflexivity.
Qed.

(** C8, as it is worded, does not hold of every adjustment step.  With
    [min_delay=2.0] above [max_delay=1.0] the step after one failed request
    leaves the delay at 2.0, above [max_delay]; and with [window_size=0] the
    window is empty at every step, the step returns at once, and a delay
    that starts at 10 s stays above the [max_delay] of 5 s. *)
Lemma _adjust_delay_outside_bounds_counterexample :
  (AdaptiveThrottler.recent_errors crossed_bounds_after_failure = [true]
   /\ AdaptiveThrottler.requests_since_adjustment
        crossed_bounds_after_failure = 0
   /\ AdaptiveThrottler.current_delay crossed_bounds_after_failure = 2%float
   /\ (AdaptiveThrottler.current_delay crossed_bounds_after_failure
       <=? AdaptiveThrottler.max_delay crossed_bounds_after_failure)%float
      = false)
  /\ (AdaptiveThrottler.recent_errors without_window_after_failure = []
      /\ AdaptiveThrottler.requests_since_adjustment
           without_window_after_failure = 0
      /\ _adjust_delay without_window_after_failure
         = without_window_after_failure
      /\ AdaptiveThrottler.current_delay without_window_after_failure
         = 10%float
      /\ (AdaptiveThrottler.current_delay without_window_after_failure
          <=? AdaptiveThrottler.max_delay without_window_after_failure)%float
         = false).
Proof.
  vm_compute. repeat split; reflexivity.
Qed.

(** ** urllib.parse and URLUtils *)

(** *** Characters and searches *)

Lemma contains_spec (c : ascii) (s : list ascii) :
  contains c s = true <-> c ∈ s.
Proof.
  unfold contains. rewrite existsb_exists. split.
  - intros (x & Hin & Heq). apply Ascii.eqb_eq in Heq. subst x.
    apply list_elem_of_In, Hin.
  - intros Hin. exists c. split; [apply list_elem_of_In, Hin|].
    apply Ascii.eqb_refl.
Qed.

Lemma contains_false (c : ascii) (s : list ascii) :
  contains c s = false <-> c ∉ s.
Proof.
  rewrite <- contains_spec. destruct (contains c s); split; intros H;
    try reflexivity; try discriminate; try (intros ?; discriminate).
  exfalso. apply H. reflexivity.
Qed.

Lemma contains_app (c : ascii) (a b : list ascii) :
  contains c (a ++ b) = contains c a || contains c b.
Proof. unfold contains. apply existsb_app. Qed.

Lemma contains_cons (c x : ascii) (s : list ascii) :
  contains c (x :: s) = Ascii.eqb c x || contains c s.
Proof. reflexivity. Qed.

(** A string all of whose characters come from [t] contains no character
    that [t] does not contain. *)
Lemma contains_incl (c : ascii) (s t : list ascii) :
  s ⊆ t -> contains c t = false -> contains c s = false.
Proof.
  rewrite !contains_false. intros Hsub Hnot Hin. apply Hnot, Hsub, Hin.
Qed.

Lemma find_None (c : ascii) (s : list ascii) :
  find c s = None <-> contains c s = false.
Proof.
  induction s as [|x s IH]; simpl.
  - split; reflexivity.
  - rewrite (Ascii.eqb_sym c x).
    destruct (Ascii.eqb x c); simpl.
    + split; discriminate.
    + rewrite <- IH. destruct (find c s); simpl; split; congruence.
Qed.

Lemma find_Some (c : ascii) (s : list ascii) (i : nat) :
  find c s = Some i ->
  s = take i s ++ c :: drop (S i) s /\ contains c (take i s) = false.
Proof.
  revert i. induction s as [|x s IH]; intros i; simpl.
  - discriminate.
  - destruct (Ascii.eqb x c) eqn:E.
    + intros [= <-]. apply Ascii.eqb_eq in E. subst x. simpl.
      rewrite drop_0. split; reflexivity.
    + destruct (find c s) as [k|] eqn:Ek; simpl; [|discriminate].
      intros [= <-]. destruct (IH k eq_refl) as [Hs Hc].
      simpl. split.
      * f_equal. exact Hs.
      * rewrite (Ascii.eqb_sym c x), E. exact Hc.
Qed.

Lemma find_app (c : ascii) (a b : list ascii) :
  contains c a = false -> find c (a ++ c :: b) = Some (length a).
Proof.
  induction a as [|x a IH]; simpl.
  - intros _. rewrite Ascii.eqb_refl. reflexivity.
  - rewrite (Ascii.eqb_sym c x).
    destruct (Ascii.eqb x c); simpl; [discriminate|].
    intros H. rewrite (IH H). reflexivity.
Qed.

Lemma find_lt (c : ascii) (s : list ascii) (i : nat) :
  find c s = Some i -> (i < length s)%nat.
Proof.
  revert i. induction s as [|x s IH]; intros i; simpl; [discriminate|].
  destruct (Ascii.eqb x c); [intros [= <-]; lia|].
  destruct (find c s) as [k|]; simpl; [|discriminate].
  intros [= <-]. specialize (IH k eq_refl). lia.
Qed.

Lemma partition_found (c : ascii) (a b : list ascii) :
  contains c a = false -> partition c (a ++ c :: b) = (a, true, b).
Proof.
  intros H. unfold partition. rewrite (find_app c a b H).
  rewrite take_app_length.
  replace (S (length a)) with (length (a ++ [c]))
    by (rewrite length_app; simpl; lia).
  replace (a ++ c :: b) with ((a ++ [c]) ++ b)
    by (rewrite <- app_assoc; reflexivity).
  rewrite drop_app_length. reflexivity.
Qed.

Lemma split_once_absent (c : ascii) (s : list ascii) :
  contains c s = false -> split_once c s = (s, []).
Proof. intros H. unfold split_once. rewrite H. reflexivity. Qed.

Lemma split_once_found (c : ascii) (a b : list ascii) :
  contains c a = false -> split_once c (a ++ c :: b) = (a, b).
Proof.
  intros H. unfold split_once.
  rewrite contains_app, contains_cons, Ascii.eqb_refl, orb_true_r.
  rewrite (partition_found c a b H). reflexivity.
Qed.

(** What [split_once] returns: the two parts are made of characters of the
    input, and the first one is a prefix of it without [c]. *)
Lemma split_once_spec (c : ascii) (s a b : list ascii) :
  split_once c s = (a, b) ->
  contains c a = false
  /\ (s = a /\ b = [] \/ s = a ++ c :: b).
Proof.
  unfold split_once. destruct (contains c s) eqn:E.
  - unfold partition. destruct (find c s) as [i|] eqn:Ei.
    + intros [= <- <-]. destruct (find_Some c s i Ei) as [Hs Hc].
      split; [exact Hc|]. right. exact Hs.
    + apply find_None in Ei. congruence.
  - intros [= <- <-]. split; [exact E|]. left. split; reflexivity.
Qed.

(** *** The netloc *)

Lemma span_spec (p : ascii -> bool) (s a b : list ascii) :
  span p s = (a, b) ->
  s = a ++ b /\ forallb p a = true
  /\ (b = [] \/ exists x b', b = x :: b' /\ p x = false).
Proof.
  revert a b. induction s as [|x s IH]; intros a b; simpl.
  - intros [= <- <-]. repeat split. left. reflexivity.
  - destruct (p x) eqn:E.
    + destruct (span p s) as [a' b'] eqn:Es. intros [= <- <-].
      destruct (IH a' b' eq_refl) as (Hs & Ha & Hb).
      simpl. rewrite E, Ha. repeat split; [f_equal; exact Hs|exact Hb].
    + intros [= <- <-]. repeat split. right. exists x, s. split; auto.
Qed.

Lemma span_app (p : ascii -> bool) (a b : list ascii) :
  forallb p a = true ->
  (b = [] \/ exists x b', b = x :: b' /\ p x = false) ->
  span p (a ++ b) = (a, b).
Proof.
  intros Ha Hb. induction a as [|x a IH]; simpl.
  - destruct Hb as [->|(x & b' & -> & Hx)]; simpl; [reflexivity|].
    rewrite Hx. reflexivity.
  - simpl in Ha. apply andb_true_iff in Ha as [Hx Ha].
    rewrite Hx, (IH Ha). reflexivity.
Qed.

Lemma closer_delimiter_S (d : nat) (o : option nat) :
  closer_delimiter (S d) (S <$> o) = S (closer_delimiter d o).
Proof. destruct o; simpl; lia. Qed.

Lemma closer_delimiter_shift (start d : nat) (o : option nat) :
  closer_delimiter (start + d) ((fun k => (start + k)%nat) <$> o)
  = (start + closer_delimiter d o)%nat.
Proof. destruct o; simpl; lia. Qed.

Lemma closer_delimiter_0 (o : option nat) : closer_delimiter 0 o = 0%nat.
Proof. destruct o; simpl; lia. Qed.

Lemma first_delimiter_index (s : list ascii) :
  closer_delimiter
    (closer_delimiter (closer_delimiter (length s) (find "/" s))
       (find "?" s))
    (find "#" s)
  = length (span (fun c => negb (is_netloc_delimiter c)) s).1.
Proof.
  induction s as [|x s IH]; [reflexivity|].
  cbn [find span length].
  unfold is_netloc_delimiter at 1, in_chars.
  cbn [list_ascii_of_string existsb].
  destruct (Ascii.eqb x "/") eqn:E1; cbn [orb negb].
  { cbn [closer_delimiter]. rewrite Nat.min_0_r, !closer_delimiter_0.
    reflexivity. }
  destruct (Ascii.eqb x "?") eqn:E2; cbn [orb negb].
  { cbn [closer_delimiter]. rewrite Nat.min_0_r, !closer_delimiter_0.
    reflexivity. }
  destruct (Ascii.eqb x "#") eqn:E3; cbn [orb negb].
  { cbn [closer_delimiter]. rewrite Nat.min_0_r. reflexivity. }
  rewrite !closer_delimiter_S, IH.
  destruct (span (fun c => negb (is_netloc_delimiter c)) s). reflexivity.
Qed.

Lemma _splitnetloc_span (t : list ascii) :
  _splitnetloc ("/"%char :: "/"%char :: t) 2
  = span (fun c => negb (is_netloc_delimiter c)) t.
Proof.
  unfold _splitnetloc. cbn [list_ascii_of_string fold_left].
  unfold find_from. change (drop 2 ("/"%char :: "/"%char :: t)) with t.
  change (length ("/"%char :: "/"%char :: t)) with (2 + length t)%nat.
  rewrite !closer_delimiter_shift, first_delimiter_index.
  destruct (span (fun c => negb (is_netloc_delimiter c)) t) as [a b] eqn:Es.
  destruct (span_spec _ _ _ _ Es) as (Ht & _ & _).
  cbn [fst]. replace (2 + length a - 2)%nat with (length a) by lia.
  change (drop (2 + length a) ("/"%char :: "/"%char :: t))
    with (drop (length a) t).
  subst t. rewrite take_app_length, drop_app_length. reflexivity.
Qed.

Lemma _splitnetloc_spec (t n r : list ascii) :
  _splitnetloc ("/"%char :: "/"%char :: t) 2 = (n, r) ->
  t = n ++ r /\ delimiter_free n = true
  /\ (r = [] \/ exists x r', r = x :: r' /\ is_netloc_delimiter x = true).
Proof.
  rewrite _splitnetloc_span. intros Hs.
  destruct (span_spec _ _ _ _ Hs) as (Ht & Hn & Hr).
  split; [exact Ht|]. split; [exact Hn|].
  destruct Hr as [->|(x & r' & -> & Hx)]; [left; reflexivity|].
  right. exists x, r'. split; [reflexivity|].
  apply negb_false_iff, Hx.
Qed.

Lemma _splitnetloc_app (n r : list ascii) :
  delimiter_free n = true ->
  (r = [] \/ exists x r', r = x :: r' /\ is_netloc_delimiter x = true) ->
  _splitnetloc ("/"%char :: "/"%char :: n ++ r) 2 = (n, r).
Proof.
  intros Hn Hr. rewrite _splitnetloc_span. apply span_app; [exact Hn|].
  destruct Hr as [->|(x & r' & -> & Hx)]; [left; reflexivity|].
  right. exists x, r'. split; [reflexivity|]. rewrite Hx. reflexivity.
Qed.

(** *** Facts about single characters *)

Lemma scheme_char_facts (c : ascii) :
  in_chars c scheme_chars = true ->
  Ascii.eqb c ":" = false
  /\ is_unsafe_url_byte c = false
  /\ is_c0_control_or_space c = false
  /\ Ascii.eqb c "#" = false
  /\ in_chars (ascii_lower c) scheme_chars = true.
Proof.
  destruct c as [[] [] [] [] [] [] [] []]; vm_compute;
    first [ discriminate | intros _; repeat split ].
Qed.

Lemma ascii_lower_alpha (c : ascii) :
  isascii_alpha c = true -> isascii_alpha (ascii_lower c) = true.
Proof.
  destruct c as [[] [] [] [] [] [] [] []]; vm_compute;
    first [ discriminate | reflexivity ].
Qed.

Lemma ascii_lower_idem (c : ascii) :
  ascii_lower (ascii_lower c) = ascii_lower c.
Proof.
  destruct c as [[] [] [] [] [] [] [] []]; vm_compute; reflexivity.
Qed.

Lemma alpha_not_c0 (c : ascii) :
  isascii_alpha c = true -> is_c0_control_or_space c = false.
Proof.
  destruct c as [[] [] [] [] [] [] [] []]; vm_compute;
    first [ discriminate | reflexivity ].
Qed.

Lemma lower_idem (s : list ascii) : lower (lower s) = lower s.
Proof.
  unfold lower. rewrite map_map. apply map_ext. intros c.
  apply ascii_lower_idem.
Qed.

(** *** Inclusion of characters *)

Lemma forallb_incl (p : ascii -> bool) (s t : list ascii) :
  s ⊆ t -> forallb p t = true -> forallb p s = true.
Proof.
  intros Hsub Ht. apply forallb_forall. intros c Hc.
  rewrite forallb_forall in Ht. apply Ht.
  apply list_elem_of_In, Hsub, list_elem_of_In, Hc.
Qed.

Lemma app_cons_incl_l (c : ascii) (a b : list ascii) : a ⊆ a ++ c :: b.
Proof. intros x Hx. apply elem_of_app. left. exact Hx. Qed.

Lemma app_cons_incl_r (c : ascii) (a b : list ascii) : b ⊆ a ++ c :: b.
Proof.
  intros x Hx. apply elem_of_app. right. apply elem_of_cons. right. exact Hx.
Qed.

Lemma split_once_incl (c : ascii) (s a b : list ascii) :
  split_once c s = (a, b) -> a ⊆ s /\ b ⊆ s.
Proof.
  intros H. destruct (split_once_spec c s a b H) as [_ [[-> ->]| ->]].
  - split; [reflexivity|]. intros x Hx. inversion Hx.
  - split; [apply app_cons_incl_l|apply app_cons_incl_r].
Qed.

(** *** Stripping *)

Lemma strip_url_safe (u : list ascii) : url_safe (strip_url u) = true.
Proof.
  unfold url_safe, strip_url. apply forallb_forall. intros c Hc.
  apply filter_In in Hc. apply Hc.
Qed.

Lemma filter_safe (v : list ascii) :
  url_safe v = true ->
  List.filter (fun c => negb (is_unsafe_url_byte c)) v = v.
Proof.
  unfold url_safe. induction v as [|c v IH]; simpl; [reflexivity|].
  intros H. apply andb_true_iff in H as [Hc Hv]. rewrite Hc, (IH Hv).
  reflexivity.
Qed.

Lemma strip_url_fixed (c : ascii) (v : list ascii) :
  is_c0_control_or_space c = false -> url_safe (c :: v) = true ->
  strip_url (c :: v) = c :: v.
Proof.
  intros Hc Hs. unfold strip_url. cbn [lstrip]. rewrite Hc.
  apply filter_safe, Hs.
Qed.

(** *** The scheme *)

Lemma scheme_chars_lower (s : list ascii) :
  forallb (fun c => in_chars c scheme_chars) s = true ->
  forallb (fun c => in_chars c scheme_chars) (lower s) = true.
Proof.
  induction s as [|c s IH]; simpl; [reflexivity|].
  intros H. apply andb_true_iff in H as [Hc Hs].
  rewrite (IH Hs), andb_true_r. apply scheme_char_facts, Hc.
Qed.

Lemma scheme_chars_no_colon (s : list ascii) :
  forallb (fun c => in_chars c scheme_chars) s = true ->
  contains ":" s = false.
Proof.
  induction s as [|c s IH]; [reflexivity|].
  cbn [forallb]. intros H. apply andb_true_iff in H as [Hc Hs].
  rewrite contains_cons, (IH Hs), orb_false_r, Ascii.eqb_sym.
  apply scheme_char_facts, Hc.
Qed.

Lemma scheme_chars_no_hash (s : list ascii) :
  forallb (fun c => in_chars c scheme_chars) s = true ->
  contains "#" s = false.
Proof.
  induction s as [|c s IH]; [reflexivity|].
  cbn [forallb]. intros H. apply andb_true_iff in H as [Hc Hs].
  rewrite contains_cons, (IH Hs), orb_false_r, Ascii.eqb_sym.
  apply scheme_char_facts, Hc.
Qed.

Lemma scheme_chars_safe (s : list ascii) :
  forallb (fun c => in_chars c scheme_chars) s = true -> url_safe s = true.
Proof.
  unfold url_safe. induction s as [|c s IH]; simpl; [reflexivity|].
  intros H. apply andb_true_iff in H as [Hc Hs].
  rewrite (IH Hs), andb_true_r. apply negb_true_iff.
  apply scheme_char_facts, Hc.
Qed.

Lemma split_scheme_spec (url s rest : list ascii) :
  split_scheme url = (s, rest) -> scheme_ok s /\ rest ⊆ url.
Proof.
  unfold split_scheme. destruct (find ":" url) as [i|] eqn:Ei.
  - destruct ((0 <? i)%nat
              && match url with c :: _ => isascii_alpha c | [] => false end
              && forallb (fun c => in_chars c scheme_chars) (take i url))
      eqn:Econd.
    + intros [= <- <-].
      apply andb_true_iff in Econd as [Econd Hchars].
      apply andb_true_iff in Econd as [Hi Halpha].
      apply Nat.ltb_lt in Hi.
      destruct url as [|c url]; [discriminate|].
      destruct i as [|i]; [lia|]. cbn [take] in *.
      split; [|apply subseteq_drop].
      right. exists (ascii_lower c), (lower (take i url)).
      split; [reflexivity|]. split; [apply ascii_lower_alpha, Halpha|].
      split; [apply (scheme_chars_lower (c :: take i url)), Hchars|].
      apply (lower_idem (c :: take i url)).
    + intros [= <- <-]. split; [left; reflexivity|reflexivity].
  - intros [= <- <-]. split; [left; reflexivity|reflexivity].
Qed.

Lemma split_scheme_app (c : ascii) (s r : list ascii) :
  isascii_alpha c = true ->
  forallb (fun c => in_chars c scheme_chars) (c :: s) = true ->
  lower (c :: s) = c :: s ->
  split_scheme ((c :: s) ++ ":"%char :: r) = (c :: s, r).
Proof.
  intros Halpha Hchars Hlower. unfold split_scheme.
  rewrite (find_app ":" (c :: s) r (scheme_chars_no_colon _ Hchars)).
  rewrite take_app_length, Hchars, Hlower.
  cbn [app length Nat.ltb Nat.leb andb]. rewrite Halpha. cbn [andb].
  f_equal.
  change (drop (S (S (length s))) (c :: s ++ ":"%char :: r))
    with (drop (S (length s)) (s ++ ":"%char :: r)).
  replace (S (length s)) with (length (s ++ [":"%char]))
    by (rewrite length_app; simpl; lia).
  replace (s ++ ":"%char :: r) with ((s ++ [":"%char]) ++ r)
    by (rewrite <- app_assoc; reflexivity).
  apply drop_app_length.
Qed.

Lemma split_scheme_slash (r : list ascii) :
  split_scheme ("/"%char :: r) = ([], "/"%char :: r).
Proof.
  unfold split_scheme. destruct (find ":" ("/"%char :: r)); [|reflexivity].
  change (isascii_alpha "/") with false.
  rewrite andb_false_r. reflexivity.
Qed.

(** *** One parse *)

Lemma double_slash_spec (s : list ascii) :
  double_slash s = true <-> exists t, s = "/"%char :: "/"%char :: t.
Proof.
  split.
  - destruct s as [|a [|b t]]; simpl; try discriminate.
    intros H. apply andb_true_iff in H as [Ha Hb].
    apply Ascii.eqb_eq in Ha, Hb. subst. exists t. reflexivity.
  - intros [t ->]. reflexivity.
Qed.

Lemma delimiter_is_not_free (x : ascii) (r : list ascii) :
  is_netloc_delimiter x = true -> delimiter_free (x :: r) = false.
Proof. intros H. unfold delimiter_free. simpl. rewrite H. reflexivity. Qed.

Lemma split_netloc_spec (lib : PyStdlib) (url n r : list ascii) :
  split_netloc lib url = Return (n, r) ->
  delimiter_free n = true
  /\ check_brackets lib n = Return tt
  /\ n ⊆ url /\ r ⊆ url
  /\ (n <> [] ->
      r = [] \/ exists x r', r = x :: r' /\ is_netloc_delimiter x = true).
Proof.
  unfold split_netloc. destruct (double_slash url) eqn:Ed.
  - apply double_slash_spec in Ed as [t ->].
    destruct (_splitnetloc ("/"%char :: "/"%char :: t) 2) as [n0 r0] eqn:Es.
    destruct (check_brackets lib n0) as [[]|e] eqn:Ec; [|discriminate].
    intros [= <- <-].
    destruct (_splitnetloc_spec t n0 r0 Es) as (Ht & Hn & Hr).
    split; [exact Hn|]. split; [exact Ec|]. subst t.
    split; [|split; [|intros _; exact Hr]];
      intros c Hc; do 2 (apply elem_of_cons; right);
      apply elem_of_app; [left|right]; exact Hc.
  - intros [= <- <-]. split; [reflexivity|]. split; [reflexivity|].
    split; [intros c Hc; inversion Hc|]. split; [reflexivity|].
    intros H. contradiction.
Qed.

Lemma delimiter_cases (c : ascii) :
  is_netloc_delimiter c = true ->
  Ascii.eqb "#" c = false -> Ascii.eqb "?" c = false -> c = "/"%char.
Proof.
  unfold is_netloc_delimiter, in_chars.
  cbn [list_ascii_of_string existsb].
  rewrite (Ascii.eqb_sym "#" c), (Ascii.eqb_sym "?" c).
  intros H H1 H2. rewrite H1, H2 in H. rewrite !orb_false_r in H.
  apply Ascii.eqb_eq, H.
Qed.

Lemma split_once_prefix (c : ascii) (s a b : list ascii) :
  split_once c s = (a, b) -> exists w, s = a ++ w.
Proof.
  intros H. destruct (split_once_spec c s a b H) as [_ [[-> ->]| ->]].
  - exists []. rewrite app_nil_r. reflexivity.
  - eexists. reflexivity.
Qed.

(** The path that follows a non-empty netloc is empty or begins with a
    slash. *)
Lemma path_after_netloc_rooted (u3 u4 f x q : list ascii) :
  (u3 = [] \/ exists d r, u3 = d :: r /\ is_netloc_delimiter d = true) ->
  split_once "#" u3 = (u4, f) ->
  split_once "?" u4 = (x, q) ->
  rooted x.
Proof.
  intros Hd H3 H4.
  destruct (split_once_prefix _ _ _ _ H3) as [w3 Hw3].
  destruct (split_once_prefix _ _ _ _ H4) as [w4 Hw4].
  destruct (split_once_spec _ _ _ _ H3) as [Hhash _].
  destruct (split_once_spec _ _ _ _ H4) as [Hq _].
  destruct x as [|c x']; [left; reflexivity|]. right. exists x'. f_equal.
  subst u4. rewrite contains_app, contains_cons in Hhash.
  apply orb_false_iff in Hhash as [Hhash _].
  apply orb_false_iff in Hhash as [Hhash _].
  rewrite contains_cons in Hq. apply orb_false_iff in Hq as [Hq _].
  destruct Hd as [->|(d & r & -> & Hdel)]; [discriminate Hw3|].
  injection Hw3 as <- _.
  apply delimiter_cases; assumption.
Qed.

(** What every successful [urlsplit] returns. *)
Lemma urlsplit_invariants (lib : PyStdlib) (u s n x q f : list ascii) :
  urlsplit lib u = Return (s, n, x, q, f) ->
  scheme_ok s
  /\ delimiter_free n = true
  /\ check_brackets lib n = Return tt
  /\ _checknetloc lib n = Return tt
  /\ url_safe n = true /\ url_safe x = true /\ url_safe q = true
  /\ contains "#" x = false /\ contains "?" x = false
  /\ contains "#" q = false
  /\ (n <> [] -> rooted x).
Proof.
  unfold urlsplit.
  destruct (split_scheme (strip_url u)) as [s0 u2] eqn:E1.
  destruct (split_netloc lib u2) as [[n0 u3]|e] eqn:E2; [|discriminate].
  destruct (split_once "#" u3) as [u4 f0] eqn:E3.
  destruct (split_once "?" u4) as [x0 q0] eqn:E4.
  destruct (_checknetloc lib n0) as [[]|e] eqn:E5; [|discriminate].
  intros [= <- <- <- <- <-].
  destruct (split_scheme_spec _ _ _ E1) as [Hs Hu2].
  destruct (split_netloc_spec _ _ _ _ E2) as (Hn & Hb & Hnu & Hu3 & Hd).
  destruct (split_once_incl _ _ _ _ E3) as [Hu4 _].
  destruct (split_once_incl _ _ _ _ E4) as [Hx Hq].
  destruct (split_once_spec _ _ _ _ E3) as [Hhash _].
  destruct (split_once_spec _ _ _ _ E4) as [Hqm _].
  pose proof (strip_url_safe u) as Hsafe.
  assert (Hsafe2 : url_safe u2 = true)
    by (apply (forallb_incl _ _ _ Hu2), Hsafe).
  assert (Hsafe4 : url_safe u4 = true).
  { apply (forallb_incl _ u4 u2); [|exact Hsafe2].
    etrans; [exact Hu4|exact Hu3]. }
  split; [exact Hs|]. split; [exact Hn|]. split; [exact Hb|].
  split; [exact E5|].
  split; [apply (forallb_incl _ _ _ Hnu), Hsafe2|].
  split; [apply (forallb_incl _ _ _ Hx), Hsafe4|].
  split; [apply (forallb_incl _ _ _ Hq), Hsafe4|].
  split; [apply (contains_incl _ _ _ Hx), Hhash|].
  split; [exact Hqm|].
  split; [apply (contains_incl _ _ _ Hq), Hhash|].
  intros Hne. apply (path_after_netloc_rooted u3 u4 f0 x0 q0); auto.
Qed.

(** *** Parsing what [urlunsplit] built *)

Lemma url_safe_app (a b : list ascii) :
  url_safe (a ++ b) = url_safe a && url_safe b.
Proof. unfold url_safe. apply forallb_app. Qed.

Lemma scheme_ok_safe (s : list ascii) : scheme_ok s -> url_safe s = true.
Proof.
  intros [->|(c & s' & -> & _ & Hchars & _)]; [reflexivity|].
  apply scheme_chars_safe, Hchars.
Qed.

Lemma strip_url_with_netloc (s n x q : list ascii) :
  scheme_ok s -> url_safe n = true -> url_safe x = true ->
  url_safe q = true ->
  strip_url (url_with_netloc s n x q) = url_with_netloc s n x q.
Proof.
  intros Hs Hn Hx Hq.
  assert (Hsafe : url_safe (url_with_netloc s n x q) = true).
  { unfold url_with_netloc. rewrite url_safe_app.
    apply andb_true_iff. split.
    - destruct (nonempty s); [|reflexivity].
      rewrite url_safe_app, (scheme_ok_safe s Hs). reflexivity.
    - change (url_safe ("/"%char :: "/"%char :: n ++ x
                        ++ (if nonempty q then "?"%char :: q else [])))
        with (url_safe (n ++ x ++ (if nonempty q then "?"%char :: q else []))).
      rewrite !url_safe_app, Hn, Hx. destruct (nonempty q); [|reflexivity].
      exact Hq. }
  destruct Hs as [->|(c & s' & -> & Halpha & _)].
  - apply strip_url_fixed; [reflexivity|exact Hsafe].
  - apply strip_url_fixed; [apply alpha_not_c0, Halpha|exact Hsafe].
Qed.

Lemma split_scheme_with_netloc (s n x q : list ascii) :
  scheme_ok s ->
  split_scheme (url_with_netloc s n x q)
  = (s, "/"%char :: "/"%char :: n ++ x
        ++ (if nonempty q then "?"%char :: q else [])).
Proof.
  intros [->|(c & s' & -> & Halpha & Hchars & Hlower)].
  - apply split_scheme_slash.
  - unfold url_with_netloc. cbn [nonempty]. rewrite <- app_assoc.
    apply split_scheme_app; assumption.
Qed.

Lemma urlsplit_url_with_netloc (lib : PyStdlib) (s n x q : list ascii) :
  scheme_ok s ->
  delimiter_free n = true ->
  check_brackets lib n = Return tt ->
  _checknetloc lib n = Return tt ->
  url_safe n = true -> url_safe x = true -> url_safe q = true ->
  contains "#" x = false -> contains "?" x = false ->
  contains "#" q = false ->
  rooted x ->
  urlsplit lib (url_with_netloc s n x q) = Return (s, n, x, q, []).
Proof.
  intros Hs Hn Hb Hc Hsn Hsx Hsq Hhx Hqx Hhq Hroot.
  unfold urlsplit.
  rewrite (strip_url_with_netloc s n x q Hs Hsn Hsx Hsq).
  rewrite (split_scheme_with_netloc s n x q Hs).
  set (tail := x ++ (if nonempty q then "?"%char :: q else [])).
  assert (Hnet : split_netloc lib ("/"%char :: "/"%char :: n ++ tail)
                 = Return (n, tail)).
  { unfold split_netloc. cbn [double_slash]. rewrite !Ascii.eqb_refl.
    cbn [andb]. rewrite (_splitnetloc_app n tail Hn).
    - rewrite Hb. reflexivity.
    - subst tail. destruct Hroot as [->|[x' ->]].
      + destruct q; [left; reflexivity|].
        right. eexists _, _. split; reflexivity.
      + right. eexists _, _. split; reflexivity. }
  rewrite Hnet.
  assert (Hfrag : split_once "#" tail = (tail, [])).
  { apply split_once_absent. subst tail. rewrite contains_app, Hhx.
    destruct q; [reflexivity|]. exact Hhq. }
  rewrite Hfrag.
  assert (Hquery : split_once "?" tail = (x, q)).
  { subst tail. destruct q as [|c q].
    - cbn [nonempty]. rewrite app_nil_r. apply split_once_absent, Hqx.
    - cbn [nonempty]. apply split_once_found, Hqx. }
  rewrite Hquery, Hc. reflexivity.
Qed.

Lemma urlunsplit_with_netloc (s n x q : list ascii) :
  n <> [] -> rooted x ->
  urlunsplit s n x q [] = url_with_netloc s n x q.
Proof.
  intros Hn Hroot. unfold urlunsplit, url_with_netloc.
  destruct n as [|c n]; [contradiction|]. cbn [nonempty orb].
  assert (Hslash :
    match x with
    | c0 :: _ => if negb (Ascii.eqb c0 "/") then "/"%char :: x else x
    | [] => x
    end = x).
  { destruct Hroot as [->|[x' ->]]; reflexivity. }
  rewrite Hslash.
  destruct (nonempty s), (nonempty q); cbn [app];
    rewrite <- ?app_assoc; cbn [app]; rewrite <- ?app_assoc;
    rewrite ?app_nil_r; reflexivity.
Qed.

(** *** The parameters *)

Lemma rfind_app_last (c d : ascii) (l : list ascii) :
  Ascii.eqb d c = false -> rfind c (l ++ [d]) = rfind c l.
Proof.
  intros Hd. induction l as [|x l IH]; cbn [app rfind].
  - rewrite Hd. reflexivity.
  - rewrite IH. reflexivity.
Qed.

Lemma rfind_lt (c : ascii) (l : list ascii) (r : nat) :
  rfind c l = Some r -> (r < length l)%nat.
Proof.
  revert r. induction l as [|x l IH]; intros r; cbn [rfind length].
  - discriminate.
  - destruct (rfind c l) as [k|].
    + intros [= <-]. specialize (IH k eq_refl). lia.
    + destruct (Ascii.eqb x c); [intros [= <-]; lia|discriminate].
Qed.

Lemma find_from_Some (c : ascii) (x : list ascii) (r i : nat) :
  find_from c x r = Some i ->
  (r <= i)%nat
  /\ x = take i x ++ c :: drop (S i) x
  /\ contains c (take (i - r) (drop r x)) = false.
Proof.
  unfold find_from. destruct (find c (drop r x)) as [k|] eqn:Ek;
    [|discriminate].
  cbn. intros [= <-]. destruct (find_Some c _ k Ek) as [Hd Hc].
  split; [lia|]. split.
  - rewrite <- (take_take_drop x r k).
    replace (S (r + k)) with (r + S k)%nat by lia.
    rewrite <- drop_drop. rewrite <- app_assoc, <- Hd.
    symmetry. apply take_drop.
  - replace (r + k - r)%nat with k by lia. exact Hc.
Qed.

Lemma take_drop_last (p : list ascii) (c : ascii) (i : nat) :
  p ++ [c] = take i (p ++ [c]) ++ c :: drop (S i) (p ++ [c]) ->
  drop (S i) (p ++ [c]) = [] ->
  i = length p.
Proof.
  intros Heq Hnil. rewrite Hnil in Heq.
  apply (f_equal length) in Heq. rewrite !length_app in Heq.
  cbn [length] in Heq.
  assert (Hlen : (length (take i (p ++ [c])) = length p)%nat) by lia.
  rewrite length_take, length_app in Hlen. cbn [length] in Hlen.
  assert (Hd : length (drop (S i) (p ++ [c])) = 0%nat)
    by (rewrite Hnil; reflexivity).
  rewrite length_drop, length_app in Hd. cbn [length] in Hd. lia.
Qed.

(** [split_params] either splits at a real parameter, so that joining
    gives the path back, or drops a trailing semicolon and leaves a path
    that it will not split again. *)
Lemma split_params_cases (s x p pa : list ascii) :
  split_params s x = (p, pa) ->
  join_params p pa = x
  \/ (pa = [] /\ x = p ++ [";"%char] /\ split_params s p = (p, [])).
Proof.
  unfold split_params.
  destruct (scheme_in s uses_params) eqn:Es; cbn [andb];
    [|intros [= <- <-]; left; reflexivity].
  destruct (contains ";" x) eqn:Esemi;
    [|intros [= <- <-]; left; reflexivity].
  unfold _splitparams.
  destruct (contains "/" x) eqn:Eslash.
  - destruct (find_from ";" x (default 0%nat (rfind "/" x))) as [i|] eqn:Ei;
      [|intros [= <- <-]; left; reflexivity].
    intros [= <- <-].
    destruct (find_from_Some _ _ _ _ Ei) as (Hri & Hx & Hc).
    destruct (drop (S i) x) as [|a pa'] eqn:Epa.
    + right. split; [reflexivity|]. split; [exact Hx|].
      remember (take i x) as p eqn:Hp.
      assert (Hi : i = length p).
      { apply (take_drop_last p ";").
        - rewrite <- Hx, <- Hp, Epa. exact Hx.
        - rewrite <- Hx. exact Epa. }
      destruct (contains ";" p) eqn:Esp; [|reflexivity].
      assert (Hslash_p : contains "/" p = true).
      { rewrite Hx, contains_app in Eslash. cbn in Eslash.
        rewrite orb_false_r in Eslash. exact Eslash. }
      rewrite Hslash_p.
      assert (Hr : rfind "/" p = rfind "/" x).
      { rewrite Hx. symmetry. apply rfind_app_last. reflexivity. }
      rewrite Hr.
      remember (default 0%nat (rfind "/" x)) as r eqn:Hrdef.
      assert (Hdrop : drop r x = drop r p ++ [";"%char]).
      { rewrite Hx. apply drop_app_le. lia. }
      rewrite Hdrop in Hc.
      replace (i - r)%nat with (length (drop r p)) in Hc
        by (rewrite length_drop; lia).
      rewrite take_app_length in Hc.
      unfold find_from. apply find_None in Hc. rewrite Hc. reflexivity.
    + left. unfold join_params. cbn [nonempty]. symmetry. exact Hx.
  - destruct (find ";" x) as [i|] eqn:Ei.
    + intros [= <- <-]. destruct (find_Some _ _ _ Ei) as [Hx Hc].
      destruct (drop (S i) x) as [|a pa'] eqn:Epa.
      * right. split; [reflexivity|]. split; [exact Hx|].
        rewrite Hc. reflexivity.
      * left. unfold join_params. cbn [nonempty]. symmetry. exact Hx.
    + apply find_None in Ei. congruence.
Qed.

Lemma join_params_properties (s x p pa : list ascii) :
  split_params s x = (p, pa) ->
  join_params p pa ⊆ x
  /\ (rooted x -> rooted (join_params p pa))
  /\ exists p2 pa2,
       split_params s (join_params p pa) = (p2, pa2)
       /\ join_params p2 pa2 = join_params p pa.
Proof.
  intros Hsplit.
  destruct (split_params_cases s x p pa Hsplit)
    as [Hj|(-> & Hx & Hagain)].
  - rewrite Hj. split; [reflexivity|]. split; [auto|].
    exists p, pa. split; [exact Hsplit|exact Hj].
  - unfold join_params at 1 2 3. cbn [nonempty]. split; [|split].
    + rewrite Hx. intros c Hc. apply elem_of_app. left. exact Hc.
    + intros [Hnil|[x' Hx']].
      * rewrite Hnil in Hx. destruct p; discriminate Hx.
      * rewrite Hx' in Hx. destruct p as [|c p]; [left; reflexivity|].
        right. exists p. injection Hx as <- _. reflexivity.
    + exists p, []. split; [exact Hagain|reflexivity].
Qed.

Lemma delimiter_free_no_hash (n : list ascii) :
  delimiter_free n = true -> contains "#" n = false.
Proof.
  unfold delimiter_free. induction n as [|c n IH]; [reflexivity|].
  cbn [forallb]. intros H. apply andb_true_iff in H as [Hc Hn].
  rewrite contains_cons, (IH Hn), orb_false_r.
  apply negb_true_iff in Hc.
  unfold is_netloc_delimiter, in_chars in Hc.
  cbn [list_ascii_of_string existsb] in Hc.
  apply orb_false_iff in Hc as [_ Hc]. apply orb_false_iff in Hc as [_ Hc].
  apply orb_false_iff in Hc as [Hc _]. rewrite Ascii.eqb_sym. exact Hc.
Qed.

Lemma scheme_ok_no_hash (s : list ascii) :
  scheme_ok s -> contains "#" s = false.
Proof.
  intros [->|(c & s' & -> & _ & Hchars & _)]; [reflexivity|].
  apply scheme_chars_no_hash, Hchars.
Qed.

(** [urlunsplit] without a fragment puts no [#] into the URL when its
    components have none. *)
Lemma urlunsplit_no_hash (s n x q : list ascii) :
  contains "#" s = false -> contains "#" n = false ->
  contains "#" x = false -> contains "#" q = false ->
  contains "#" (urlunsplit s n x q []) = false.
Proof.
  intros Hs Hn Hx Hq. unfold urlunsplit. cbn [nonempty].
  assert (Hsl : contains "#"
                  match x with
                  | c :: _ =>
                      if negb (Ascii.eqb c "/") then "/"%char :: x else x
                  | [] => x
                  end = false).
  { destruct x as [|c x']; [reflexivity|].
    destruct (negb (Ascii.eqb c "/")); [|exact Hx].
    rewrite contains_cons, Hx. reflexivity. }
  repeat match goal with
         | |- context [if ?b then _ else _] => destruct b
         end;
    rewrite ?contains_app, ?contains_cons, ?contains_app, ?contains_cons,
      ?contains_app, ?Hs, ?Hn, ?Hx, ?Hq, ?Hsl; reflexivity.
Qed.

(** *** Normalisation *)

(** A parse followed by [urlunparse] without the fragment, on a URL with a
    netloc, gives a URL that parses to components which give it back. *)
Lemma urlunparse_urlparse_fixed (lib : PyStdlib)
  (u s n p pa q f : list ascii) :
  urlparse lib u = Return (s, n, p, pa, q, f) ->
  n <> [] ->
  exists p2 pa2,
    urlparse lib (urlunparse s n p pa q []) = Return (s, n, p2, pa2, q, [])
    /\ urlunparse s n p2 pa2 q [] = urlunparse s n p pa q [].
Proof.
  unfold urlparse.
  destruct (urlsplit lib u) as [[[[[s0 n0] x] q0] f0]|e] eqn:Esplit;
    [|discriminate].
  destruct (split_params s0 x) as [p0 pa0] eqn:Eparams.
  intros [= <- <- <- <- <- <-] Hn.
  destruct (urlsplit_invariants _ _ _ _ _ _ _ Esplit)
    as (Hs & Hdf & Hb & Hc & Hsn & Hsx & Hsq & Hhx & Hqx & Hhq & Hroot).
  destruct (join_params_properties _ _ _ _ Eparams)
    as (Hsub & Hrooted & p2 & pa2 & Hagain & Hjoin).
  specialize (Hrooted (Hroot Hn)).
  assert (Hun : forall a b,
            urlunparse s0 n0 a b q0 []
            = urlunsplit s0 n0 (join_params a b) q0 []) by reflexivity.
  rewrite !Hun, (urlunsplit_with_netloc _ _ _ _ Hn Hrooted).
  rewrite (urlsplit_url_with_netloc lib s0 n0 (join_params p0 pa0) q0);
    try assumption.
  - exists p2, pa2. rewrite Hagain. split; [reflexivity|].
    rewrite Hun, Hjoin. apply urlunsplit_with_netloc; assumption.
  - apply (forallb_incl _ _ _ Hsub), Hsx.
  - apply (contains_incl _ _ _ Hsub), Hhx.
  - apply (contains_incl _ _ _ Hsub), Hqx.
Qed.

Lemma urlunparse_no_hash (lib : PyStdlib) (u s n p pa q f : list ascii) :
  urlparse lib u = Return (s, n, p, pa, q, f) ->
  contains "#" (urlunparse s n p pa q []) = false.
Proof.
  unfold urlparse.
  destruct (urlsplit lib u) as [[[[[s0 n0] x] q0] f0]|e] eqn:Esplit;
    [|discriminate].
  destruct (split_params s0 x) as [p0 pa0] eqn:Eparams.
  intros [= <- <- <- <- <- <-].
  destruct (urlsplit_invariants _ _ _ _ _ _ _ Esplit)
    as (Hs & Hdf & Hb & Hc & Hsn & Hsx & Hsq & Hhx & Hqx & Hhq & Hroot).
  destruct (join_params_properties _ _ _ _ Eparams) as (Hsub & _).
  change (urlunparse s0 n0 p0 pa0 q0 [])
    with (urlunsplit s0 n0 (join_params p0 pa0) q0 []).
  apply urlunsplit_no_hash.
  - apply scheme_ok_no_hash, Hs.
  - apply delimiter_free_no_hash, Hdf.
  - apply (contains_incl _ _ _ Hsub), Hhx.
  - exact Hhq.
Qed.

(** *** URLs without a netloc *)

Lemma split_scheme_found (c : ascii) (a b : list ascii) :
  isascii_alpha c = true ->
  forallb (fun c => in_chars c scheme_chars) (c :: a) = true ->
  split_scheme ((c :: a) ++ ":"%char :: b) = (lower (c :: a), b).
Proof.
  intros Halpha Hchars. unfold split_scheme.
  rewrite (find_app ":" (c :: a) b (scheme_chars_no_colon _ Hchars)).
  rewrite take_app_length, Hchars.
  cbn [app length Nat.ltb Nat.leb andb]. rewrite Halpha. cbn [andb].
  f_equal.
  change (drop (S (S (length a))) (c :: a ++ ":"%char :: b))
    with (drop (S (length a)) (a ++ ":"%char :: b)).
  replace (S (length a)) with (length (a ++ [":"%char]))
    by (rewrite length_app; simpl; lia).
  replace (a ++ ":"%char :: b) with ((a ++ [":"%char]) ++ b)
    by (rewrite <- app_assoc; reflexivity).
  apply drop_app_length.
Qed.

Lemma split_scheme_none (y : list ascii) :
  ~ has_scheme y -> split_scheme y = ([], y).
Proof.
  intros Hno. unfold split_scheme.
  destruct (find ":" y) as [i|] eqn:Ei; [|reflexivity].
  destruct ((0 <? i)%nat
            && match y with c :: _ => isascii_alpha c | [] => false end
            && forallb (fun c => in_chars c scheme_chars) (take i y))
    eqn:Econd; [|reflexivity].
  exfalso. apply Hno.
  apply andb_true_iff in Econd as [Econd Hchars].
  apply andb_true_iff in Econd as [Hi Halpha].
  apply Nat.ltb_lt in Hi.
  destruct (find_Some _ _ _ Ei) as [Hy _].
  destruct y as [|c y]; [discriminate|].
  destruct i as [|i]; [lia|]. cbn [take] in *.
  exists c, (take i y), (drop (S (S i)) (c :: y)).
  split; [exact Hy|]. split; assumption.
Qed.

Lemma split_scheme_empty (url r : list ascii) :
  split_scheme url = ([], r) -> r = url /\ ~ has_scheme url.
Proof.
  intros H. split.
  - unfold split_scheme in H.
    destruct (find ":" url) as [i|]; [|injection H as <-; reflexivity].
    destruct ((0 <? i)%nat && _ && _) eqn:Econd;
      [|injection H as <-; reflexivity].
    apply andb_true_iff in Econd as [Econd _].
    apply andb_true_iff in Econd as [Hi Halpha]. apply Nat.ltb_lt in Hi.
    destruct url as [|c url]; [discriminate Halpha|].
    destruct i; [lia|]. discriminate H.
  - intros (c & a & b & -> & Halpha & Hchars).
    rewrite (split_scheme_found c a b Halpha Hchars) in H. discriminate H.
Qed.

Lemma has_scheme_extend (y w : list ascii) :
  has_scheme y -> has_scheme (y ++ w).
Proof.
  intros (c & a & b & -> & Halpha & Hchars).
  exists c, a, (b ++ w). split; [|split; assumption].
  rewrite <- app_assoc. reflexivity.
Qed.

Lemma scheme_chars_no_question (s : list ascii) :
  forallb (fun c => in_chars c scheme_chars) s = true ->
  contains "?" s = false.
Proof.
  induction s as [|c s IH]; [reflexivity|].
  cbn [forallb]. intros H. apply andb_true_iff in H as [Hc Hs].
  rewrite contains_cons, (IH Hs), orb_false_r.
  destruct c as [[] [] [] [] [] [] [] []]; vm_compute in Hc |- *;
    first [ discriminate Hc | reflexivity ].
Qed.

Lemma has_scheme_before_query (x q : list ascii) :
  has_scheme (x ++ "?"%char :: q) -> has_scheme x.
Proof.
  intros (c & a & b & Heq & Halpha & Hchars).
  pose proof (scheme_chars_no_question _ Hchars) as Hnoq.
  symmetry in Heq. apply app_eq_app in Heq as [l [[Ha Hl]|[Hx Hl]]].
  - destruct l as [|d l].
    + cbn in Hl. discriminate Hl.
    + injection Hl as <- _. rewrite Ha, contains_app, contains_cons in Hnoq.
      rewrite Ascii.eqb_refl, orb_true_r in Hnoq. discriminate Hnoq.
  - destruct l as [|d l].
    + cbn in Hl. discriminate Hl.
    + injection Hl as <- _. exists c, a, l. split; [exact Hx|].
      split; assumption.
Qed.

Lemma unsafe_is_c0 (c : ascii) :
  is_c0_control_or_space c = false -> is_unsafe_url_byte c = false.
Proof.
  destruct c as [[] [] [] [] [] [] [] []]; vm_compute;
    first [ discriminate | reflexivity ].
Qed.

Lemma lstrip_starts_visible (s : list ascii) :
  starts_visible (lstrip is_c0_control_or_space s).
Proof.
  induction s as [|c s IH]; cbn [lstrip]; [left; reflexivity|].
  destruct (is_c0_control_or_space c) eqn:E; [exact IH|].
  right. exists c, s. split; [reflexivity|exact E].
Qed.

Lemma strip_url_starts_visible (u : list ascii) :
  starts_visible (strip_url u).
Proof.
  unfold strip_url.
  destruct (lstrip_starts_visible u) as [->|(c & s & -> & Hc)];
    [left; reflexivity|].
  right. cbn [List.filter]. rewrite (unsafe_is_c0 c Hc). cbn [negb].
  eexists _, _. split; [reflexivity|exact Hc].
Qed.

Lemma starts_visible_prefix (x w : list ascii) :
  starts_visible (x ++ w) -> starts_visible x.
Proof.
  intros [H|(c & s & H & Hc)].
  - apply app_eq_nil in H as [-> _]. left. reflexivity.
  - destruct x as [|d x]; [left; reflexivity|].
    injection H as -> _. right. exists c, x. split; [reflexivity|exact Hc].
Qed.

Lemma rooted_starts_visible (x : list ascii) : rooted x -> starts_visible x.
Proof.
  intros [->|[x' ->]]; [left; reflexivity|].
  right. eexists _, _. split; reflexivity.
Qed.

Lemma rooted_no_scheme (x : list ascii) : rooted x -> ~ has_scheme x.
Proof.
  intros [->|[x' ->]] (c & a & b & Heq & Halpha & _).
  - discriminate Heq.
  - injection Heq as <- _. discriminate Halpha.
Qed.

Lemma split_netloc_cases (lib : PyStdlib) (url n r : list ascii) :
  split_netloc lib url = Return (n, r) ->
  (double_slash url = false /\ n = [] /\ r = url)
  \/ (double_slash url = true
      /\ (r = [] \/
          exists x r', r = x :: r' /\ is_netloc_delimiter x = true)).
Proof.
  unfold split_netloc. destruct (double_slash url) eqn:Ed.
  - apply double_slash_spec in Ed as [t ->].
    destruct (_splitnetloc ("/"%char :: "/"%char :: t) 2) as [n0 r0] eqn:Es.
    destruct (check_brackets lib n0) as [[]|e]; [|discriminate].
    intros [= <- <-]. right. split; [reflexivity|].
    apply (_splitnetloc_spec t n0 r0 Es).
  - intros [= <- <-]. left. repeat split.
Qed.

(** What [urlsplit] returns when it finds neither scheme nor netloc. *)
Lemma urlsplit_invariants_bare (lib : PyStdlib) (u x q f : list ascii) :
  urlsplit lib u = Return ([], [], x, q, f) ->
  starts_visible x /\ ~ has_scheme x.
Proof.
  unfold urlsplit.
  destruct (split_scheme (strip_url u)) as [s0 u2] eqn:E1.
  destruct (split_netloc lib u2) as [[n0 u3]|e] eqn:E2; [|discriminate].
  destruct (split_once "#" u3) as [u4 f0] eqn:E3.
  destruct (split_once "?" u4) as [x0 q0] eqn:E4.
  destruct (_checknetloc lib n0) as [[]|e]; [|discriminate].
  intros [= -> -> <- <- <-].
  destruct (split_scheme_empty _ _ E1) as [Hu2 Hno]. subst u2.
  destruct (split_once_prefix _ _ _ _ E3) as [w3 Hw3].
  destruct (split_once_prefix _ _ _ _ E4) as [w4 Hw4].
  destruct (split_netloc_cases _ _ _ _ E2) as [(_ & _ & Hu3)|(_ & Hd)].
  - assert (Hpre : strip_url u = x0 ++ (w4 ++ w3)).
    { rewrite <- Hu3, Hw3, Hw4, <- app_assoc. reflexivity. }
    split.
    + apply (starts_visible_prefix x0 (w4 ++ w3)). rewrite <- Hpre.
      apply strip_url_starts_visible.
    + intros Hx. apply Hno. rewrite Hpre. apply has_scheme_extend, Hx.
  - pose proof (path_after_netloc_rooted u3 u4 f0 x0 q0 Hd E3 E4) as Hroot.
    split; [apply rooted_starts_visible, Hroot|apply rooted_no_scheme, Hroot].
Qed.

Lemma urlunsplit_form (s n x q : list ascii) :
  urlunsplit s n x q []
  = if nonempty n || adds_double_slash s x
    then url_with_netloc s n (with_leading_slash x) q
    else url_without_netloc s x q.
Proof.
  unfold urlunsplit, adds_double_slash, url_with_netloc, url_without_netloc.
  fold (with_leading_slash x). cbn [nonempty].
  destruct (nonempty n
            || nonempty s && scheme_in s uses_netloc && negb (double_slash x));
    destruct (nonempty s), (nonempty q); cbn [app];
    rewrite <- ?app_assoc; cbn [app]; rewrite <- ?app_assoc;
    rewrite ?app_nil_r; reflexivity.
Qed.

Lemma with_leading_slash_rooted (x : list ascii) :
  rooted (with_leading_slash x).
Proof.
  destruct x as [|c x]; [left; reflexivity|]. cbn [with_leading_slash].
  destruct (Ascii.eqb c "/") eqn:E; cbn [negb].
  - apply Ascii.eqb_eq in E. subst c. right. exists x. reflexivity.
  - right. eexists. reflexivity.
Qed.

Lemma with_leading_slash_fixed (x : list ascii) :
  rooted x -> with_leading_slash x = x.
Proof. intros [->|[x' ->]]; reflexivity. Qed.

Lemma with_leading_slash_cases (x : list ascii) :
  with_leading_slash x = x \/ with_leading_slash x = "/"%char :: x.
Proof.
  destruct x as [|c x]; [left; reflexivity|]. cbn [with_leading_slash].
  destruct (negb (Ascii.eqb c "/")); [right|left]; reflexivity.
Qed.

Lemma with_leading_slash_single (x : list ascii) :
  double_slash x = false -> double_slash (with_leading_slash x) = false.
Proof.
  intros Hd. destruct x as [|c x]; [reflexivity|].
  cbn [with_leading_slash]. destruct (Ascii.eqb c "/") eqn:E; cbn [negb].
  - exact Hd.
  - cbn [double_slash]. rewrite E, andb_false_r. reflexivity.
Qed.

Lemma double_slash_before (x w : list ascii) (c : ascii) :
  Ascii.eqb c "/" = false ->
  double_slash (x ++ c :: w) = double_slash x.
Proof.
  intros Hc. destruct x as [|a [|b x]]; cbn [app double_slash].
  - destruct w; [reflexivity|]. rewrite Hc. reflexivity.
  - rewrite Hc, andb_false_r. reflexivity.
  - reflexivity.
Qed.

Lemma double_slash_join (p pa : list ascii) :
  double_slash (join_params p pa) = double_slash p.
Proof.
  unfold join_params. destruct (nonempty pa); [|reflexivity].
  apply double_slash_before. reflexivity.
Qed.

Lemma join_params_prefix (s x p pa : list ascii) :
  split_params s x = (p, pa) -> exists w, x = join_params p pa ++ w.
Proof.
  intros H. destruct (split_params_cases s x p pa H) as [Hj|(-> & Hx & _)].
  - exists []. rewrite app_nil_r. symmetry. exact Hj.
  - exists [";"%char]. exact Hx.
Qed.

Lemma strip_url_visible_safe (v : list ascii) :
  starts_visible v -> url_safe v = true -> strip_url v = v.
Proof.
  intros [->|(c & s & -> & Hc)] Hs; [reflexivity|].
  apply strip_url_fixed; assumption.
Qed.

Lemma urlsplit_url_without_netloc (lib : PyStdlib) (s x q : list ascii) :
  scheme_ok s ->
  url_safe x = true -> url_safe q = true ->
  contains "#" x = false -> contains "?" x = false ->
  contains "#" q = false ->
  double_slash x = false ->
  (s = [] -> starts_visible x /\ ~ has_scheme x) ->
  urlsplit lib (url_without_netloc s x q) = Return (s, [], x, q, []).
Proof.
  intros Hs Hsx Hsq Hhx Hqx Hhq Hd Hbare.
  set (tail := x ++ (if nonempty q then "?"%char :: q else [])).
  assert (Htail_safe : url_safe tail = true).
  { subst tail. rewrite url_safe_app, Hsx. destruct q; [reflexivity|].
    exact Hsq. }
  assert (Hprefix : strip_url (url_without_netloc s x q)
                    = url_without_netloc s x q
                    /\ split_scheme (url_without_netloc s x q) = (s, tail)).
  { unfold url_without_netloc. fold tail.
    destruct Hs as [->|(c & s' & -> & Halpha & Hchars & Hlower)].
    - cbn [nonempty app]. destruct (Hbare eq_refl) as [Hvis Hno]. split.
      + apply strip_url_visible_safe; [|exact Htail_safe].
        subst tail. destruct Hvis as [->|(c & x' & -> & Hc)].
        * destruct q; [left; reflexivity|].
          right. eexists _, _. split; reflexivity.
        * right. eexists _, _. split; [reflexivity|exact Hc].
      + apply split_scheme_none. subst tail. destruct q as [|d q].
        * cbn [nonempty]. rewrite app_nil_r. exact Hno.
        * cbn [nonempty]. intros H. apply Hno.
          apply (has_scheme_before_query x (d :: q)), H.
    - cbn [nonempty]. rewrite <- app_assoc. cbn [app]. split.
      + apply strip_url_fixed; [apply alpha_not_c0, Halpha|].
        change (url_safe ((c :: s') ++ ":"%char :: tail) = true).
        rewrite url_safe_app, (scheme_chars_safe _ Hchars).
        exact Htail_safe.
      + apply (split_scheme_app c s' tail); assumption. }
  destruct Hprefix as [Hstrip Hscheme].
  unfold urlsplit. rewrite Hstrip, Hscheme.
  assert (Hnet : split_netloc lib tail = Return ([], tail)).
  { unfold split_netloc.
    assert (Hdt : double_slash tail = false).
    { subst tail. destruct q as [|d q].
      - cbn [nonempty]. rewrite app_nil_r. exact Hd.
      - cbn [nonempty]. rewrite double_slash_before; [exact Hd|reflexivity]. }
    rewrite Hdt. reflexivity. }
  rewrite Hnet.
  assert (Hfrag : split_once "#" tail = (tail, [])).
  { apply split_once_absent. subst tail. rewrite contains_app, Hhx.
    destruct q; [reflexivity|]. exact Hhq. }
  rewrite Hfrag.
  assert (Hquery : split_once "?" tail = (x, q)).
  { subst tail. destruct q as [|c q].
    - cbn [nonempty]. rewrite app_nil_r. apply split_once_absent, Hqx.
    - cbn [nonempty]. apply split_once_found, Hqx. }
  rewrite Hquery. reflexivity.
Qed.

Lemma rfind_None (c : ascii) (l : list ascii) :
  rfind c l = None <-> contains c l = false.
Proof.
  induction l as [|x l IH]; cbn [rfind].
  - split; reflexivity.
  - rewrite contains_cons, (Ascii.eqb_sym c x).
    destruct (rfind c l) as [k|].
    + split; [discriminate|]. intros H.
      apply orb_false_elim in H as [_ H]. apply IH in H. discriminate H.
    + assert (Hl : contains c l = false) by (apply IH; reflexivity).
      rewrite Hl, orb_false_r.
      destruct (Ascii.eqb x c); split; try reflexivity; discriminate.
Qed.

(** A slash put in front of a path with parameters moves the place where
    [_splitparams] cuts by one and changes nothing else. *)
Lemma _splitparams_slash (y : list ascii) :
  contains ";" y = true ->
  _splitparams ("/"%char :: y)
  = ("/"%char :: fst (_splitparams y), snd (_splitparams y)).
Proof.
  intros Hsemi.
  assert (Hr : rfind "/" ("/"%char :: y)
               = Some match rfind "/" y with Some k => S k | None => 0%nat end).
  { cbn [rfind]. destruct (rfind "/" y); reflexivity. }
  unfold _splitparams at 1.
  assert (Hc : contains "/" ("/"%char :: y) = true) by reflexivity.
  rewrite Hc, Hr. cbn [from_option]. clear Hc Hr.
  unfold _splitparams, find_from.
  destruct (contains "/" y) eqn:Eslash.
  - destruct (rfind "/" y) as [k|] eqn:Ek.
    + cbn [from_option id drop].
      destruct (find ";" (drop k y)) as [j|]; reflexivity.
    + apply rfind_None in Ek. congruence.
  - assert (Ek : rfind "/" y = None) by (apply rfind_None, Eslash).
    rewrite Ek. cbn [from_option id drop].
    assert (Hf : find ";" ("/"%char :: y) = S <$> find ";" y) by reflexivity.
    rewrite Hf.
    destruct (find ";" y) as [i|] eqn:Ei.
    + reflexivity.
    + apply find_None in Ei. congruence.
Qed.

Lemma split_params_slash (s y : list ascii) :
  split_params s ("/"%char :: y)
  = ("/"%char :: fst (split_params s y), snd (split_params s y)).
Proof.
  unfold split_params. rewrite contains_cons.
  change (Ascii.eqb ";" "/") with false. cbn [orb].
  destruct (scheme_in s uses_params && contains ";" y) eqn:E;
    [|reflexivity].
  apply andb_prop in E as [_ E]. apply _splitparams_slash, E.
Qed.

Lemma join_params_cons (c : ascii) (p pa : list ascii) :
  join_params (c :: p) pa = c :: join_params p pa.
Proof. unfold join_params. destruct (nonempty pa); reflexivity. Qed.

(** What [split_params] gives back on a path that it leaves as it is, it
    also gives back after [urlunsplit] has put a slash in front. *)
Lemma split_params_with_leading_slash (s y p pa : list ascii) :
  split_params s y = (p, pa) -> join_params p pa = y ->
  exists p2 pa2,
    split_params s (with_leading_slash y) = (p2, pa2)
    /\ join_params p2 pa2 = with_leading_slash y.
Proof.
  intros Hsplit Hjoin.
  destruct (with_leading_slash_cases y) as [->| ->].
  - exists p, pa. split; assumption.
  - exists ("/"%char :: p), pa. rewrite split_params_slash, Hsplit.
    split; [reflexivity|]. rewrite join_params_cons, Hjoin. reflexivity.
Qed.

Lemma join_params_no_char (c : ascii) (s x p pa : list ascii) :
  split_params s x = (p, pa) ->
  contains c x = false -> contains c (join_params p pa) = false.
Proof.
  intros Hsplit. apply contains_incl.
  apply (join_params_properties s x p pa Hsplit).
Qed.

Lemma with_leading_slash_no_char (c : ascii) (x : list ascii) :
  Ascii.eqb c "/" = false ->
  contains c x = false -> contains c (with_leading_slash x) = false.
Proof.
  intros Hc Hx. destruct (with_leading_slash_cases x) as [->| ->];
    [exact Hx|]. rewrite contains_cons, Hc, Hx. reflexivity.
Qed.

Lemma with_leading_slash_safe (x : list ascii) :
  url_safe x = true -> url_safe (with_leading_slash x) = true.
Proof.
  intros Hx. destruct (with_leading_slash_cases x) as [->| ->];
    [exact Hx|]. change (url_safe ("/"%char :: x)) with (url_safe x).
  exact Hx.
Qed.

(** Without a netloc, and with a path that does not begin with two
    slashes, [urlunparse] writes a URL that [urlparse] reads back as the
    same components, the path possibly with a slash put in front. *)
Lemma urlunparse_urlparse_fixed_bare (lib : PyStdlib)
  (u s p pa q f : list ascii) :
  urlparse lib u = Return (s, [], p, pa, q, f) ->
  double_slash p = false ->
  exists p2 pa2,
    urlparse lib (urlunparse s [] p pa q []) = Return (s, [], p2, pa2, q, [])
    /\ urlunparse s [] p2 pa2 q [] = urlunparse s [] p pa q [].
Proof.
  unfold urlparse.
  destruct (urlsplit lib u) as [[[[[s0 n0] x] q0] f0]|e] eqn:Esplit;
    [|discriminate].
  destruct (split_params s0 x) as [p0 pa0] eqn:Eparams.
  intros [= -> -> -> -> -> ->] Hd.
  destruct (urlsplit_invariants _ _ _ _ _ _ _ Esplit)
    as (Hs & _ & _ & _ & _ & Hsx & Hsq & Hhx & Hqx & Hhq & _).
  destruct (join_params_properties _ _ _ _ Eparams)
    as (Hsub & _ & p2 & pa2 & Hsplit2 & Hjoin2).
  destruct (join_params_prefix _ _ _ _ Eparams) as [w Hw].
  change (urlunparse s [] p pa q [])
    with (urlunsplit s [] (join_params p pa) q []).
  remember (join_params p pa) as y eqn:Hy.
  assert (Hdy : double_slash y = false)
    by (rewrite Hy, double_slash_join; exact Hd).
  assert (Hsy : url_safe y = true)
    by (apply (forallb_incl _ y x Hsub), Hsx).
  assert (Hhy : contains "#" y = false)
    by (apply (contains_incl _ y x Hsub), Hhx).
  assert (Hqy : contains "?" y = false)
    by (apply (contains_incl _ y x Hsub), Hqx).
  rewrite urlunsplit_form. cbn [nonempty orb].
  destruct (adds_double_slash s y) eqn:Eadd.
  - destruct (split_params_with_leading_slash s y p2 pa2 Hsplit2 Hjoin2)
      as (p3 & pa3 & Hsplit3 & Hjoin3).
    exists p3, pa3.
    rewrite (urlsplit_url_with_netloc lib s [] (with_leading_slash y) q);
      try assumption; try reflexivity.
    + rewrite Hsplit3. split; [reflexivity|].
      change (urlunparse s [] p3 pa3 q [])
        with (urlunsplit s [] (join_params p3 pa3) q []).
      rewrite Hjoin3, urlunsplit_form. cbn [nonempty orb].
      assert (Eadd2 : adds_double_slash s (with_leading_slash y) = true).
      { unfold adds_double_slash in *.
        rewrite (with_leading_slash_single y Hdy).
        rewrite Hdy in Eadd. exact Eadd. }
      rewrite Eadd2.
      rewrite (with_leading_slash_fixed (with_leading_slash y));
        [reflexivity|apply with_leading_slash_rooted].
    + apply with_leading_slash_safe, Hsy.
    + apply with_leading_slash_no_char; [reflexivity|exact Hhy].
    + apply with_leading_slash_no_char; [reflexivity|exact Hqy].
    + apply with_leading_slash_rooted.
  - exists p2, pa2.
    rewrite (urlsplit_url_without_netloc lib s y q); try assumption.
    + rewrite Hsplit2. split; [reflexivity|].
      change (urlunparse s [] p2 pa2 q [])
        with (urlunsplit s [] (join_params p2 pa2) q []).
      rewrite Hjoin2, urlunsplit_form. cbn [nonempty orb].
      rewrite Eadd. reflexivity.
    + intros ->.
      destruct (urlsplit_invariants_bare lib u x q f Esplit) as [Hvis Hno].
      rewrite Hw in Hvis, Hno. split.
      * apply (starts_visible_prefix y w), Hvis.
      * intros H. apply Hno, has_scheme_extend, H.
Qed.

Lemma normalize_url_unfold (lib : PyStdlib) (u v : string) :
  normalize_url lib u = Return v ->
  exists s n p pa q f,
    urlparse lib (list_ascii_of_string u) = Return (s, n, p, pa, q, f)
    /\ v = string_of_list_ascii (urlunparse s n p pa q []).
Proof.
  unfold normalize_url, _parse_url_cached.
  destruct (urlparse lib (list_ascii_of_string u))
    as [[[[[[s n] p] pa] q] f]|e]; [|discriminate].
  intros [= <-]. exists s, n, p, pa, q, f. split; reflexivity.
Qed.

Lemma normalize_url_fixed (lib : PyStdlib) (u v : string)
  (s n p pa q f : list ascii) :
  urlparse lib (list_ascii_of_string u) = Return (s, n, p, pa, q, f) ->
  v = string_of_list_ascii (urlunparse s n p pa q []) ->
  n <> [] \/ double_slash p = false ->
  normalize_url lib v = Return v.
Proof.
  intros Hparse -> Hcase.
  assert (Hfixed : exists p2 pa2,
            urlparse lib (urlunparse s n p pa q [])
            = Return (s, n, p2, pa2, q, [])
            /\ urlunparse s n p2 pa2 q [] = urlunparse s n p pa q []).
  { destruct n as [|c n].
    - destruct Hcase as [Hn|Hd]; [contradiction|].
      apply (urlunparse_urlparse_fixed_bare lib _ _ _ _ _ _ Hparse Hd).
    - apply (urlunparse_urlparse_fixed lib _ _ _ _ _ _ _ Hparse).
      discriminate. }
  destruct Hfixed as (p2 & pa2 & Hparse2 & Hsame).
  unfold normalize_url, _parse_url_cached.
  rewrite list_ascii_of_string_of_list_ascii, Hparse2, Hsame. reflexivity.
Qed.

(** For every library, [normalize_url] maps four slashes to two slashes and
    two slashes to the empty string. *)
Lemma normalize_url_four_slashes (lib : PyStdlib) :
  normalize_url lib "////" = Return "//"
  /\ normalize_url lib "//" = Return "".
Proof. split; reflexivity. Qed.

(** C9, as stated, does not hold: [normalize_url] succeeds on the string of
    four slashes and gives two slashes, and normalising that once more
    gives the empty string. *)
Lemma normalize_url_idempotent_counterexample :
  normalize_url plain_lib "////" = Return "//"
  /\ normalize_url plain_lib "//" = Return ""
  /\ ~ (forall (lib : PyStdlib) (u v : string),
          normalize_url lib u = Return v -> normalize_url lib v = Return v).
Proof.
  destruct (normalize_url_four_slashes plain_lib) as [H1 H2].
  split; [exact H1|]. split; [exact H2|].
  intros H. specialize (H plain_lib "////" "//" H1).
  rewrite H2 in H. discriminate H.
Qed.

(** C9, amended: whenever [normalize_url] succeeds, its result has no [#]
    and hence no fragment; and normalising the result again succeeds and
    gives the same string for every URL that [urlparse] reads with a
    network location or with a path that does not begin with two slashes:
    for every URL of which [get_domain] finds the domain, in particular
    for every URL that [is_valid_url] accepts, and for every URL without
    a network location except those whose path begins with [//]. *)
Theorem normalize_url_idempotent_unless_double_slash_path (lib : PyStdlib)
  (u v : string) :
  normalize_url lib u = Return v ->
  ~ In "#"%char (list_ascii_of_string v)
  /\ (forall s n p pa q f,
        _parse_url_cached lib u = Return (s, n, p, pa, q, f) ->
        n <> [] \/ double_slash p = false ->
        normalize_url lib v = Return v)
  /\ ((exists domain, get_domain lib u = Return (Some domain)) ->
      normalize_url lib v = Return v)
  /\ (is_valid_url lib u = true -> normalize_url lib v = Return v).
Proof.
  intros Hnorm.
  destruct (normalize_url_unfold lib u v Hnorm)
    as (s & n & p & pa & q & f & Hparse & Hv).
  split; [|split; [|split]].
  - rewrite Hv, list_ascii_of_string_of_list_ascii.
    pose proof (urlunparse_no_hash lib _ _ _ _ _ _ _ Hparse) as Hh.
    apply contains_false in Hh. intros Hin. apply Hh.
    apply list_elem_of_In, Hin.
  - intros s' n' p' pa' q' f' Hparse' Hcase.
    unfold _parse_url_cached in Hparse'. rewrite Hparse in Hparse'.
    injection Hparse' as <- <- <- <- <- <-.
    apply (normalize_url_fixed lib u v s n p pa q f Hparse Hv Hcase).
  - intros [domain Hd].
    apply (normalize_url_fixed lib u v s n p pa q f Hparse Hv).
    unfold get_domain, _parse_url_cached in Hd. rewrite Hparse in Hd.
    left. destruct n; [discriminate Hd|discriminate].
  - intros Hvalid.
    apply (normalize_url_fixed lib u v s n p pa q f Hparse Hv).
    unfold is_valid_url, _parse_url_cached in Hvalid.
    rewrite Hparse in Hvalid.
    destruct (negb (str_truthy u)
              || negb (startswith u "http://" || startswith u "https://"));
      [discriminate Hvalid|].
    left. destruct n; [discriminate Hvalid|discriminate].
Qed.

Lemma normalize_url_idempotent_unless_double_slash_path_witness :
  (normalize_url plain_lib "https://Example.com/a/b;p?x=1#top"
   = Return "https://Example.com/a/b;p?x=1"
   /\ is_valid_url plain_lib "https://Example.com/a/b;p?x=1#top" = true
   /\ ~ In "#"%char (list_ascii_of_string "https://Example.com/a/b;p?x=1")
   /\ normalize_url plain_lib "https://Example.com/a/b;p?x=1"
      = Return "https://Example.com/a/b;p?x=1")
  /\ (normalize_url plain_lib "http:docs/a;b#frag" = Return "http:///docs/a;b"
      /\ _parse_url_cached plain_lib "http:docs/a;b#frag"
         = Return (list_ascii_of_string "http", [],
                   list_ascii_of_string "docs/a", list_ascii_of_string "b",
                   [], list_ascii_of_string "frag")
      /\ normalize_url plain_lib "http:///docs/a;b"
         = Return "http:///docs/a;b").
Proof.
  split.
  - assert (H : normalize_url plain_lib "https://Example.com/a/b;p?x=1#top"
                = Return "https://Example.com/a/b;p?x=1") by reflexivity.
    destruct
      (normalize_url_idempotent_unless_double_slash_path plain_lib _ _ H)
      as (Hhash & _ & _ & Hvalid).
    split; [exact H|]. split; [reflexivity|]. split; [exact Hhash|].
    apply Hvalid. reflexivity.
  - assert (H : normalize_url plain_lib "http:docs/a;b#frag"
                = Return "http:///docs/a;b") by reflexivity.
    destruct
      (normalize_url_idempotent_unless_double_slash_path plain_lib _ _ H)
      as (_ & Hparsed & _ & _).
    split; [exact H|]. split; [reflexivity|].
    apply (Hparsed _ _ _ _ _ _ eq_refl). right. reflexivity.
Defined.

(** ** NodeMapper *)

Lemma NodeLifecycle_value_roundtrip (l : NodeLifecycle) :
  NodeLifecycle_of_value (NodeLifecycle_value l) = Return l.
Proof. destruct l; reflexivity. Qed.

(** A node that the constructor returns satisfies the field constraints
    when its plugins leave [url], [depth] and [priority] alone; with no
    plugin manager this is always so. *)
Lemma Node_init_fields_valid (lib : PyStdlib) (fields : NodeState.t)
  (tp : option ITreeAdapter) (hs : option IContentHashStrategy)
  (n : Node.t) :
  Node_init lib fields None tp hs = Return n ->
  fields_valid lib (Node.state n) = true.
Proof.
  unfold Node_init. destruct (fields_valid lib fields) eqn:E;
    [|discriminate].
  intros [= <-]. exact E.
Qed.

(** C10: a node that satisfies the constraints pydantic enforces on every
    [Node] goes through [to_dto] and [to_domain] unchanged on every
    serialized field, and with no context the node that comes back has no
    plugin manager, no tree parser and no hash strategy. *)
Theorem to_domain_to_dto_roundtrip (lib : PyStdlib) (n : Node.t) :
  fields_valid lib (Node.state n) = true ->
  exists n',
    to_domain lib (to_dto n) None = Return n'
    /\ Node.node_id n' = Node.node_id n
    /\ Node.url n' = Node.url n
    /\ Node.depth n' = Node.depth n
    /\ Node.should_scan n' = Node.should_scan n
    /\ Node.can_create_edges n' = Node.can_create_edges n
    /\ Node.scanned n' = Node.scanned n
    /\ Node.response_status n' = Node.response_status n
    /\ Node.metadata n' = Node.metadata n
    /\ Node.user_data n' = Node.user_data n
    /\ Node.content_hash n' = Node.content_hash n
    /\ Node.priority n' = Node.priority n
    /\ Node.created_at n' = Node.created_at n
    /\ Node.lifecycle_stage n' = Node.lifecycle_stage n
    /\ Node.plugin_manager n' = None
    /\ Node.tree_parser n' = None
    /\ Node.hash_strategy n' = None.
Proof.
  intros Hvalid. unfold to_domain, to_dto.
  cbn [NodeDTO.lifecycle_stage]. rewrite NodeLifecycle_value_roundtrip.
  cbn [default context_plugin_manager context_tree_parser
       context_hash_strategy NodeDTO.url NodeDTO.node_id NodeDTO.depth
       NodeDTO.should_scan NodeDTO.can_create_edges NodeDTO.created_at
       NodeDTO.metadata NodeDTO.user_data NodeDTO.scanned
       NodeDTO.response_status NodeDTO.content_hash NodeDTO.priority].
  unfold Node_init.
  assert (Hsame :
    fields_valid lib
      (NodeState.mk (Node.url n) (Node.node_id n) (Node.depth n)
         (Node.should_scan n) (Node.can_create_edges n) (Node.created_at n)
         (Node.metadata n) (Node.user_data n) (Node.scanned n)
         (Node.response_status n) (Node.content_hash n) (Node.priority n)
         (Node.lifecycle_stage n) false) = true) by exact Hvalid.
  rewrite Hsame. eexists. split; [reflexivity|].
  repeat split; reflexivity.
Qed.

Lemma to_domain_to_dto_roundtrip_witness :
  fields_valid plain_lib (Node.state processed_node) = true
  /\ to_domain plain_lib (to_dto processed_node) None = Return processed_node.
Proof.
  split; [reflexivity|].
  destruct (to_domain_to_dto_roundtrip plain_lib processed_node eq_refl)
    as (n' & Hrun & _).
  rewrite Hrun. vm_compute in Hrun. injection Hrun as <-. reflexivity.
Defined.

(** ** URLUtils: valid URLs, special links, cleaning *)

Lemma prefix_list_ascii (p u : string) :
  String.prefix p u = true ->
  exists rest,
    list_ascii_of_string u = list_ascii_of_string p ++ rest.
Proof.
  revert u. induction p as [|a p IH]; intros u.
  - intros _. exists (list_ascii_of_string u). reflexivity.
  - destruct u as [|b u]; cbn [String.prefix]; [discriminate|].
    destruct (ascii_dec a b) as [->|]; [|discriminate].
    intros H. destruct (IH u H) as [rest Hrest]. exists rest.
    cbn [list_ascii_of_string]. rewrite Hrest. reflexivity.
Qed.

Lemma prefix_string_of_list_ascii (p : string) (rest : list ascii) :
  String.prefix p (string_of_list_ascii (list_ascii_of_string p ++ rest))
  = true.
Proof.
  induction p as [|a p IH].
  { cbn [list_ascii_of_string app].
    destruct (string_of_list_ascii rest); reflexivity. }
  cbn [list_ascii_of_string app string_of_list_ascii String.prefix].
  destruct (ascii_dec a a); [exact IH|contradiction].
Qed.

(** Visible characters at the beginning of a URL are kept by the
    stripping of [urlsplit]. *)
Lemma strip_url_visible_prefix (c : ascii) (p r : list ascii) :
  forallb (fun c => negb (is_c0_control_or_space c)) (c :: p) = true ->
  strip_url ((c :: p) ++ r)
  = (c :: p) ++ List.filter (fun c => negb (is_unsafe_url_byte c)) r.
Proof.
  intros Hvis. unfold strip_url.
  assert (Hc : is_c0_control_or_space c = false).
  { cbn [forallb] in Hvis. apply andb_prop in Hvis as [Hc _].
    apply negb_true_iff, Hc. }
  cbn [app lstrip]. rewrite Hc.
  change (c :: p ++ r) with ((c :: p) ++ r).
  rewrite List.filter_app.
  change (c :: p ++ List.filter (fun c => negb (is_unsafe_url_byte c)) r)
    with ((c :: p) ++ List.filter (fun c => negb (is_unsafe_url_byte c)) r).
  f_equal. apply forallb_filter_id.
  rewrite forallb_forall in Hvis |- *. intros x Hx.
  specialize (Hvis x Hx). apply negb_true_iff in Hvis.
  apply negb_true_iff, unsafe_is_c0, Hvis.
Qed.

(** A URL that begins with a lowercase scheme name and a colon is split
    into that scheme and the rest. *)
Lemma urlsplit_scheme_prefix (lib : PyStdlib) (scheme : string)
  (u s n x q f : list ascii) (c : ascii) (a r : list ascii) :
  list_ascii_of_string scheme = c :: a ->
  isascii_alpha c = true ->
  forallb (fun c => in_chars c scheme_chars) (c :: a) = true ->
  lower (c :: a) = c :: a ->
  u = (c :: a) ++ ":"%char :: r ->
  urlsplit lib u = Return (s, n, x, q, f) ->
  s = list_ascii_of_string scheme.
Proof.
  intros Hscheme Halpha Hchars Hlower -> Hsplit.
  unfold urlsplit in Hsplit.
  assert (Hvis : forallb (fun c => negb (is_c0_control_or_space c))
                   ((c :: a) ++ [":"%char]) = true).
  { rewrite forallb_app. apply andb_true_intro. split; [|reflexivity].
    rewrite forallb_forall in Hchars |- *. intros y Hy.
    specialize (Hchars y Hy). apply negb_true_iff.
    destruct (scheme_char_facts y Hchars) as (_ & _ & Hc0 & _).
    exact Hc0. }
  replace ((c :: a) ++ ":"%char :: r)
    with ((c :: (a ++ [":"%char])) ++ r) in Hsplit
    by (cbn [app]; rewrite <- app_assoc; reflexivity).
  rewrite strip_url_visible_prefix in Hsplit by exact Hvis.
  replace ((c :: a ++ [":"%char]) ++
           List.filter (fun c => negb (is_unsafe_url_byte c)) r)
    with ((c :: a) ++ ":"%char ::
          List.filter (fun c => negb (is_unsafe_url_byte c)) r) in Hsplit
    by (cbn [app]; rewrite <- app_assoc; reflexivity).
  rewrite (split_scheme_found c a _ Halpha Hchars), Hlower in Hsplit.
  destruct (split_netloc lib _) as [[n0 u3]|e]; [|discriminate].
  destruct (split_once "#" u3) as [u4 f0].
  destruct (split_once "?" u4) as [x0 q0].
  destruct (_checknetloc lib n0); [|discriminate].
  injection Hsplit as <- _ _ _ _. symmetry. exact Hscheme.
Qed.

Lemma is_valid_url_spec (lib : PyStdlib) (u : string) :
  is_valid_url lib u = true <->
  str_truthy u = true
  /\ (startswith u "http://" || startswith u "https://") = true
  /\ exists s n p pa q f,
       urlparse lib (list_ascii_of_string u) = Return (s, n, p, pa, q, f)
       /\ n <> [].
Proof.
  unfold is_valid_url, _parse_url_cached.
  destruct (str_truthy u); cbn [negb orb];
    [|split; [discriminate|intros [H _]; discriminate H]].
  destruct (startswith u "http://" || startswith u "https://");
    cbn [negb];
    [|split; [discriminate|intros (_ & H & _); discriminate H]].
  destruct (urlparse lib (list_ascii_of_string u))
    as [[[[[[s n] p] pa] q] f]|e].
  - split.
    + intros Hn. split; [reflexivity|]. split; [reflexivity|].
      exists s, n, p, pa, q, f. split; [reflexivity|].
      destruct n; [discriminate Hn|discriminate].
    + intros (_ & _ & s' & n' & p' & pa' & q' & f' & [= <- <- <- <- <- <-]
              & Hn).
      destruct n; [contradiction|reflexivity].
  - split; [discriminate|].
    intros (_ & _ & s' & n' & p' & pa' & q' & f' & H & _). discriminate H.
Qed.

(** The scheme that [urlparse] finds in a URL that begins with [http://] or
    [https://] is [http] or [https]. *)
Lemma urlparse_valid_scheme (lib : PyStdlib) (u : string)
  (s n p pa q f : list ascii) :
  (startswith u "http://" || startswith u "https://") = true ->
  urlparse lib (list_ascii_of_string u) = Return (s, n, p, pa, q, f) ->
  s = list_ascii_of_string "http" \/ s = list_ascii_of_string "https".
Proof.
  intros Hstart Hparse. unfold urlparse in Hparse.
  destruct (urlsplit lib (list_ascii_of_string u))
    as [[[[[s0 n0] x] q0] f0]|e] eqn:Esplit; [|discriminate].
  destruct (split_params s0 x) as [p0 pa0].
  injection Hparse as -> _ _ _ _ _.
  apply orb_prop in Hstart as [H|H]; unfold startswith in H;
    destruct (prefix_list_ascii _ _ H) as [rest Hrest].
  - left.
    apply (urlsplit_scheme_prefix lib "http" (list_ascii_of_string u) s n0 x q0 f0
             "h" (list_ascii_of_string "ttp") ("/"%char :: "/"%char :: rest));
      try reflexivity; [exact Hrest|exact Esplit].
  - right.
    apply (urlsplit_scheme_prefix lib "https" (list_ascii_of_string u) s n0 x q0 f0
             "h" (list_ascii_of_string "ttps")
             ("/"%char :: "/"%char :: rest));
      try reflexivity; [exact Hrest|exact Esplit].
Qed.

Lemma urlunparse_with_netloc_prefix (s n p pa q : list ascii) :
  n <> [] ->
  exists rest,
    urlunparse s n p pa q []
    = (if nonempty s then s ++ [":"%char] else [])
      ++ "/"%char :: "/"%char :: rest.
Proof.
  intros Hn.
  change (urlunparse s n p pa q [])
    with (urlunsplit s n (join_params p pa) q []).
  rewrite urlunsplit_form. destruct n as [|c n]; [contradiction|].
  cbn [nonempty orb]. unfold url_with_netloc. eexists. reflexivity.
Qed.

(** The normal form of a URL that [is_valid_url] accepts: how [urlparse]
    reads the URL and its normal form, which is valid and fixed. *)
Lemma normalize_url_valid_fixed (lib : PyStdlib) (u : string) :
  is_valid_url lib u = true ->
  exists s n p pa q f p2 pa2,
    urlparse lib (list_ascii_of_string u) = Return (s, n, p, pa, q, f)
    /\ n <> []
    /\ urlparse lib (urlunparse s n p pa q [])
       = Return (s, n, p2, pa2, q, [])
    /\ is_valid_url lib (string_of_list_ascii (urlunparse s n p pa q []))
       = true
    /\ normalize_url lib (string_of_list_ascii (urlunparse s n p pa q []))
       = Return (string_of_list_ascii (urlunparse s n p pa q [])).
Proof.
  intros Hvalid.
  destruct (proj1 (is_valid_url_spec lib u) Hvalid)
    as (_ & Hstart & s & n & p & pa & q & f & Hparse & Hn).
  pose proof (urlparse_valid_scheme lib u s n p pa q f Hstart Hparse)
    as Hscheme.
  destruct (urlunparse_urlparse_fixed lib _ s n p pa q f Hparse Hn)
    as (p2 & pa2 & Hparse2 & Hsame).
  destruct (urlunparse_with_netloc_prefix s n p pa q Hn) as [rest Hrest].
  exists s, n, p, pa, q, f, p2, pa2.
  split; [exact Hparse|]. split; [exact Hn|]. split; [exact Hparse2|].
  split.
  - apply is_valid_url_spec. split; [|split].
    + rewrite Hrest. destruct Hscheme as [-> | ->]; reflexivity.
    + rewrite Hrest. apply orb_true_intro.
      destruct Hscheme as [-> | ->]; [left|right]; unfold startswith.
      * apply (prefix_string_of_list_ascii "http://" rest).
      * apply (prefix_string_of_list_ascii "https://" rest).
    + exists s, n, p2, pa2, q, []. split; [|exact Hn].
      rewrite list_ascii_of_string_of_list_ascii. exact Hparse2.
  - apply (normalize_url_fixed lib u _ s n p pa q f Hparse eq_refl).
    left. exact Hn.
Qed.

(** X1: Normalising a URL that [is_valid_url] accepts gives a URL that
    [is_valid_url] accepts, with the same domain, and that normalising
    leaves as it is. *)
Theorem normalize_url_keeps_valid (lib : PyStdlib) (u : string) :
  is_valid_url lib u = true ->
  exists v,
    normalize_url lib u = Return v
    /\ is_valid_url lib v = true
    /\ get_domain lib v = get_domain lib u
    /\ normalize_url lib v = Return v.
Proof.
  intros Hvalid.
  destruct (normalize_url_valid_fixed lib u Hvalid)
    as (s & n & p & pa & q & f & p2 & pa2 & Hparse & Hn & Hparse2
        & Hvalid2 & Hfixed).
  exists (string_of_list_ascii (urlunparse s n p pa q [])).
  split; [|split; [exact Hvalid2|split; [|exact Hfixed]]].
  - unfold normalize_url, _parse_url_cached. rewrite Hparse. reflexivity.
  - unfold get_domain, _parse_url_cached.
    rewrite list_ascii_of_string_of_list_ascii, Hparse2, Hparse.
    reflexivity.
Qed.

Lemma normalize_url_keeps_valid_witness :
  is_valid_url plain_lib "http://www.Example.com/a b;x?y=1#top" = true
  /\ exists v,
       normalize_url plain_lib "http://www.Example.com/a b;x?y=1#top"
       = Return v
       /\ is_valid_url plain_lib v = true
       /\ get_domain plain_lib v
          = get_domain plain_lib "http://www.Example.com/a b;x?y=1#top"
       /\ normalize_url plain_lib v = Return v.
Proof.
  split; [reflexivity|].
  apply (normalize_url_keeps_valid plain_lib
           "http://www.Example.com/a b;x?y=1#top").
  reflexivity.
Defined.

(** X2: [URLUtils.validate_url] and [is_valid_url] agree: the first returns its
    argument exactly when the second accepts it, and whenever it raises,
    it raises [InvalidURLError], also when [urlparse] itself fails. *)
Theorem validate_url_agrees_with_is_valid_url (lib : PyStdlib) (u : string) :
  (is_valid_url lib u = true <-> URLUtils_validate_url lib u = Return u)
  /\ (forall v, URLUtils_validate_url lib u = Return v -> v = u)
  /\ (forall e, URLUtils_validate_url lib u = Raise e ->
                exn_class e = "InvalidURLError").
Proof.
  unfold is_valid_url, URLUtils_validate_url, _parse_url_cached.
  destruct (str_truthy u); cbn [negb orb].
  2:{ split; [split; discriminate|]. split; [discriminate|].
      intros e [= <-]. reflexivity. }
  destruct (startswith u "http://" || startswith u "https://"); cbn [negb].
  2:{ split; [split; discriminate|]. split; [discriminate|].
      intros e [= <-]. reflexivity. }
  destruct (urlparse lib (list_ascii_of_string u))
    as [[[[[[s n] p] pa] q] f]|e0].
  - destruct n as [|c n]; cbn [nonempty negb is_InvalidURLError exn_class].
    + change ("InvalidURLError" =? "InvalidURLError")%string with true.
      cbv iota. split; [split; discriminate|]. split; [discriminate|].
      intros e [= <-]. reflexivity.
    + split; [split; reflexivity|]. split; [|discriminate].
      intros v [= <-]. reflexivity.
  - unfold is_InvalidURLError.
    destruct (exn_class e0 =? "InvalidURLError")%string eqn:E.
    + split; [split; discriminate|]. split; [discriminate|].
      intros e [= <-]. apply String.eqb_eq, E.
    + split; [split; discriminate|]. split; [discriminate|].
      intros e [= <-]. reflexivity.
Qed.

Lemma startswith_first_char (href : string) (c : ascii) (p : string) :
  startswith href (String c p) = true ->
  exists rest, href = String c rest.
Proof.
  unfold startswith. destruct href as [|b href]; cbn [String.prefix];
    [discriminate|].
  destruct (ascii_dec c b) as [->|]; [|discriminate].
  intros _. exists href. reflexivity.
Qed.

(** X3: A special link (mailto:, javascript:, tel:, a fragment, data:) is never
    a valid URL: [is_valid_url] rejects it and [URLUtils.validate_url]
    raises. *)
Theorem special_link_is_not_valid_url (lib : PyStdlib) (href : string) :
  is_special_link href = true ->
  is_valid_url lib href = false
  /\ exists e, URLUtils_validate_url lib href = Raise e.
Proof.
  unfold is_special_link, _SPECIAL_PREFIXES. cbn [existsb].
  intros H.
  assert (Hfirst : exists c rest,
             href = String c rest /\ Ascii.eqb c "h" = false).
  { repeat (apply orb_prop in H as [H|H];
            [destruct (startswith_first_char _ _ _ H) as [rest ->];
             eexists _, rest; split; reflexivity|]).
    discriminate H. }
  destruct Hfirst as (c & rest & -> & Hc).
  assert (Hstart : (startswith (String c rest) "http://"
                    || startswith (String c rest) "https://") = false).
  { unfold startswith. cbn [String.prefix].
    destruct (ascii_dec "h" c) as [<-|]; [discriminate Hc|reflexivity]. }
  unfold is_valid_url, URLUtils_validate_url. rewrite Hstart.
  cbn [str_truthy negb orb]. split; [reflexivity|].
  eexists. reflexivity.
Qed.

Lemma special_link_is_not_valid_url_witness :
  is_special_link "mailto:someone@example.com" = true
  /\ is_valid_url plain_lib "mailto:someone@example.com" = false
  /\ exists e,
       URLUtils_validate_url plain_lib "mailto:someone@example.com" = Raise e.
Proof.
  split; [reflexivity|].
  apply (special_link_is_not_valid_url plain_lib
           "mailto:someone@example.com").
  reflexivity.
Defined.

Lemma dict_fromkeys_fold (ks seen : list string) :
  NoDup seen ->
  exists added,
    fold_left
      (fun seen k => if bool_decide (k ∈ seen) then seen else seen ++ [k])
      ks seen = seen ++ added
    /\ NoDup (seen ++ added)
    /\ sublist added ks
    /\ (forall k, k ∈ ks -> k ∈ seen ++ added)
    /\ (NoDup (seen ++ ks) -> added = ks).
Proof.
  revert seen. induction ks as [|k ks IH]; intros seen Hnd; cbn [fold_left].
  - exists []. rewrite app_nil_r. split; [reflexivity|].
    split; [exact Hnd|]. split; [constructor|].
    split; [intros k Hk; inversion Hk|reflexivity].
  - destruct (bool_decide (k ∈ seen)) eqn:E.
    + apply bool_decide_eq_true in E.
      destruct (IH seen Hnd) as (added & Hfold & Hnd' & Hsub & Hall & Hfix).
      exists added. split; [exact Hfold|]. split; [exact Hnd'|].
      split; [apply sublist_cons, Hsub|]. split.
      * intros k' Hk'. apply elem_of_cons in Hk' as [->|Hk'].
        -- apply elem_of_app. left. exact E.
        -- apply Hall, Hk'.
      * intros Hbad. exfalso. apply NoDup_app in Hbad as (_ & Hdisj & _).
        apply (Hdisj k E). left.
    + apply bool_decide_eq_false in E.
      assert (Hnd1 : NoDup (seen ++ [k])).
      { apply NoDup_app. split; [exact Hnd|]. split.
        - intros x Hx Hin. apply list_elem_of_singleton in Hin. subst x.
          exact (E Hx).
        - apply NoDup_singleton. }
      destruct (IH (seen ++ [k]) Hnd1)
        as (added & Hfold & Hnd' & Hsub & Hall & Hfix).
      exists (k :: added). rewrite Hfold, <- app_assoc. cbn [app].
      split; [reflexivity|].
      split; [rewrite <- app_assoc in Hnd'; exact Hnd'|].
      split; [apply sublist_skip, Hsub|]. split.
      * intros k' Hk'. apply elem_of_cons in Hk' as [->|Hk'].
        -- apply elem_of_app. right. left.
        -- specialize (Hall k' Hk'). rewrite <- app_assoc in Hall.
           exact Hall.
      * intros Hgood. f_equal. apply Hfix. rewrite <- app_assoc.
        exact Hgood.
Qed.

(** [dict.fromkeys] keeps each key once, in the order of the list, and
    changes nothing in a list without duplicates. *)
Lemma dict_fromkeys_spec (ks : list string) :
  NoDup (dict_fromkeys ks)
  /\ sublist (dict_fromkeys ks) ks
  /\ (forall k, k ∈ dict_fromkeys ks <-> k ∈ ks)
  /\ (NoDup ks -> dict_fromkeys ks = ks).
Proof.
  unfold dict_fromkeys.
  destruct (dict_fromkeys_fold ks [] (NoDup_nil_2 (A:=string)))
    as (added & Hfold & Hnd & Hsub & Hall & Hfix).
  rewrite Hfold. cbn [app] in *.
  split; [exact Hnd|]. split; [exact Hsub|]. split; [|exact Hfix].
  intros k. split; [|apply Hall].
  intros Hk. exact (elem_of_sublist _ _ _ Hk Hsub).
Qed.

(** On URLs that [is_valid_url] accepts [normalize_url] does not raise, so
    the generator of [clean_urls] runs to its end. *)
Lemma normalized_valid_urls_spec (lib : PyStdlib) (urls : list string) :
  exists vs,
    normalized_valid_urls lib urls = Return vs
    /\ (forall v, v ∈ vs <->
          exists u, u ∈ urls /\ is_valid_url lib u = true
                    /\ normalize_url lib u = Return v)
    /\ Forall (fun v => is_valid_url lib v = true
                        /\ normalize_url lib v = Return v) vs.
Proof.
  induction urls as [|u urls (vs & Hrun & Hmem & Hall)];
    cbn [normalized_valid_urls].
  - exists []. split; [reflexivity|]. split; [|constructor].
    intros v. split; [intros H; inversion H|].
    intros (u & Hu & _). inversion Hu.
  - destruct (is_valid_url lib u) eqn:Hvalid.
    + destruct (normalize_url_valid_fixed lib u Hvalid)
        as (s & n & p & pa & q & f & p2 & pa2 & Hparse & _ & _
            & Hvalid0 & Hfix).
      assert (Hnorm : normalize_url lib u
                      = Return (string_of_list_ascii
                                  (urlunparse s n p pa q []))).
      { unfold normalize_url, _parse_url_cached. rewrite Hparse.
        reflexivity. }
      remember (string_of_list_ascii (urlunparse s n p pa q [])) as v0.
      rewrite Hnorm, Hrun. exists (v0 :: vs). split; [reflexivity|].
      split; [|constructor; [split; assumption|exact Hall]].
      intros v. rewrite elem_of_cons, Hmem. split.
      * intros [->|(u' & Hu' & Hv' & Hn')].
        -- exists u. split; [left|]. split; assumption.
        -- exists u'. split; [right; exact Hu'|]. split; assumption.
      * intros (u' & Hu' & Hv' & Hn').
        apply elem_of_cons in Hu' as [->|Hu'].
        -- left. rewrite Hnorm in Hn'. injection Hn' as <-. reflexivity.
        -- right. exists u'. split; [exact Hu'|]. split; assumption.
    + exists vs. split; [exact Hrun|]. split; [|exact Hall].
      intros v. rewrite Hmem. split.
      * intros (u' & Hu' & Hv' & Hn'). exists u'.
        split; [right; exact Hu'|]. split; assumption.
      * intros (u' & Hu' & Hv' & Hn').
        apply elem_of_cons in Hu' as [->|Hu']; [congruence|].
        exists u'. split; [exact Hu'|]. split; assumption.
Qed.

Lemma normalized_valid_urls_fixed (lib : PyStdlib) (vs : list string) :
  Forall (fun v => is_valid_url lib v = true
                   /\ normalize_url lib v = Return v) vs ->
  normalized_valid_urls lib vs = Return vs.
Proof.
  induction 1 as [|v vs [Hvalid Hnorm] _ IH]; cbn [normalized_valid_urls];
    [reflexivity|].
  rewrite Hvalid, Hnorm, IH. reflexivity.
Qed.

(** X4: [clean_urls] never raises; its result has no duplicates, holds exactly
    the normalised forms of the valid URLs of its argument, and every URL
    in it is itself valid and carries no fragment. *)
Theorem clean_urls_spec (lib : PyStdlib) (urls : list string) :
  exists vs,
    clean_urls lib urls = Return vs
    /\ NoDup vs
    /\ (forall v, v ∈ vs <->
          exists u, u ∈ urls /\ is_valid_url lib u = true
                    /\ normalize_url lib u = Return v)
    /\ (forall v, v ∈ vs ->
          is_valid_url lib v = true
          /\ ~ In "#"%char (list_ascii_of_string v)).
Proof.
  destruct (normalized_valid_urls_spec lib urls) as (vs & Hrun & Hmem & Hall).
  destruct (dict_fromkeys_spec vs) as (Hnd & _ & Hsame & _).
  exists (dict_fromkeys vs). unfold clean_urls. rewrite Hrun.
  split; [reflexivity|]. split; [exact Hnd|]. split.
  - intros v. rewrite Hsame. apply Hmem.
  - intros v Hv. apply Hsame in Hv.
    rewrite Forall_forall in Hall. destruct (Hall v Hv) as [Hvalid Hnorm].
    split; [exact Hvalid|].
    destruct (normalize_url_unfold lib v v Hnorm)
      as (s & n & p & pa & q & f & Hparse & Heq).
    pose proof (urlunparse_no_hash lib _ _ _ _ _ _ _ Hparse) as Hh.
    apply contains_false in Hh. intros Hin. apply Hh.
    apply list_elem_of_In.
    rewrite Heq, list_ascii_of_string_of_list_ascii in Hin. exact Hin.
Qed.

(** X5: [clean_urls] is idempotent: cleaning a cleaned list gives it back. *)
Theorem clean_urls_idempotent (lib : PyStdlib) (urls vs : list string) :
  clean_urls lib urls = Return vs ->
  clean_urls lib vs = Return vs.
Proof.
  intros Hclean.
  destruct (normalized_valid_urls_spec lib urls) as (ws & Hrun & _ & Hall).
  unfold clean_urls in Hclean. rewrite Hrun in Hclean.
  injection Hclean as <-.
  destruct (dict_fromkeys_spec ws) as (Hnd & _ & Hsame & _).
  assert (Hall' : Forall (fun v => is_valid_url lib v = true
                                   /\ normalize_url lib v = Return v)
                    (dict_fromkeys ws)).
  { rewrite Forall_forall in Hall |- *. intros v Hv.
    apply Hall, Hsame, Hv. }
  unfold clean_urls. rewrite (normalized_valid_urls_fixed lib _ Hall').
  destruct (dict_fromkeys_spec (dict_fromkeys ws)) as (_ & _ & _ & Hfix).
  rewrite (Hfix Hnd). reflexivity.
Qed.

Lemma clean_urls_idempotent_witness :
  clean_urls plain_lib
    ["https://example.com/a#top"; "mailto:x@example.com";
     "https://example.com/a"; "http://example.com"]
  = Return ["https://example.com/a"; "http://example.com"]
  /\ clean_urls plain_lib ["https://example.com/a"; "http://example.com"]
     = Return ["https://example.com/a"; "http://example.com"].
Proof.
  assert (H : clean_urls plain_lib
                ["https://example.com/a#top"; "mailto:x@example.com";
                 "https://example.com/a"; "http://example.com"]
              = Return ["https://example.com/a"; "http://example.com"])
    by (vm_compute; reflexivity).
  split; [exact H|].
  apply (clean_urls_idempotent plain_lib _ _ H).
Defined.

Lemma startswith_string_drop (d p : string) :
  startswith d p = true -> d = p +:+ string_drop (String.length p) d.
Proof.
  unfold startswith. revert d. induction p as [|a p IH]; intros d.
  - intros _. reflexivity.
  - destruct d as [|b d]; cbn [String.prefix]; [discriminate|].
    destruct (ascii_dec a b) as [->|]; [|discriminate].
    intros H. cbn [String.length string_drop].
    change (String b d
            = String b (p +:+ string_drop (String.length p) d)).
    f_equal. apply IH, H.
Qed.

(** X6: [get_root_domain] finds a root domain exactly when [get_domain] finds a
    domain, and the domain is the root domain, preceded by one [www.] when
    it begins with it. *)
Theorem get_root_domain_strips_one_www (lib : PyStdlib) (u : string) :
  (get_domain lib u = Return None -> get_root_domain lib u = Return None)
  /\ (forall e, get_domain lib u = Raise e ->
                get_root_domain lib u = Raise e)
  /\ (forall d, get_domain lib u = Return (Some d) ->
        exists r,
          get_root_domain lib u = Return (Some r)
          /\ ((startswith d "www." = true /\ d = "www." +:+ r)
              \/ (startswith d "www." = false /\ r = d))).
Proof.
  unfold get_root_domain. split; [|split].
  - intros ->. reflexivity.
  - intros e ->. reflexivity.
  - intros d ->. destruct (startswith d "www.") eqn:Hwww.
    + assert (Ht : str_truthy d = true).
      { destruct (startswith_first_char d _ _ Hwww) as [rest ->].
        reflexivity. }
      rewrite Ht. cbn [andb]. exists (string_drop 4 d).
      split; [reflexivity|]. left. split; [reflexivity|].
      apply (startswith_string_drop d "www." Hwww).
    + rewrite andb_false_r. exists d. split; [reflexivity|].
      right. split; reflexivity.
Qed.

(** ** Node: parse failures, the content hash, the metadata getters *)

(** X8: When the tree adapter raises on the first [process_html], the exception
    is raised by [process_html], no plugin has run, and the node is left at
    [HTML_STAGE] with nothing else changed; every later [process_html]
    then returns the empty list without parsing anything. *)
Theorem process_html_parse_failure_is_final
  (sha256_hexdigest : string -> string) (get_default_parser : ITreeAdapter)
  (self : Node.t) (html : string) (e : exn) :
  Node.lifecycle_stage self = URL_STAGE ->
  _parse_html_sync get_default_parser self html = Raise e ->
  let self' :=
    Node.set_state
      (NodeState.set_lifecycle_stage HTML_STAGE (Node.state self)) self in
  process_html sha256_hexdigest get_default_parser self html
  = (Raise e, self', [])
  /\ forall html2,
       process_html sha256_hexdigest get_default_parser self' html2
       = (Return [], self', []).
Proof.
  intros Hstage Hparse self'. split.
  - unfold process_html. rewrite Hstage. cbn [NodeLifecycle_eqb].
    fold self'.
    assert (Hparse' : _parse_html_sync get_default_parser self' html
                      = Raise e) by exact Hparse.
    rewrite Hparse'. reflexivity.
  - intros html2. unfold process_html. reflexivity.
Qed.

Lemma process_html_parse_failure_is_final_witness :
  process_html constant_digest text_parser node_with_broken_parser "<html>"
  = (Raise (Exn "ParserError" "bad markup"), node_after_parse_failure, [])
  /\ process_html constant_digest text_parser node_after_parse_failure
       "<html></html>"
     = (Return [], node_after_parse_failure, []).
Proof.
  destruct (process_html_parse_failure_is_final constant_digest text_parser
              node_with_broken_parser "<html>"
              (Exn "ParserError" "bad markup") eq_refl eq_refl)
    as [H1 H2].
  split; [exact H1|exact (H2 "<html></html>")].
Defined.




(** X10: The metadata getters are plain dictionary lookups: [get_meta_value]
    gives the stored value when the key is present and the default when it
    is missing, the emptiness test of [_get_metadata_field] making no
    difference; the named getters look up their key with the default
    [None]. *)
Theorem get_meta_value_is_lookup (self : Node.t) (key : string)
  (default_value : pyval) :
  get_meta_value self key default_value
  = default default_value (Node.metadata self !! key)
  /\ get_title self = default PNone (Node.metadata self !! "title")
  /\ get_description self
     = default PNone (Node.metadata self !! "description")
  /\ get_h1 self = default PNone (Node.metadata self !! "h1")
  /\ get_keywords self = default PNone (Node.metadata self !! "keywords")
  /\ get_canonical_url self
     = default PNone (Node.metadata self !! "canonical_url")
  /\ get_language self = default PNone (Node.metadata self !! "language").
Proof.
  assert (H : forall field d,
            _get_metadata_field self field d
            = default d (Node.metadata self !! field)).
  { intros field d. unfold _get_metadata_field, dict_truthy.
    destruct (bool_decide (Node.metadata self = ∅)) eqn:E; [|reflexivity].
    apply bool_decide_eq_true in E. rewrite E, lookup_empty. reflexivity. }
  unfold get_meta_value, get_title, get_description, get_h1, get_keywords,
    get_canonical_url, get_language.
  repeat split; apply H.
Qed.

(** ** NodeMapper: the way back, dependencies, lists *)

Lemma NodeLifecycle_of_value_inv (s : string) (l : NodeLifecycle) :
  NodeLifecycle_of_value s = Return l -> NodeLifecycle_value l = s.
Proof.
  unfold NodeLifecycle_of_value.
  destruct (String.eqb s "url_stage") eqn:E1.
  - intros [= <-]. symmetry. apply String.eqb_eq, E1.
  - destruct (String.eqb s "html_stage") eqn:E2; [|discriminate].
    intros [= <-]. symmetry. apply String.eqb_eq, E2.
Qed.

(** X11: A DTO that [to_domain] accepts (without a context) comes back from
    [to_dto] unchanged; the node in between satisfies the constraints on
    its fields and has no plugin manager, tree parser or hash strategy.
    A DTO whose [lifecycle_stage] is not the value of a lifecycle stage is
    rejected with the [ValueError] of the enum, with or without a
    context. *)
Theorem to_dto_to_domain_roundtrip (lib : PyStdlib) (node_dto : NodeDTO.t) :
  (forall node,
     to_domain lib node_dto None = Return node ->
     to_dto node = node_dto
     /\ fields_valid lib (Node.state node) = true
     /\ Node.plugin_manager node = None
     /\ Node.tree_parser node = None
     /\ Node.hash_strategy node = None)
  /\ (NodeDTO.lifecycle_stage node_dto <> "url_stage" ->
      NodeDTO.lifecycle_stage node_dto <> "html_stage" ->
      forall context, exists e,
        to_domain lib node_dto context = Raise e
        /\ exn_class e = "ValueError").
Proof.
  split.
  - unfold to_domain.
    cbn [default from_option id context_plugin_manager
         context_tree_parser context_hash_strategy].
    destruct (NodeLifecycle_of_value (NodeDTO.lifecycle_stage node_dto))
      as [l|e0] eqn:El; [|discriminate].
    unfold Node_init.
    destruct (fields_valid lib _) eqn:Hvalid; [|discriminate].
    intros node [= <-].
    apply NodeLifecycle_of_value_inv in El.
    cbn [_trigger_node_created_hook Node.plugin_manager].
    split; [|split; [exact Hvalid|repeat split]].
    destruct node_dto. unfold to_dto. cbn in *. rewrite El. reflexivity.
  - intros Hurl Hhtml context. unfold to_domain, NodeLifecycle_of_value.
    apply String.eqb_neq in Hurl, Hhtml. rewrite Hurl, Hhtml.
    eexists. split; reflexivity.
Qed.

Lemma to_domain_to_dto_exact (lib : PyStdlib) (n : Node.t) :
  fields_valid lib (Node.state n) = true ->
  NodeState._hash_determinism_validated (Node.state n) = false ->
  to_domain lib (to_dto n) None
  = Return (Node.mk (Node.state n) None None None).
Proof.
  intros Hvalid Hflag. unfold to_domain, to_dto.
  cbn [NodeDTO.lifecycle_stage]. rewrite NodeLifecycle_value_roundtrip.
  cbn [default from_option id context_plugin_manager context_tree_parser
       context_hash_strategy NodeDTO.url NodeDTO.node_id NodeDTO.depth
       NodeDTO.should_scan NodeDTO.can_create_edges NodeDTO.created_at
       NodeDTO.metadata NodeDTO.user_data NodeDTO.scanned
       NodeDTO.response_status NodeDTO.content_hash NodeDTO.priority].
  unfold Node_init.
  destruct n as [[url node_id depth should_scan can_create_edges created_at
                  metadata user_data scanned response_status content_hash
                  priority lifecycle_stage validated] pm tp hs].
  cbn [Node.state NodeState._hash_determinism_validated] in Hflag.
  subst validated.
  match goal with |- context [fields_valid lib ?s] =>
    assert (Hsame : fields_valid lib s = true) by exact Hvalid
  end.
  rewrite Hsame. reflexivity.
Qed.

(** X12: Serialising a valid node and deserialising it without a context gives
    the node without its three references, and [restore_dependencies] with
    the references of the original gives the original back: the fields are
    unchanged and no creation plugin has run on the way. *)
Theorem restore_dependencies_completes_roundtrip (lib : PyStdlib)
  (n : Node.t) :
  fields_valid lib (Node.state n) = true ->
  NodeState._hash_determinism_validated (Node.state n) = false ->
  exists n0,
    to_domain lib (to_dto n) None = Return n0
    /\ Node.plugin_manager n0 = None
    /\ Node.tree_parser n0 = None
    /\ Node.hash_strategy n0 = None
    /\ restore_dependencies n0 (Node.plugin_manager n) (Node.tree_parser n)
         (Node.hash_strategy n) = n
    /\ restore_dependencies n0 None None None = n0.
Proof.
  intros Hvalid Hflag. eexists.
  split; [apply to_domain_to_dto_exact; assumption|].
  split; [reflexivity|]. split; [reflexivity|]. split; [reflexivity|].
  split; [|reflexivity].
  destruct n as [st [pm|] [tp|] [hs|]]; reflexivity.
Qed.

Lemma restore_dependencies_completes_roundtrip_witness :
  exists n0,
    to_domain plain_lib (to_dto node_with_two_writers) None = Return n0
    /\ restore_dependencies n0 (Some two_writers) None None
       = node_with_two_writers.
Proof.
  destruct (restore_dependencies_completes_roundtrip plain_lib
              node_with_two_writers eq_refl eq_refl)
    as (n0 & Hrun & _ & _ & _ & Hback & _).
  exists n0. split; [exact Hrun|exact Hback].
Defined.

Lemma to_domain_list_of_valid (lib : PyStdlib) (nodes : list Node.t) :
  Forall (fun n =>
            fields_valid lib (Node.state n) = true
            /\ NodeState._hash_determinism_validated (Node.state n) = false)
         nodes ->
  to_domain_list lib (to_dto_list nodes) None
  = Return (map (fun n => Node.mk (Node.state n) None None None) nodes).
Proof.
  intros Hall.
  induction Hall as [|n nodes [Hvalid Hflag] _ IH];
    cbn [to_dto_list map to_domain_list]; [reflexivity|].
  rewrite (to_domain_to_dto_exact lib n Hvalid Hflag).
  unfold to_dto_list in IH. rewrite IH. reflexivity.
Qed.

Lemma to_domain_list_raises (lib : PyStdlib)
  (context : option mapper_context) (good : list NodeDTO.t)
  (bad : NodeDTO.t) (rest : list NodeDTO.t) (e : exn) :
  Forall (fun dto => exists n, to_domain lib dto context = Return n) good ->
  to_domain lib bad context = Raise e ->
  to_domain_list lib (good ++ bad :: rest) context = Raise e.
Proof.
  intros Hgood Hbad.
  induction Hgood as [|dto good [n Hn] _ IH]; cbn [app to_domain_list].
  - rewrite Hbad. reflexivity.
  - rewrite Hn, IH. reflexivity.
Qed.

(** X13: The list conversions: [to_dto_list] gives one DTO per node;
    [to_domain_list] on the DTOs of valid nodes gives the nodes back, in
    order, each without its three references; and one DTO that
    [to_domain] rejects makes [to_domain_list] raise, with the exception
    of the first such DTO, whatever follows it. *)
Theorem to_domain_list_to_dto_list_roundtrip (lib : PyStdlib)
  (nodes : list Node.t) :
  Forall (fun n =>
            fields_valid lib (Node.state n) = true
            /\ NodeState._hash_determinism_validated (Node.state n) = false)
         nodes ->
  length (to_dto_list nodes) = length nodes
  /\ to_domain_list lib (to_dto_list nodes) None
     = Return (map (fun n => Node.mk (Node.state n) None None None) nodes)
  /\ forall bad rest e,
       to_domain lib bad None = Raise e ->
       to_domain_list lib (to_dto_list nodes ++ bad :: rest) None = Raise e.
Proof.
  intros Hall. split; [apply length_map|].
  split; [apply to_domain_list_of_valid, Hall|].
  intros bad rest e Hbad.
  apply to_domain_list_raises; [|exact Hbad].
  clear Hbad. induction Hall as [|n nodes [Hvalid Hflag] _ IH];
    cbn [to_dto_list map]; constructor.
  - eexists. apply to_domain_to_dto_exact; assumption.
  - exact IH.
Qed.

Lemma to_domain_list_to_dto_list_roundtrip_witness :
  to_domain_list plain_lib (to_dto_list [fresh_node; processed_node]) None
  = Return [fresh_node; processed_node]
  /\ to_domain_list plain_lib
       (to_dto_list [fresh_node; processed_node]
        ++ [NodeDTO.mk "node-2" "https://example.com/a" 0 true true false
              None ∅ ∅ None None 0 "done"; to_dto fresh_node]) None
     = Raise (Exn "ValueError" "not a valid NodeLifecycle").
Proof.
  destruct (to_domain_list_to_dto_list_roundtrip plain_lib
              [fresh_node; processed_node]) as (_ & H1 & H2).
  - repeat constructor.
  - split; [exact H1|].
    exact (H2 (NodeDTO.mk "node-2" "https://example.com/a" 0 true true
                 false None ∅ ∅ None None 0 "done")
             [to_dto fresh_node]
             (Exn "ValueError" "not a valid NodeLifecycle") eq_refl).
Defined.

(** X7: The validator of [Node.url] accepts the URLs that [is_valid_url]
    accepts, so a [Node] can be constructed exactly from a URL that
    [is_valid_url] accepts, a depth that is not negative and a priority
    that is absent or between 1 and 10. *)
Theorem Node_init_validates (lib : PyStdlib) (fields : NodeState.t)
  (plugin_manager : option NodePluginManager)
  (tree_parser : option ITreeAdapter)
  (hash_strategy : option IContentHashStrategy) :
  (validate_url lib (NodeState.url fields) = Return (NodeState.url fields)
   <-> is_valid_url lib (NodeState.url fields) = true)
  /\ ((exists node,
         Node_init lib fields plugin_manager tree_parser hash_strategy
         = Return node)
      <-> (is_valid_url lib (NodeState.url fields) = true
           /\ 0 <= NodeState.depth fields
           /\ match NodeState.priority fields with
              | None => True
              | Some p => 1 <= p <= 10
              end)).
Proof.
  assert (Hurl : forall u,
            (exists v, validate_url lib u = Return v)
            <-> is_valid_url lib u = true).
  { intros u. unfold validate_url, is_valid_url, _parse_url_cached.
    destruct (str_truthy u); cbn [negb orb];
      [|split; [intros [v H]; discriminate H|discriminate]].
    destruct (startswith u "http://" || startswith u "https://");
      cbn [negb];
      [|split; [intros [v H]; discriminate H|discriminate]].
    destruct (urlparse lib (list_ascii_of_string u))
      as [[[[[[s n] p] pa] q] f]|e0];
      [|split; [intros [v H]; discriminate H|discriminate]].
    destruct n; cbn [nonempty negb].
    - split; [intros [v H]; discriminate H|discriminate].
    - split; [reflexivity|]. intros _. eexists. reflexivity. }
  assert (Hsame : forall u v, validate_url lib u = Return v -> v = u).
  { intros u v. unfold validate_url.
    repeat case_match; try discriminate. intros [= <-]. reflexivity. }
  split.
  - split.
    + intros H. apply Hurl. eexists. exact H.
    + intros H. apply Hurl in H as [v Hv].
      rewrite Hv. f_equal. apply (Hsame _ _ Hv).
  - unfold Node_init, fields_valid.
    destruct (validate_url lib (NodeState.url fields)) as [v|e0] eqn:Ev.
    + assert (Hvalid : is_valid_url lib (NodeState.url fields) = true)
        by (apply Hurl; eexists; exact Ev).
      cbn [andb]. destruct (0 <=? NodeState.depth fields) eqn:Ed.
      * apply Z.leb_le in Ed.
        destruct (NodeState.priority fields) as [p|].
        -- destruct ((1 <=? p) && (p <=? 10)) eqn:Ep.
           ++ apply andb_prop in Ep as [E1 E2].
              apply Z.leb_le in E1, E2. cbn [andb]. split.
              ** intros _. repeat split; assumption.
              ** intros _. eexists. reflexivity.
           ++ cbn [andb]. split; [intros [node H]; discriminate H|].
              intros (_ & _ & [E1 E2]).
              apply Z.leb_le in E1, E2. rewrite E1, E2 in Ep.
              discriminate Ep.
        -- cbn [andb]. split.
           ++ intros _. repeat split; assumption.
           ++ intros _. eexists. reflexivity.
      * apply Z.leb_gt in Ed. cbn [andb].
        split; [intros [node H]; discriminate H|].
        intros (_ & Hd & _). lia.
    + cbn [andb]. split; [intros [node H]; discriminate H|].
      intros (Hvalid & _). apply Hurl in Hvalid as [v Hv]. congruence.
Qed.

(** ** NodeScanner: every path of a scan *)




Section ScanBatchProperties.

Variable sha256_hexdigest : string -> string.
Variable get_default_parser : ITreeAdapter.




(** X17: [scan_batch] has no handler around [process_html]: when the tree
    adapter of the first node raises on a page that was fetched, the whole
    call raises that exception; the node stays at [HTML_STAGE] with its
    response status set and is not marked as scanned, and the nodes after
    it are not touched.  [scan_node] on the same node and response returns
    an empty result and marks the node as scanned when the exception is an
    instance of [Exception], and raises it as well when it is not. *)
Theorem scan_batch_raises_what_process_html_raises
  (driver_fetch_many : list string -> outcome (list (option FetchResponse.t)))
  (node : Node.t) (rest : list Node.t) (r : FetchResponse.t)
  (results : list (option FetchResponse.t)) (html : string) (e : exn) :
  driver_fetch_many (map Node.url (node :: rest))
  = Return (Some r :: results) ->
  opt_str_truthy (FetchResponse.error r) = false ->
  FetchResponse.html r = Some html ->
  str_truthy html = true ->
  Node.lifecycle_stage node = URL_STAGE ->
  _parse_html_sync get_default_parser node html = Raise e ->
  let node' :=
    Node.set_state
      (NodeState.set_lifecycle_stage HTML_STAGE
         (NodeState.set_response_status (FetchResponse.status_code r)
            (Node.state node))) node in
  scan_batch sha256_hexdigest get_default_parser driver_fetch_many
    (node :: rest)
  = (Raise e, node' :: rest)
  /\ Node.scanned node' = Node.scanned node
  /\ scan_node sha256_hexdigest get_default_parser
       (answering_driver (Some r)) node
     = (if isinstance_Exception e
        then (Return ([], None), mark_as_scanned node')
        else (Raise e, node')).
Proof.
  intros Hfetch Herr Hhtml Htruthy Hstage Hparse node'.
  assert (Hprocess :
    process_html sha256_hexdigest get_default_parser
      (Node.set_state
         (NodeState.set_response_status (FetchResponse.status_code r)
            (Node.state node)) node) html
    = (Raise e, node', [])).
  { unfold process_html.
    change (Node.lifecycle_stage
              (Node.set_state
                 (NodeState.set_response_status (FetchResponse.status_code r)
                    (Node.state node)) node))
      with (Node.lifecycle_stage node).
    rewrite Hstage. cbn [NodeLifecycle_eqb].
    match goal with |- context [_parse_html_sync _ ?n html] =>
      assert (Hp : _parse_html_sync get_default_parser n html = Raise e)
        by exact Hparse
    end.
    rewrite Hp. reflexivity. }
  split; [|split].
  - unfold scan_batch. rewrite Hfetch.
    cbn [scan_batch_loop]. unfold scan_batch_step.
    rewrite Herr, Hhtml, Htruthy, Hprocess. reflexivity.
  - reflexivity.
  - unfold scan_node, answering_driver. cbn [driver_fetch].
    rewrite Herr, Hhtml, Htruthy. cbn [negb]. rewrite Hprocess.
    unfold scan_node_except. destruct (isinstance_Exception e); reflexivity.
Qed.

End ScanBatchProperties.


Lemma scan_batch_raises_what_process_html_raises_witness :
  scan_batch constant_digest text_parser batch_driver_with_page
    [node_with_broken_parser; fresh_node]
  = (Raise (Exn "ParserError" "bad markup"),
     [Node.set_state
        (NodeState.set_lifecycle_stage HTML_STAGE
           (NodeState.set_response_status (Some 200) fresh_state))
        node_with_broken_parser;
      fresh_node])
  /\ scan_node constant_digest text_parser
       (answering_driver (Some response_with_page)) node_with_broken_parser
     = (Return ([], None),
        mark_as_scanned
          (Node.set_state
             (NodeState.set_lifecycle_stage HTML_STAGE
                (NodeState.set_response_status (Some 200) fresh_state))
             node_with_broken_parser))
  /\ scan_node constant_digest text_parser
       (answering_driver (Some response_with_page))
       node_with_interrupted_parser
     = (Raise (Exn "KeyboardInterrupt" ""),
        Node.set_state
          (NodeState.set_lifecycle_stage HTML_STAGE
             (NodeState.set_response_status (Some 200) fresh_state))
          node_with_interrupted_parser).
Proof.
  destruct (scan_batch_raises_what_process_html_raises constant_digest
              text_parser batch_driver_with_page node_with_broken_parser
              [fresh_node] response_with_page [Some response_with_page]
              "<p>hi</p>" (Exn "ParserError" "bad markup")
              eq_refl eq_refl eq_refl eq_refl eq_refl eq_refl)
    as (H1 & _ & H2).
  destruct (scan_batch_raises_what_process_html_raises constant_digest
              text_parser batch_driver_with_page node_with_interrupted_parser
              [] response_with_page [] "<p>hi</p>"
              (Exn "KeyboardInterrupt" "")
              eq_refl eq_refl eq_refl eq_refl eq_refl eq_refl)
    as (_ & _ & H3).
  split; [exact H1|]. split; [exact H2|exact H3].
Defined.

(** X15: A response without a page (no body, an empty body, or a body that is
    not text) and without an error ends the scan early: the status of the
    response is recorded and the node is marked as scanned, but
    [process_html] is not called, so the node stays at its lifecycle stage
    and keeps its metadata, user data and content hash. *)
Theorem scan_node_without_page
  (sha256_hexdigest : string -> string) (get_default_parser : ITreeAdapter)
  (driver : BaseDriver) (node : Node.t) (r : FetchResponse.t) :
  driver_fetch driver (Node.url node) = Return (Some r) ->
  opt_str_truthy (FetchResponse.error r) = false ->
  opt_str_truthy (FetchResponse.html r) = false ->
  exists node',
    scan_node sha256_hexdigest get_default_parser driver node
    = (Return ([], Some r), node')
    /\ Node.scanned node' = true
    /\ Node.response_status node' = FetchResponse.status_code r
    /\ Node.lifecycle_stage node' = Node.lifecycle_stage node
    /\ Node.metadata node' = Node.metadata node
    /\ Node.user_data node' = Node.user_data node
    /\ Node.content_hash node' = Node.content_hash node.
Proof.
  intros Hfetch Herr Hhtml. unfold scan_node. rewrite Hfetch, Herr.
  destruct (FetchResponse.html r) as [html|].
  - cbn [opt_str_truthy] in Hhtml. rewrite Hhtml. cbn [negb].
    eexists. split; [reflexivity|]. repeat split; reflexivity.
  - eexists. split; [reflexivity|]. repeat split; reflexivity.
Qed.

Lemma scan_node_without_page_witness :
  exists node',
    scan_node constant_digest text_parser
      (answering_driver
         (Some (FetchResponse.mk "https://example.com/" None (Some 200) ∅
                  None None [])))
      fresh_node
    = (Return ([], Some (FetchResponse.mk "https://example.com/" None
                           (Some 200) ∅ None None [])), node')
    /\ Node.scanned node' = true
    /\ Node.response_status node' = Some 200
    /\ Node.lifecycle_stage node' = URL_STAGE.
Proof.
  destruct (scan_node_without_page constant_digest text_parser
              (answering_driver
                 (Some (FetchResponse.mk "https://example.com/" None
                          (Some 200) ∅ None None [])))
              fresh_node
              (FetchResponse.mk "https://example.com/" None (Some 200) ∅
                 None None [])
              eq_refl eq_refl eq_refl)
    as (node' & Hrun & Hs & Hst & Hl & _).
  exists node'. repeat split; assumption.
Defined.

(** ** AsyncDriver: cancellation, a plain fetch, retries *)

(** X18: When a plugin cancels the request before it is sent, [fetch] returns
    at once, without sleeping or retrying and whatever the server would
    have answered, the response for a cancelled request: it carries the
    URL of the context, no page and no status, and the error
    [Cancelled: <reason>], the reason being [Unknown] when the plugin gave
    none; it is neither a success nor a redirect. *)
Theorem fetch_cancelled_before_request
  (py_str : pyval -> string) (transport : Transport)
  (fuel attempt : nat) (url : string) (ctx : AsyncHTTPContext.t) :
  _get_session transport attempt = Return tt ->
  cancelled_before_request transport attempt url ctx ->
  let r := _create_cancelled_response py_str ctx in
  fetch py_str transport (S fuel) attempt url = (Some (Return r), [])
  /\ FetchResponse.url r = AsyncHTTPContext.url ctx
  /\ FetchResponse.error r
     = Some ("Cancelled: "
             +:+ py_str (default (PStr "Unknown")
                           (AsyncHTTPContext.data ctx
                              !! "cancellation_reason")))
  /\ FetchResponse.html r = None
  /\ FetchResponse.status_code r = None
  /\ is_success r = false /\ is_ok r = false /\ is_redirect r = false.
Proof.
  intros Hsession Hcancel r. split; [|repeat split].
  cbn [fetch]. rewrite Hsession. fold (initial_context transport url).
  assert (Htry : fetch_try py_str transport attempt url
                   (initial_context transport url) = TryReturn r).
  { unfold fetch_try, hook.
    destruct Hcancel as (ctx1 & H1 & [[Hc1 ->]|(Hc1 & ctx2 & H2 & Hrest)]).
    - rewrite H1, Hc1. reflexivity.
    - rewrite H1, Hc1, H2.
      destruct Hrest as [[Hc2 ->]|(Hc2 & H3 & Hc3)].
      + rewrite Hc2. reflexivity.
      + rewrite Hc2, H3, Hc3. reflexivity. }
  rewrite Htry. reflexivity.
Qed.

Lemma fetch_cancelled_before_request_witness :
  fetch example_py_str cancelling_transport 1 0 "https://example.com/private"
  = (Some (Return (FetchResponse.mk "https://example.com/private" None None
                     ∅ (Some "Cancelled: robots.txt") None [])), []).
Proof.
  destruct (fetch_cancelled_before_request example_py_str
              cancelling_transport 0 0 "https://example.com/private"
              (AsyncHTTPContext.set_cancelled true
                 (AsyncHTTPContext.set_data
                    (<["cancellation_reason" := PStr "robots.txt"]> ∅)
                    (initial_context cancelling_transport
                       "https://example.com/private")))
              eq_refl) as (H & _).
  - eexists. split; [reflexivity|]. right. split; [reflexivity|].
    eexists. split; [reflexivity|]. left. split; reflexivity.
  - rewrite H. vm_compute. reflexivity.
Defined.

(** X19: A fetch by a driver without plugins that the server answers: the
    response carries the requested URL, the status and the headers of the
    answer, no error, and the body when it is text ([None] when decoding
    it raises [UnicodeDecodeError]).  [final_url] is set exactly when the
    URL of the answer differs from the requested one, so [is_redirect]
    tells whether the server redirected. *)
Theorem fetch_without_plugins
  (py_str : pyval -> string) (transport : Transport)
  (fuel attempt : nat) (url : string) (response : ClientResponse) :
  _get_session transport attempt = Return tt ->
  no_plugins transport attempt ->
  session_get transport attempt url ∅ ∅ = Return response ->
  (forall e, resp_text response = Raise e ->
             exn_class e = "UnicodeDecodeError") ->
  exists r,
    fetch py_str transport (S fuel) attempt url = (Some (Return r), [])
    /\ FetchResponse.url r = url
    /\ FetchResponse.html r = html_of_body (resp_text response)
    /\ FetchResponse.status_code r = Some (resp_status response)
    /\ FetchResponse.headers r = resp_headers response
    /\ FetchResponse.error r = None
    /\ FetchResponse.redirect_chain r = resp_history response
    /\ (FetchResponse.final_url r
        = if String.eqb (resp_url response) url then None
          else Some (resp_url response))
    /\ (is_redirect r = true <-> resp_url response <> url)
    /\ (is_success r = true <-> exists text, resp_text response = Return text).
Proof.
  intros Hsession Hplugins Hget Hbody.
  cbn [fetch]. rewrite Hsession. unfold fetch_try, hook.
  rewrite !Hplugins.
  cbn [AsyncHTTPContext.cancelled AsyncHTTPContext.headers
       AsyncHTTPContext.params].
  rewrite Hget, !Hplugins.
  assert (Hredirect : forall h st hs er,
            is_redirect
              (FetchResponse.mk url h st hs er
                 (if String.eqb (resp_url response) url then None
                  else Some (resp_url response)) (resp_history response))
            = true <-> resp_url response <> url).
  { intros h st hs er. unfold is_redirect.
    cbn [FetchResponse.final_url FetchResponse.url].
    destruct (String.eqb (resp_url response) url) eqn:E.
    - apply String.eqb_eq in E. split; [discriminate|contradiction].
    - rewrite E. apply String.eqb_neq in E. split; [intros _; exact E|].
      reflexivity. }
  destruct (resp_text response) as [text|e] eqn:Etext.
  - rewrite !Hplugins. eexists. split; [reflexivity|].
    split; [reflexivity|]. split; [reflexivity|]. split; [reflexivity|].
    split; [reflexivity|]. split; [reflexivity|]. split; [reflexivity|].
    split; [reflexivity|]. split; [apply Hredirect|].
    split; [intros _; exists text; reflexivity|reflexivity].
  - rewrite (Hbody e eq_refl).
    change ("UnicodeDecodeError" =? "UnicodeDecodeError")%string with true.
    cbv iota. rewrite !Hplugins. eexists. split; [reflexivity|].
    split; [reflexivity|]. split; [reflexivity|]. split; [reflexivity|].
    split; [reflexivity|]. split; [reflexivity|]. split; [reflexivity|].
    split; [reflexivity|]. split; [apply Hredirect|].
    split; [discriminate|intros [text Ht]; discriminate Ht].
Qed.

Lemma fetch_without_plugins_witness :
  exists r,
    fetch example_py_str redirecting_transport 1 0 "https://example.com/old"
    = (Some (Return r), [])
    /\ FetchResponse.final_url r = Some "https://example.com/new"
    /\ is_redirect r = true.
Proof.
  destruct (fetch_without_plugins example_py_str redirecting_transport 0 0
              "https://example.com/old"
              {| resp_status := 200;
                 resp_headers := ∅;
                 resp_url := "https://example.com/new";
                 resp_history := ["https://example.com/old"];
                 resp_text := Return "<p>moved</p>" |}
              eq_refl)
    as (r & Hrun & _ & _ & _ & _ & _ & _ & Hfinal & Hredirect & _).
  - intros stage ctx. reflexivity.
  - reflexivity.
  - intros e H. discriminate H.
  - exists r. split; [exact Hrun|]. split; [exact Hfinal|].
    apply Hredirect. discriminate.
Defined.

(** X20: The retries of one [fetch] add up: when a plugin asks for a retry
    after each of the first attempts, the driver sleeps for each of the
    delays asked for, in order, and the call ends as the attempt after
    them ends, with the sleeps of that attempt after those. *)
Theorem fetch_sleeps_then_retries
  (py_str : pyval -> string) (transport : Transport)
  (delays : list Q) (fuel attempt : nat) (url : string) :
  (forall i d, delays !! i = Some d ->
     retry_requested py_str transport (attempt + i) url d) ->
  fetch py_str transport (length delays + fuel) attempt url
  = ((fetch py_str transport fuel (attempt + length delays) url).1,
     delays
     ++ (fetch py_str transport fuel (attempt + length delays) url).2).
Proof.
  revert attempt. induction delays as [|d delays IH]; intros attempt Hall.
  - cbn [length Nat.add app]. rewrite Nat.add_0_r.
    destruct (fetch py_str transport fuel attempt url). reflexivity.
  - destruct (Hall 0%nat d eq_refl)
      as (e & ctx & ctx' & Hs & Htry & Hhook & Hretry & Hdelay).
    rewrite Nat.add_0_r in Hs, Htry, Hhook.
    cbn [length Nat.add].
    rewrite (fetch_retries_after_failure py_str transport _ attempt url e
               ctx ctx' d Hs Htry Hhook Hretry Hdelay).
    rewrite IH.
    + replace (S attempt + length delays)%nat
        with (attempt + S (length delays))%nat by lia.
      reflexivity.
    + intros i d' Hi.
      replace (S attempt + i)%nat with (attempt + S i)%nat by lia.
      apply Hall. exact Hi.
Qed.

Lemma fetch_sleeps_then_retries_witness :
  fetch example_py_str recovering_transport 3 0 "https://example.com/"
  = (Some (Return (FetchResponse.mk "https://example.com/"
                     (Some "<p>hi</p>") (Some 200) ∅ None None [])),
     [1 # 2; 1 # 2]%Q).
Proof.
  etransitivity.
  - apply (fetch_sleeps_then_retries example_py_str recovering_transport
             [1 # 2; 1 # 2]%Q 1 0 "https://example.com/").
    intros [|[|i]] d Hd; try discriminate Hd; injection Hd as <-;
      (eexists _, _, _; split; [reflexivity|]; split; [reflexivity|];
       split; [reflexivity|]; split; reflexivity).
  - vm_compute. reflexivity.
Defined.

(** ** AdaptiveThrottler: what a run of reports leaves behind *)

(** An adjustment step writes the delay, the adjustment counter, the copy
    of the delay in the metrics and the history, and nothing else. *)
Lemma _adjust_delay_frame (self : AdaptiveThrottler.t) :
  same_parameters (_adjust_delay self) self
  /\ AdaptiveThrottler.recent_response_times (_adjust_delay self)
     = AdaptiveThrottler.recent_response_times self
  /\ AdaptiveThrottler.recent_errors (_adjust_delay self)
     = AdaptiveThrottler.recent_errors self
  /\ AdaptiveThrottler.requests_since_adjustment (_adjust_delay self)
     = AdaptiveThrottler.requests_since_adjustment self
  /\ total_requests (AdaptiveThrottler.metrics (_adjust_delay self))
     = total_requests (AdaptiveThrottler.metrics self)
  /\ successful_requests (AdaptiveThrottler.metrics (_adjust_delay self))
     = successful_requests (AdaptiveThrottler.metrics self)
  /\ failed_requests (AdaptiveThrottler.metrics (_adjust_delay self))
     = failed_requests (AdaptiveThrottler.metrics self)
  /\ response_times (AdaptiveThrottler.metrics (_adjust_delay self))
     = response_times (AdaptiveThrottler.metrics self).
Proof.
  unfold _adjust_delay, same_parameters.
  destruct (AdaptiveThrottler.recent_errors self) as [|e0 errs] eqn:Eerr.
  { rewrite Eerr. repeat split; reflexivity. }
  destruct (AdaptiveThrottler.error_threshold self
            <? window_error_rate self)%float.
  - cbn zeta. destruct (0.001 <? _)%float; cbn; rewrite ?Eerr;
      repeat split; reflexivity.
  - destruct (match AdaptiveThrottler.recent_response_times self with
              | [] => false
              | _ => _
              end).
    + cbn zeta. destruct (0.001 <? _)%float; cbn; rewrite ?Eerr;
        repeat split; reflexivity.
    + cbn. rewrite ?Eerr. repeat split; reflexivity.
Qed.

(** An adjustment step either leaves the history and its counter alone, or
    appends one entry that records the old and the new delay, which differ
    by more than a millisecond, and counts it. *)
Lemma _adjust_delay_history (self : AdaptiveThrottler.t) :
  (AdaptiveThrottler.adjustment_history (_adjust_delay self)
   = AdaptiveThrottler.adjustment_history self
   /\ adjustments_count (AdaptiveThrottler.metrics (_adjust_delay self))
      = adjustments_count (AdaptiveThrottler.metrics self))
  \/ (exists entry,
        AdaptiveThrottler.adjustment_history (_adjust_delay self)
        = AdaptiveThrottler.adjustment_history self ++ [entry]
        /\ adjustments_count (AdaptiveThrottler.metrics (_adjust_delay self))
           = adjustments_count (AdaptiveThrottler.metrics self) + 1
        /\ adj_old_delay entry = AdaptiveThrottler.current_delay self
        /\ adj_new_delay entry
           = AdaptiveThrottler.current_delay (_adjust_delay self)
        /\ (0.001 <? PrimFloat.abs (adj_new_delay entry - adj_old_delay entry))%float
           = true
        /\ metrics_current_delay
             (AdaptiveThrottler.metrics (_adjust_delay self))
           = AdaptiveThrottler.current_delay (_adjust_delay self)).
Proof.
  unfold _adjust_delay.
  destruct (AdaptiveThrottler.recent_errors self) as [|e0 errs] eqn:Eerr.
  { left. split; reflexivity. }
  destruct (AdaptiveThrottler.error_threshold self
            <? window_error_rate self)%float.
  - cbn zeta. destruct (0.001 <? _)%float eqn:E.
    + right. eexists. cbn. repeat split. exact E.
    + left. split; reflexivity.
  - destruct (match AdaptiveThrottler.recent_response_times self with
              | [] => false
              | _ => _
              end).
    + cbn zeta. destruct (0.001 <? _)%float eqn:E.
      * right. eexists. cbn. repeat split. exact E.
      * left. split; reflexivity.
    + left. split; reflexivity.
Qed.

(** The delay after an adjustment step lies within the bounds, or is the
    delay before the step (when the window is empty). *)
Lemma _adjust_delay_bounds (self : AdaptiveThrottler.t) :
  (AdaptiveThrottler.min_delay self <=? AdaptiveThrottler.max_delay self)%float
  = true ->
  (AdaptiveThrottler.min_delay self <=? AdaptiveThrottler.current_delay self)
    %float = true
  /\ (AdaptiveThrottler.current_delay self
      <=? AdaptiveThrottler.max_delay self)%float = true ->
  (AdaptiveThrottler.min_delay self
   <=? AdaptiveThrottler.current_delay (_adjust_delay self))%float = true
  /\ (AdaptiveThrottler.current_delay (_adjust_delay self)
      <=? AdaptiveThrottler.max_delay self)%float = true.
Proof.
  intros Hmm Hin.
  destruct (AdaptiveThrottler.recent_errors self) as [|e0 errs] eqn:Eerr.
  - unfold _adjust_delay. rewrite Eerr. exact Hin.
  - rewrite _adjust_delay_current_delay by (rewrite Eerr; discriminate).
    apply clamp_delay_bounds, Hmm.
Qed.

(** The throttler with its request counter set, as [check_adjustment] has
    it before it decides. *)
Lemma check_adjustment_unfold (self : AdaptiveThrottler.t) :
  let n := AdaptiveThrottler.requests_since_adjustment self + 1 in
  let counted :=
    AdaptiveThrottler.update (AdaptiveThrottler.current_delay self)
      (AdaptiveThrottler.recent_response_times self)
      (AdaptiveThrottler.recent_errors self) (AdaptiveThrottler.metrics self)
      n (AdaptiveThrottler.adjustment_history self) self in
  ((AdaptiveThrottler.adjustment_interval self <=? n) = false
   /\ check_adjustment self = counted)
  \/ ((AdaptiveThrottler.adjustment_interval self <=? n) = true
      /\ check_adjustment self
         = AdaptiveThrottler.update
             (AdaptiveThrottler.current_delay (_adjust_delay counted))
             (AdaptiveThrottler.recent_response_times
                (_adjust_delay counted))
             (AdaptiveThrottler.recent_errors (_adjust_delay counted))
             (AdaptiveThrottler.metrics (_adjust_delay counted))
             0 (AdaptiveThrottler.adjustment_history (_adjust_delay counted))
             (_adjust_delay counted)).
Proof.
  intros n counted. unfold check_adjustment. fold n. fold counted.
  change (AdaptiveThrottler.adjustment_interval counted)
    with (AdaptiveThrottler.adjustment_interval self).
  destruct (AdaptiveThrottler.adjustment_interval self <=? n);
    [right|left]; split; reflexivity.
Qed.

Lemma check_adjustment_frame (self : AdaptiveThrottler.t) :
  same_parameters (check_adjustment self) self
  /\ AdaptiveThrottler.recent_response_times (check_adjustment self)
     = AdaptiveThrottler.recent_response_times self
  /\ AdaptiveThrottler.recent_errors (check_adjustment self)
     = AdaptiveThrottler.recent_errors self
  /\ AdaptiveThrottler.requests_since_adjustment (check_adjustment self)
     = (if AdaptiveThrottler.adjustment_interval self
           <=? AdaptiveThrottler.requests_since_adjustment self + 1
        then 0
        else AdaptiveThrottler.requests_since_adjustment self + 1)
  /\ total_requests (AdaptiveThrottler.metrics (check_adjustment self))
     = total_requests (AdaptiveThrottler.metrics self)
  /\ successful_requests (AdaptiveThrottler.metrics (check_adjustment self))
     = successful_requests (AdaptiveThrottler.metrics self)
  /\ failed_requests (AdaptiveThrottler.metrics (check_adjustment self))
     = failed_requests (AdaptiveThrottler.metrics self)
  /\ response_times (AdaptiveThrottler.metrics (check_adjustment self))
     = response_times (AdaptiveThrottler.metrics self).
Proof.
  destruct (check_adjustment_unfold self) as [[E ->]|[E ->]]; rewrite E.
  - unfold same_parameters. cbn. repeat split; reflexivity.
  - match goal with |- context [_adjust_delay ?c] =>
      destruct (_adjust_delay_frame c)
        as ((P1 & P2 & P3 & P4 & P5 & P6 & P7 & P8 & P9)
            & F1 & F2 & F3 & F4 & F5 & F6 & F7)
    end.
    unfold same_parameters. cbn in *.
    repeat split; assumption.
Qed.

Lemma check_adjustment_bounds (self : AdaptiveThrottler.t) :
  (AdaptiveThrottler.min_delay self <=? AdaptiveThrottler.max_delay self)%float
  = true ->
  (AdaptiveThrottler.min_delay self <=? AdaptiveThrottler.current_delay self)
    %float = true
  /\ (AdaptiveThrottler.current_delay self
      <=? AdaptiveThrottler.max_delay self)%float = true ->
  (AdaptiveThrottler.min_delay self
   <=? AdaptiveThrottler.current_delay (check_adjustment self))%float = true
  /\ (AdaptiveThrottler.current_delay (check_adjustment self)
      <=? AdaptiveThrottler.max_delay self)%float = true.
Proof.
  intros Hmm Hin.
  destruct (check_adjustment_unfold self) as [[E ->]|[E ->]].
  - exact Hin.
  - cbn [AdaptiveThrottler.update AdaptiveThrottler.current_delay].
    match goal with |- context [_adjust_delay ?c] =>
      apply (_adjust_delay_bounds c)
    end; assumption.
Qed.

(** What the history and its counter look like after the check: as
    before, or one entry longer. *)
Lemma check_adjustment_history (self : AdaptiveThrottler.t) :
  (AdaptiveThrottler.adjustment_history (check_adjustment self)
   = AdaptiveThrottler.adjustment_history self
   /\ adjustments_count (AdaptiveThrottler.metrics (check_adjustment self))
      = adjustments_count (AdaptiveThrottler.metrics self))
  \/ (exists entry,
        AdaptiveThrottler.adjustment_history (check_adjustment self)
        = AdaptiveThrottler.adjustment_history self ++ [entry]
        /\ adjustments_count
             (AdaptiveThrottler.metrics (check_adjustment self))
           = adjustments_count (AdaptiveThrottler.metrics self) + 1
        /\ adj_old_delay entry = AdaptiveThrottler.current_delay self
        /\ adj_new_delay entry
           = AdaptiveThrottler.current_delay (check_adjustment self)
        /\ (0.001 <? PrimFloat.abs (adj_new_delay entry - adj_old_delay entry))%float
           = true).
Proof.
  destruct (check_adjustment_unfold self) as [[E ->]|[E ->]].
  - left. split; reflexivity.
  - match goal with |- context [_adjust_delay ?c] =>
      destruct (_adjust_delay_history c)
        as [[H1 H2]|(entry & H1 & H2 & H3 & H4 & H5 & _)]
    end.
    + left. cbn in *. split; assumption.
    + right. exists entry. cbn in *. repeat split; assumption.
Qed.

(** The number of failures among the reports. *)
Lemma last_n_app {A} (n : nat) (l m : list A) :
  last_n n (last_n n l ++ m) = last_n n (l ++ m).
Proof.
  unfold last_n. rewrite !length_app, length_drop.
  destruct (decide (length l <= n)%nat) as [Hle|Hgt].
  - replace (length l - n)%nat with 0%nat by lia. cbn [drop].
    replace (length l - 0)%nat with (length l) by lia. reflexivity.
  - replace (length l - (length l - n) + length m - n)%nat
      with (length m) by lia.
    replace (length l + length m - n)%nat
      with ((length l - n) + length m)%nat by lia.
    rewrite <- drop_drop. f_equal.
    rewrite drop_app_le by lia. reflexivity.
Qed.

Lemma last_n_length {A} (n : nat) (l : list A) :
  length (last_n n l) = Nat.min n (length l).
Proof. unfold last_n. rewrite length_drop. lia. Qed.

Lemma last_n_all {A} (n : nat) (l : list A) :
  (length l <= n)%nat -> last_n n l = l.
Proof.
  intros H. unfold last_n. replace (length l - n)%nat with 0%nat by lia.
  reflexivity.
Qed.

Lemma deque_append_last_n {A} (n : nat) (d : list A) (x : A) :
  deque_append n d x = last_n n (d ++ [x]).
Proof. reflexivity. Qed.

(** One report: what [record_success] or [record_failure] writes. *)
Lemma record_frame (self : AdaptiveThrottler.t) (r : request_report) :
  same_parameters (record self r) self
  /\ AdaptiveThrottler.recent_errors (record self r)
     = last_n (AdaptiveThrottler.window_size self)
         (AdaptiveThrottler.recent_errors self ++ [is_failure r])
  /\ AdaptiveThrottler.recent_response_times (record self r)
     = match reported_time_ms r with
       | [] => AdaptiveThrottler.recent_response_times self
       | ms => last_n (AdaptiveThrottler.window_size self)
                 (AdaptiveThrottler.recent_response_times self ++ ms)
       end
  /\ AdaptiveThrottler.requests_since_adjustment (record self r)
     = (if AdaptiveThrottler.adjustment_interval self
           <=? AdaptiveThrottler.requests_since_adjustment self + 1
        then 0
        else AdaptiveThrottler.requests_since_adjustment self + 1)
  /\ total_requests (AdaptiveThrottler.metrics (record self r))
     = total_requests (AdaptiveThrottler.metrics self) + 1
  /\ successful_requests (AdaptiveThrottler.metrics (record self r))
     = successful_requests (AdaptiveThrottler.metrics self)
       + (if is_failure r then 0 else 1)
  /\ failed_requests (AdaptiveThrottler.metrics (record self r))
     = failed_requests (AdaptiveThrottler.metrics self)
       + (if is_failure r then 1 else 0)
  /\ response_times (AdaptiveThrottler.metrics (record self r))
     = response_times (AdaptiveThrottler.metrics self) ++ reported_time_ms r.
Proof.
  destruct r as [rt|[rt|]]; unfold record, record_success, record_failure;
    cbn zeta;
    match goal with |- context [check_adjustment ?c] =>
      destruct (check_adjustment_frame c)
        as ((P1 & P2 & P3 & P4 & P5 & P6 & P7 & P8 & P9)
            & F1 & F2 & F3 & F4 & F5 & F6 & F7)
    end;
    unfold same_parameters; cbn in *; rewrite ?Z.add_0_r, ?app_nil_r;
    repeat split; assumption.
Qed.

Lemma record_bounds (self : AdaptiveThrottler.t) (r : request_report) :
  (AdaptiveThrottler.min_delay self <=? AdaptiveThrottler.max_delay self)%float
  = true ->
  (AdaptiveThrottler.min_delay self <=? AdaptiveThrottler.current_delay self)
    %float = true
  /\ (AdaptiveThrottler.current_delay self
      <=? AdaptiveThrottler.max_delay self)%float = true ->
  (AdaptiveThrottler.min_delay self
   <=? AdaptiveThrottler.current_delay (record self r))%float = true
  /\ (AdaptiveThrottler.current_delay (record self r)
      <=? AdaptiveThrottler.max_delay self)%float = true.
Proof.
  intros Hmm Hin.
  destruct r as [rt|[rt|]]; unfold record, record_success, record_failure;
    cbn zeta;
    match goal with |- context [check_adjustment ?c] =>
      apply (check_adjustment_bounds c)
    end; assumption.
Qed.

Lemma record_history (self : AdaptiveThrottler.t) (r : request_report) :
  (AdaptiveThrottler.adjustment_history (record self r)
   = AdaptiveThrottler.adjustment_history self
   /\ adjustments_count (AdaptiveThrottler.metrics (record self r))
      = adjustments_count (AdaptiveThrottler.metrics self))
  \/ (exists entry,
        AdaptiveThrottler.adjustment_history (record self r)
        = AdaptiveThrottler.adjustment_history self ++ [entry]
        /\ adjustments_count (AdaptiveThrottler.metrics (record self r))
           = adjustments_count (AdaptiveThrottler.metrics self) + 1
        /\ adj_old_delay entry = AdaptiveThrottler.current_delay self
        /\ adj_new_delay entry
           = AdaptiveThrottler.current_delay (record self r)
        /\ (0.001 <? PrimFloat.abs (adj_new_delay entry - adj_old_delay entry))%float
           = true).
Proof.
  destruct r as [rt|[rt|]]; unfold record, record_success, record_failure;
    cbn zeta;
    match goal with |- context [check_adjustment ?c] =>
      destruct (check_adjustment_history c)
        as [[H1 H2]|(entry & H1 & H2 & H3 & H4 & H5)]
    end;
    first [ left; cbn in *; split; assumption
          | right; exists entry; cbn in *; repeat split; assumption ].
Qed.

Lemma record_all_cons (self : AdaptiveThrottler.t) (r : request_report)
  (reports : list request_report) :
  record_all self (r :: reports) = record_all (record self r) reports.
Proof. reflexivity. Qed.

Lemma same_parameters_trans (a b c : AdaptiveThrottler.t) :
  same_parameters a b -> same_parameters b c -> same_parameters a c.
Proof.
  unfold same_parameters.
  intros (A1 & A2 & A3 & A4 & A5 & A6 & A7 & A8 & A9)
         (B1 & B2 & B3 & B4 & B5 & B6 & B7 & B8 & B9).
  repeat split; congruence.
Qed.

Lemma record_all_same_parameters (self : AdaptiveThrottler.t)
  (reports : list request_report) :
  same_parameters (record_all self reports) self.
Proof.
  revert self. induction reports as [|r reports IH]; intros self.
  - unfold same_parameters. repeat split; reflexivity.
  - rewrite record_all_cons.
    apply (same_parameters_trans _ (record self r)); [apply IH|].
    apply record_frame.
Qed.

Lemma record_all_metrics (self : AdaptiveThrottler.t)
  (reports : list request_report) :
  total_requests (AdaptiveThrottler.metrics (record_all self reports))
  = total_requests (AdaptiveThrottler.metrics self)
    + Z.of_nat (length reports)
  /\ failed_requests (AdaptiveThrottler.metrics (record_all self reports))
     = failed_requests (AdaptiveThrottler.metrics self) + failures reports
  /\ successful_requests
       (AdaptiveThrottler.metrics (record_all self reports))
     = successful_requests (AdaptiveThrottler.metrics self)
       + (Z.of_nat (length reports) - failures reports)
  /\ response_times (AdaptiveThrottler.metrics (record_all self reports))
     = response_times (AdaptiveThrottler.metrics self)
       ++ reported_times_ms reports.
Proof.
  revert self. induction reports as [|r reports IH]; intros self.
  - unfold failures, reported_times_ms. cbn. rewrite app_nil_r.
    repeat split; lia.
  - rewrite record_all_cons.
    destruct (IH (record self r)) as (I1 & I2 & I3 & I4).
    destruct (record_frame self r)
      as (_ & _ & _ & _ & F1 & F2 & F3 & F4).
    rewrite I1, I2, I3, I4, F1, F2, F3, F4.
    unfold failures, reported_times_ms.
    cbn [List.filter map concat length].
    destruct (is_failure r); cbn [length]; rewrite <- ?app_assoc;
      repeat split; lia.
Qed.

(** X21: The counters of the metrics after a run of reports: every report is
    counted once, as a success or as a failure, and its response time,
    when it has one, is appended to the list of response times.  So
    [total_requests = successful_requests + failed_requests] holds after
    the run when it held before. *)
Theorem record_all_counts (self : AdaptiveThrottler.t)
  (reports : list request_report) :
  let before := AdaptiveThrottler.metrics self in
  let after := AdaptiveThrottler.metrics (record_all self reports) in
  total_requests after
  = total_requests before + Z.of_nat (length reports)
  /\ failed_requests after = failed_requests before + failures reports
  /\ successful_requests after
     = successful_requests before
       + (Z.of_nat (length reports) - failures reports)
  /\ response_times after
     = response_times before ++ reported_times_ms reports
  /\ (total_requests before
      = successful_requests before + failed_requests before ->
      total_requests after
      = successful_requests after + failed_requests after).
Proof.
  cbn zeta. destruct (record_all_metrics self reports) as (H1 & H2 & H3 & H4).
  repeat split; try assumption. intros Hinv. lia.
Qed.

(** X22: The two windows after a run of reports hold the most recent
    [window_size] outcomes and response times, in order: older ones have
    fallen out, so neither window is longer than [window_size]. *)
Theorem record_all_windows (self : AdaptiveThrottler.t)
  (reports : list request_report) :
  (length (AdaptiveThrottler.recent_errors self)
   <= AdaptiveThrottler.window_size self)%nat ->
  (length (AdaptiveThrottler.recent_response_times self)
   <= AdaptiveThrottler.window_size self)%nat ->
  let w := AdaptiveThrottler.window_size self in
  let after := record_all self reports in
  AdaptiveThrottler.recent_errors after
  = last_n w (AdaptiveThrottler.recent_errors self ++ map is_failure reports)
  /\ AdaptiveThrottler.recent_response_times after
     = last_n w (AdaptiveThrottler.recent_response_times self
                 ++ reported_times_ms reports)
  /\ (length (AdaptiveThrottler.recent_errors after) <= w)%nat
  /\ (length (AdaptiveThrottler.recent_response_times after) <= w)%nat.
Proof.
  cbn zeta. revert self. induction reports as [|r reports IH]; intros self He Ht.
  - unfold reported_times_ms. cbn [record_all fold_left map concat].
    rewrite !app_nil_r, !last_n_all by assumption.
    repeat split; assumption.
  - rewrite record_all_cons.
    destruct (record_frame self r)
      as ((_ & _ & _ & _ & _ & _ & _ & Hw & _) & F1 & F2 & _).
    assert (He1 : (length (AdaptiveThrottler.recent_errors (record self r))
                   <= AdaptiveThrottler.window_size (record self r))%nat).
    { rewrite F1, Hw, last_n_length. lia. }
    assert (Ht1 : (length (AdaptiveThrottler.recent_response_times
                             (record self r))
                   <= AdaptiveThrottler.window_size (record self r))%nat).
    { rewrite F2, Hw. destruct (reported_time_ms r);
        [exact Ht|rewrite last_n_length; lia]. }
    destruct (IH (record self r) He1 Ht1) as (I1 & I2 & I3 & I4).
    rewrite Hw in I1, I2, I3, I4.
    split; [|split; [|split]]; try assumption.
    + rewrite I1, F1, last_n_app, <- app_assoc. reflexivity.
    + rewrite I2, F2. unfold reported_times_ms. cbn [map concat].
      destruct (reported_time_ms r) as [|x ms].
      * reflexivity.
      * rewrite last_n_app, <- app_assoc. reflexivity.
Qed.

Lemma record_all_windows_witness :
  AdaptiveThrottler.recent_errors
    (record_all (AdaptiveThrottler_init 0.5%float 0.1%float 5%float 10%float
                   0.5%float 1.5%float 0.8%float 2 10)
       [Succeeded 0.1%float; Failed None; Failed (Some 2%float)])
  = [true; true]
  /\ AdaptiveThrottler.recent_response_times
       (record_all (AdaptiveThrottler_init 0.5%float 0.1%float 5%float 10%float
                      0.5%float 1.5%float 0.8%float 2 10)
          [Succeeded 0.1%float; Failed None; Failed (Some 2%float)])
     = [(0.1 * 1000)%float; (2 * 1000)%float].
Proof.
  destruct (record_all_windows
              (AdaptiveThrottler_init 0.5%float 0.1%float 5%float 10%float
                 0.5%float 1.5%float 0.8%float 2 10)
              [Succeeded 0.1%float; Failed None; Failed (Some 2%float)])
    as (H1 & H2 & _); [cbn; lia|cbn; lia|].
  split; [exact H1|exact H2].
Defined.

(** X23: With [min_delay <= max_delay] and a delay that starts within the
    bounds, the delay stays within the bounds through every run of
    reports, so every pause of [wait] is a delay within the bounds. *)
Theorem record_all_delay_within_bounds (self : AdaptiveThrottler.t)
  (reports : list request_report) :
  (AdaptiveThrottler.min_delay self <=? AdaptiveThrottler.max_delay self)%float
  = true ->
  (AdaptiveThrottler.min_delay self <=? AdaptiveThrottler.current_delay self)
    %float = true
  /\ (AdaptiveThrottler.current_delay self
      <=? AdaptiveThrottler.max_delay self)%float = true ->
  let after := record_all self reports in
  ((AdaptiveThrottler.min_delay self
    <=? AdaptiveThrottler.current_delay after)%float = true
   /\ (AdaptiveThrottler.current_delay after
       <=? AdaptiveThrottler.max_delay self)%float = true)
  /\ (forall d, In d (wait after) ->
        (0 <? d)%float = true
        /\ (AdaptiveThrottler.min_delay self <=? d)%float = true
        /\ (d <=? AdaptiveThrottler.max_delay self)%float = true).
Proof.
  cbn zeta. intros Hmm Hin.
  assert (H : (AdaptiveThrottler.min_delay self
               <=? AdaptiveThrottler.current_delay (record_all self reports))
                %float = true
              /\ (AdaptiveThrottler.current_delay (record_all self reports)
                  <=? AdaptiveThrottler.max_delay self)%float = true).
  { revert self Hmm Hin.
    induction reports as [|r reports IH]; intros self Hmm Hin;
      [exact Hin|].
    rewrite record_all_cons.
    destruct (record_frame self r) as ((_ & Pmin & Pmax & _) & _).
    rewrite <- Pmin, <- Pmax. apply IH.
    - rewrite Pmin, Pmax. exact Hmm.
    - rewrite Pmin, Pmax. apply record_bounds; assumption. }
  split; [exact H|].
  intros d Hd. unfold wait in Hd.
  destruct (0 <? AdaptiveThrottler.current_delay
                   (record_all self reports))%float eqn:E;
    [|inversion Hd].
  destruct Hd as [<-|[]]. split; [exact E|exact H].
Qed.

Lemma record_all_delay_within_bounds_witness :
  (0.1 <=? AdaptiveThrottler.current_delay
              (record_all AdaptiveThrottler_default
                 (repeat (Failed None) 10)))%float = true
  /\ (AdaptiveThrottler.current_delay
        (record_all AdaptiveThrottler_default (repeat (Failed None) 10))
      <=? 5)%float = true.
Proof.
  destruct (record_all_delay_within_bounds AdaptiveThrottler_default
              (repeat (Failed None) 10)) as [H _].
  - reflexivity.
  - split; reflexivity.
  - exact H.
Defined.

(** X24: With an adjustment interval of at least one request, the throttler
    counts the requests since the last adjustment modulo the interval: an
    adjustment step is run on every [adjustment_interval]-th report and on
    no other. *)
Theorem record_all_requests_since_adjustment (self : AdaptiveThrottler.t)
  (reports : list request_report) :
  1 <= AdaptiveThrottler.adjustment_interval self ->
  0 <= AdaptiveThrottler.requests_since_adjustment self
    < AdaptiveThrottler.adjustment_interval self ->
  AdaptiveThrottler.requests_since_adjustment (record_all self reports)
  = (AdaptiveThrottler.requests_since_adjustment self
     + Z.of_nat (length reports))
    mod AdaptiveThrottler.adjustment_interval self.
Proof.
  revert self. induction reports as [|r reports IH]; intros self Hk Hr.
  - cbn [record_all fold_left length Z.of_nat]. rewrite Z.add_0_r.
    symmetry. apply Z.mod_small. exact Hr.
  - rewrite record_all_cons.
    destruct (record_frame self r)
      as ((_ & _ & _ & _ & _ & _ & _ & _ & Pk) & _ & _ & F & _).
    assert (Hstep : AdaptiveThrottler.requests_since_adjustment
                      (record self r)
                    = (AdaptiveThrottler.requests_since_adjustment self + 1)
                      mod AdaptiveThrottler.adjustment_interval self).
    { rewrite F.
      destruct (AdaptiveThrottler.adjustment_interval self
                <=? AdaptiveThrottler.requests_since_adjustment self + 1)
        eqn:E.
      - apply Z.leb_le in E.
        replace (AdaptiveThrottler.requests_since_adjustment self + 1)
          with (AdaptiveThrottler.adjustment_interval self) by lia.
        symmetry. apply Z.mod_same. lia.
      - apply Z.leb_gt in E. symmetry. apply Z.mod_small. lia. }
    rewrite IH.
    + rewrite Pk, Hstep, Zplus_mod_idemp_l. f_equal.
      cbn [length]. lia.
    + rewrite Pk. exact Hk.
    + rewrite Pk, Hstep. apply Z.mod_pos_bound. lia.
Qed.

Lemma record_all_requests_since_adjustment_witness :
  AdaptiveThrottler.requests_since_adjustment
    (record_all AdaptiveThrottler_default (repeat (Succeeded 0.1%float) 25))
  = 5.
Proof.
  rewrite (record_all_requests_since_adjustment AdaptiveThrottler_default
             (repeat (Succeeded 0.1%float) 25)).
  - reflexivity.
  - vm_compute. discriminate.
  - split; vm_compute; [discriminate|reflexivity].
Defined.

(** X25: The error rate that the metrics report after a run of reports is 0.0
    when no request has been counted, and otherwise the number of failed
    requests divided by the number of all requests, times 100, computed in
    binary64 over the counters: the counters before the run plus the
    reports.  It is the rounded and not the exact percentage: 7 failures
    among 100 requests give 7.000000000000001. *)
Theorem get_error_rate_after_reports (self : AdaptiveThrottler.t)
  (reports : list request_report) :
  let before := AdaptiveThrottler.metrics self in
  let after := AdaptiveThrottler.metrics (record_all self reports) in
  let total := total_requests before + Z.of_nat (length reports) in
  let failed := failed_requests before + failures reports in
  get_error_rate after
  = (if total =? 0 then 0%float
     else (float_of_int failed / float_of_int total * 100)%float)
  /\ get_error_rate
       (AdaptiveThrottler.metrics
          (record_all AdaptiveThrottler_default
             (repeat (Failed None) 7 ++ repeat (Succeeded 0.1%float) 93)))
     = 7.000000000000001%float
  /\ get_error_rate (AdaptiveThrottler.metrics AdaptiveThrottler_default)
     = 0%float.
Proof.
  cbn zeta.
  destruct (record_all_metrics self reports) as (H1 & H2 & _).
  split; [|split; vm_compute; reflexivity].
  unfold get_error_rate, py_truediv. rewrite H1, H2. reflexivity.
Qed.

(** X26: [reset] after any run of reports gives the throttler that [__init__]
    builds from the same parameters: the delay is the initial delay again,
    both windows, the metrics, the request counter and the history are
    empty. *)
Theorem reset_restores_initial_state
  (initial_delay min_delay max_delay error_threshold fast_response_threshold
   slowdown_factor speedup_factor : float) (window_size : nat)
  (adjustment_interval : Z) (reports : list request_report) :
  let fresh :=
    AdaptiveThrottler_init initial_delay min_delay max_delay error_threshold
      fast_response_threshold slowdown_factor speedup_factor window_size
      adjustment_interval in
  reset (record_all fresh reports) = fresh
  /\ wait (reset (record_all fresh reports)) = wait fresh.
Proof.
  cbn zeta.
  remember (AdaptiveThrottler_init initial_delay min_delay max_delay
              error_threshold fast_response_threshold slowdown_factor
              speedup_factor window_size adjustment_interval)
    as fresh eqn:Hfresh.
  pose proof (record_all_same_parameters fresh reports)
    as (P1 & P2 & P3 & P4 & P5 & P6 & P7 & P8 & P9).
  assert (H : reset (record_all fresh reports) = fresh).
  { unfold reset, AdaptiveThrottler.update.
    rewrite P1, P2, P3, P4, P5, P6, P7, P8, P9. subst fresh.
    reflexivity. }
  split; [exact H|]. rewrite H. reflexivity.
Qed.

(** X27: The history of adjustments only grows, its counter grows with it, and
    every entry it gains records a change of the delay by more than a
    millisecond. *)
Theorem record_all_adjustment_history (self : AdaptiveThrottler.t)
  (reports : list request_report) :
  exists added,
    AdaptiveThrottler.adjustment_history (record_all self reports)
    = AdaptiveThrottler.adjustment_history self ++ added
    /\ adjustments_count (AdaptiveThrottler.metrics (record_all self reports))
       = adjustments_count (AdaptiveThrottler.metrics self)
         + Z.of_nat (length added)
    /\ (length added <= length reports)%nat
    /\ Forall (fun entry =>
                 (0.001
                  <? PrimFloat.abs
                       (adj_new_delay entry - adj_old_delay entry))%float
                 = true)
              added.
Proof.
  revert self. induction reports as [|r reports IH]; intros self.
  - exists []. cbn. rewrite app_nil_r, Z.add_0_r.
    repeat split; [lia|constructor].
  - rewrite record_all_cons.
    destruct (IH (record self r)) as (added & I1 & I2 & I3 & I4).
    destruct (record_history self r)
      as [[H1 H2]|(entry & H1 & H2 & _ & _ & H5)].
    + exists added. rewrite I1, I2, H1, H2. cbn [length].
      repeat split; [lia|exact I4].
    + exists (entry :: added). rewrite I1, I2, H1, H2, <- app_assoc.
      cbn [app length]. repeat split; [lia|lia|].
      constructor; assumption.
Qed.

(** ** URLRule and EdgeRule *)

(** X28: Applying a URL rule writes [should_scan] and [can_create_edges], each
    only when the rule gives a value for it, and nothing else; applying
    the rule a second time changes nothing more. *)
Theorem apply_to_node_writes_two_flags (rule : URLRule.t) (node : Node.t) :
  let node' := apply_to_node rule node in
  Node.should_scan node'
  = default (Node.should_scan node) (URLRule.should_scan rule)
  /\ Node.can_create_edges node'
     = default (Node.can_create_edges node) (URLRule.should_follow_links rule)
  /\ Node.url node' = Node.url node
  /\ Node.depth node' = Node.depth node
  /\ Node.priority node' = Node.priority node
  /\ Node.scanned node' = Node.scanned node
  /\ Node.lifecycle_stage node' = Node.lifecycle_stage node
  /\ Node.metadata node' = Node.metadata node
  /\ Node.user_data node' = Node.user_data node
  /\ Node.content_hash node' = Node.content_hash node
  /\ apply_to_node rule node' = node'
  /\ (URLRule.should_scan rule = None ->
      URLRule.should_follow_links rule = None -> node' = node).
Proof.
  cbn zeta. unfold apply_to_node.
  destruct rule as [pat prio [ss|] [sf|] ce]; cbn;
    repeat split; try reflexivity; try discriminate.
Qed.

Section EdgeRuleProperties.

Variable re_match : string -> string -> outcome bool.

(** X29: An edge rule looks at the two depths only through their distance: the
    verdict is the same with the depths exchanged, and a rule that applies
    to a pair of URLs at some distance applies to them at every smaller
    distance. *)
Theorem matches_depends_on_depth_distance (self : EdgeRule.t)
  (source_url target_url : string)
  (source_depth target_depth source_depth' target_depth' : Z) :
  Z.abs (target_depth' - source_depth')
  <= Z.abs (target_depth - source_depth) ->
  matches re_match self source_url target_url source_depth target_depth
  = Return true ->
  matches re_match self source_url target_url source_depth' target_depth'
  = Return true
  /\ matches re_match self source_url target_url target_depth source_depth
     = Return true
  /\ should_create_edge re_match self source_url target_url
       source_depth' target_depth'
     = should_create_edge re_match self source_url target_url
         source_depth target_depth.
Proof.
  intros Hle Hm.
  assert (Hsym : Z.abs (source_depth - target_depth)
                 = Z.abs (target_depth - source_depth)) by lia.
  assert (H1 : matches re_match self source_url target_url
                 source_depth' target_depth' = Return true).
  { unfold matches in Hm |- *.
    repeat case_match; simplify_eq; try reflexivity; try discriminate; lia. }
  assert (H2 : matches re_match self source_url target_url
                 target_depth source_depth = Return true).
  { unfold matches in Hm |- *. rewrite Hsym. exact Hm. }
  split; [exact H1|]. split; [exact H2|].
  unfold should_create_edge. rewrite H1, Hm. reflexivity.
Qed.


End EdgeRuleProperties.

Lemma matches_depends_on_depth_distance_witness :
  matches prefix_match blog_to_shop_rule "https://example.com/blog/a"
    "https://example.com/shop/b" 1 3 = Return true
  /\ matches prefix_match blog_to_shop_rule "https://example.com/blog/a"
       "https://example.com/shop/b" 4 3 = Return true
  /\ should_create_edge prefix_match blog_to_shop_rule
       "https://example.com/blog/a" "https://example.com/shop/b" 4 3
     = Return (Some false).
Proof.
  destruct (matches_depends_on_depth_distance prefix_match blog_to_shop_rule
              "https://example.com/blog/a" "https://example.com/shop/b"
              1 3 4 3) as (H1 & _ & H3).
  - vm_compute. discriminate.
  - reflexivity.
  - split; [reflexivity|]. split; [exact H1|]. rewrite H3. reflexivity.
Defined.

